(** * Focus modes and robot navigation of the 3D portfolio scene

    A shallow embedding of the stateful core of
    [src/scenes/CyberpunkOffice.js] (obstacle map, robot wandering, robot
    help mode, phone mode) and of [Portfolio3D] in
    [src/components/InteractiveElements.js] (click dispatch, hologram focus,
    auto-close policy, per-frame [animate]).

    Modelling conventions.
    - JavaScript numbers are idealised as exact rationals ([Q]); times read
      from [Date.now()] are integers ([Z]).
    - [Math.random], [Math.sqrt] and [Math.atan2] belong to the runtime; they
      are section variables, so every theorem holds for any implementation.
      The [n]-th call of [Math.random()] returns [random n]; the world keeps
      the number of calls made so far.
    - GSAP tweens on the camera position and on the orbit target are kept in
      a list of pending tweens together with their completion callback;
      [setTimeout] callbacks are kept in a list of pending timers.  The
      environment decides which pending tween completes or which timer fires
      next, so nothing here depends on whether GSAP lets an older tween on
      the same target run to its end once a newer one has started.
    - Between two events the camera may be anywhere: the orbit controls and
      the tweens in flight move it ([CameraMoved]).
    - Purely cosmetic tweens (limb gestures, panel orientation, opacity
      fades) and the dialogues of the presentation layer are not part of
      the state.
    - A handler that would throw a [TypeError] returns [None]. *)

From Stdlib Require Import QArith Qabs Qround Lqa ZArith Lia List Bool.
From Stdlib Require String.
Import ListNotations.
Open Scope Q_scope.

(** ** Numbers *)

(** [a < b] on JavaScript numbers. *)
Definition Qltb (a b : Q) : bool := negb (Qle_bool b a).

Record Vec3 : Type := mkVec3 { vx : Q; vy : Q; vz : Q }.

(** ** Obstacle map ([CyberpunkOffice] constructor and [checkCollision]) *)

Record Obstacle : Type := mkObstacle
  { ob_x : Q; ob_z : Q; ob_width : Q; ob_depth : Q }.

(** [this.obstacles] as the constructor builds it. *)
Definition constructorObstacles : list Obstacle :=
  [ mkObstacle 0 0 14 8          (* main desk *)
  ; mkObstacle 0 5 3 3           (* chair *)
  ; mkObstacle 15 (-8) 8 6       (* second desk *)
  ; mkObstacle 8 2 2 2           (* CPU tower *)
  ; mkObstacle (-25) 0 4 4       (* hologram projectors *)
  ; mkObstacle 0 (-30) 4 4
  ; mkObstacle 25 0 4 4
  ; mkObstacle 0 25 4 4 ].

Definition obstacleLeft (o : Obstacle) : Q := ob_x o - ob_width o / 2.
Definition obstacleRight (o : Obstacle) : Q := ob_x o + ob_width o / 2.
Definition obstacleTop (o : Obstacle) : Q := ob_z o - ob_depth o / 2.
Definition obstacleBottom (o : Obstacle) : Q := ob_z o + ob_depth o / 2.

(** The condition of the [if] inside the loop over the obstacles. *)
Definition intersectsObstacle (x z robotRadius : Q) (o : Obstacle) : bool :=
  Qltb (obstacleLeft o) (x + robotRadius)
  && Qltb (x - robotRadius) (obstacleRight o)
  && Qltb (obstacleTop o) (z + robotRadius)
  && Qltb (z - robotRadius) (obstacleBottom o).

Definition sceneBoundary : Q := 40.

(** [checkCollision(x, z, robotRadius)]: first the loop over the obstacles,
    then the scene boundary. *)
Definition checkCollision (obs : list Obstacle) (x z robotRadius : Q) : bool :=
  if existsb (intersectsObstacle x z robotRadius) obs then true
  else if Qltb sceneBoundary (Qabs x) || Qltb sceneBoundary (Qabs z) then true
  else false.

(** The default value of the parameter [robotRadius]. *)
Definition defaultRobotRadius : Q := 2.

(** ** Rectangles as point sets, to say what "overlap" means *)





Definition outOfBounds (x z : Q) : Prop :=
  sceneBoundary < Qabs x \/ sceneBoundary < Qabs z.




(** ** The robot ([createRobot], [robotGroup.userData]) *)

Record Robot : Type := mkRobot
  { position : Vec3;              (* robot.position *)
    rotation_y : Q;               (* robot.rotation.y *)
    wheels : list Q;              (* rotation.y of each of the wheels *)
    walkingAnimation : bool;      (* started / stopped walking gestures *)
    yesButton_visible : bool;     (* helpText.userData.yesButton.visible *)
    noButton_visible : bool;      (* helpText.userData.noButton.visible *)
    isMoving : bool;
    targetPosition : Vec3;
    moveSpeed : Q;
    lastDirectionChange : Z }.

Definition set_position (v : Vec3) (r : Robot) : Robot :=
  mkRobot v (rotation_y r) (wheels r) (walkingAnimation r)
    (yesButton_visible r) (noButton_visible r) (isMoving r)
    (targetPosition r) (moveSpeed r) (lastDirectionChange r).

Definition set_rotation_y (v : Q) (r : Robot) : Robot :=
  mkRobot (position r) v (wheels r) (walkingAnimation r)
    (yesButton_visible r) (noButton_visible r) (isMoving r)
    (targetPosition r) (moveSpeed r) (lastDirectionChange r).

Definition set_wheels (v : list Q) (r : Robot) : Robot :=
  mkRobot (position r) (rotation_y r) v (walkingAnimation r)
    (yesButton_visible r) (noButton_visible r) (isMoving r)
    (targetPosition r) (moveSpeed r) (lastDirectionChange r).

Definition set_walkingAnimation (v : bool) (r : Robot) : Robot :=
  mkRobot (position r) (rotation_y r) (wheels r) v (yesButton_visible r)
    (noButton_visible r) (isMoving r) (targetPosition r) (moveSpeed r)
    (lastDirectionChange r).

Definition set_yesButton_visible (v : bool) (r : Robot) : Robot :=
  mkRobot (position r) (rotation_y r) (wheels r) (walkingAnimation r) v
    (noButton_visible r) (isMoving r) (targetPosition r) (moveSpeed r)
    (lastDirectionChange r).

Definition set_noButton_visible (v : bool) (r : Robot) : Robot :=
  mkRobot (position r) (rotation_y r) (wheels r) (walkingAnimation r)
    (yesButton_visible r) v (isMoving r) (targetPosition r) (moveSpeed r)
    (lastDirectionChange r).

Definition set_isMoving (v : bool) (r : Robot) : Robot :=
  mkRobot (position r) (rotation_y r) (wheels r) (walkingAnimation r)
    (yesButton_visible r) (noButton_visible r) v (targetPosition r)
    (moveSpeed r) (lastDirectionChange r).

Definition set_targetPosition (v : Vec3) (r : Robot) : Robot :=
  mkRobot (position r) (rotation_y r) (wheels r) (walkingAnimation r)
    (yesButton_visible r) (noButton_visible r) (isMoving r) v (moveSpeed r)
    (lastDirectionChange r).

Definition set_moveSpeed (v : Q) (r : Robot) : Robot :=
  mkRobot (position r) (rotation_y r) (wheels r) (walkingAnimation r)
    (yesButton_visible r) (noButton_visible r) (isMoving r)
    (targetPosition r) v (lastDirectionChange r).

Definition set_lastDirectionChange (v : Z) (r : Robot) : Robot :=
  mkRobot (position r) (rotation_y r) (wheels r) (walkingAnimation r)
    (yesButton_visible r) (noButton_visible r) (isMoving r)
    (targetPosition r) (moveSpeed r) v.

(** ** Pending animations and timers *)

Inductive TweenTarget : Type := CameraPosition | ControlsTarget.

(** The [onComplete] callbacks the code attaches to camera tweens. *)
Inductive Callback : Type :=
| CbNone
| CbActivateTracking (screenIndex : Z)   (* focusOnHologramScreen *)
| CbReturnedToDefault                    (* returnToDefaultView *)
| CbShowPhoneHologram.                   (* enterPhoneMode *)

Record Tween : Type := mkTween
  { tw_target : TweenTarget; tw_to : Vec3; tw_duration : Q;
    tw_onComplete : Callback }.

(** The value of [data-section] on a navigation button. *)
Inductive SectionName : Type :=
| home | about | projects | skills | contact
| otherSection (name : String.string).   (* any other name *)

(** The callbacks the code passes to [setTimeout]. *)
Inductive TimerCallback : Type :=
| TmEnableAutoRotate                     (* after a hologram focus *)
| TmForceDirectionChange                 (* deactivateRobotHelpMode *)
| TmNavigated (section : SectionName).   (* navigateToSection *)

Record Timer : Type := mkTimer { tm_delay : Z; tm_callback : TimerCallback }.

(** ** The world: [Portfolio3D], its [CyberpunkOffice] and the runtime *)

Record World : Type := mkWorld
  { (* Portfolio3D *)
    isLoaded : bool;
    camera_position : Vec3;
    controls_target : Vec3;
    controls_autoRotate : bool;
    currentSection : SectionName;
    activeHologramIndex : Z;
    isHologramActive : bool;
    (* CyberpunkOffice *)
    obstacles : list Obstacle;
    objects_robot : option Robot;
    robotInteractionMode : bool;
    robotHelpModeStartTime : option Z;
    originalCameraPosition : option Vec3;
    originalCameraTarget : option Vec3;
    phoneInteractionMode : bool;
    phoneHologram : option bool;       (* [None]: not built; [Some visible] *)
    hologramContent : list bool;       (* per panel: content and back
                                          button shown; the short fade
                                          before they hide is skipped *)
    (* runtime *)
    randomCalls : nat;                 (* calls of Math.random() so far *)
    tweens : list Tween;
    timers : list Timer }.

Definition set_isLoaded (v : bool) (w : World) : World :=
  mkWorld v (camera_position w) (controls_target w) (controls_autoRotate w)
    (currentSection w) (activeHologramIndex w) (isHologramActive w)
    (obstacles w) (objects_robot w) (robotInteractionMode w)
    (robotHelpModeStartTime w) (originalCameraPosition w)
    (originalCameraTarget w) (phoneInteractionMode w) (phoneHologram w)
    (hologramContent w) (randomCalls w) (tweens w) (timers w).

Definition set_camera_position (v : Vec3) (w : World) : World :=
  mkWorld (isLoaded w) v (controls_target w) (controls_autoRotate w)
    (currentSection w) (activeHologramIndex w) (isHologramActive w)
    (obstacles w) (objects_robot w) (robotInteractionMode w)
    (robotHelpModeStartTime w) (originalCameraPosition w)
    (originalCameraTarget w) (phoneInteractionMode w) (phoneHologram w)
    (hologramContent w) (randomCalls w) (tweens w) (timers w).

Definition set_controls_target (v : Vec3) (w : World) : World :=
  mkWorld (isLoaded w) (camera_position w) v (controls_autoRotate w)
    (currentSection w) (activeHologramIndex w) (isHologramActive w)
    (obstacles w) (objects_robot w) (robotInteractionMode w)
    (robotHelpModeStartTime w) (originalCameraPosition w)
    (originalCameraTarget w) (phoneInteractionMode w) (phoneHologram w)
    (hologramContent w) (randomCalls w) (tweens w) (timers w).

Definition set_controls_autoRotate (v : bool) (w : World) : World :=
  mkWorld (isLoaded w) (camera_position w) (controls_target w) v
    (currentSection w) (activeHologramIndex w) (isHologramActive w)
    (obstacles w) (objects_robot w) (robotInteractionMode w)
    (robotHelpModeStartTime w) (originalCameraPosition w)
    (originalCameraTarget w) (phoneInteractionMode w) (phoneHologram w)
    (hologramContent w) (randomCalls w) (tweens w) (timers w).

Definition set_currentSection (v : SectionName) (w : World) : World :=
  mkWorld (isLoaded w) (camera_position w) (controls_target w)
    (controls_autoRotate w) v (activeHologramIndex w) (isHologramActive w)
    (obstacles w) (objects_robot w) (robotInteractionMode w)
    (robotHelpModeStartTime w) (originalCameraPosition w)
    (originalCameraTarget w) (phoneInteractionMode w) (phoneHologram w)
    (hologramContent w) (randomCalls w) (tweens w) (timers w).

Definition set_activeHologramIndex (v : Z) (w : World) : World :=
  mkWorld (isLoaded w) (camera_position w) (controls_target w)
    (controls_autoRotate w) (currentSection w) v (isHologramActive w)
    (obstacles w) (objects_robot w) (robotInteractionMode w)
    (robotHelpModeStartTime w) (originalCameraPosition w)
    (originalCameraTarget w) (phoneInteractionMode w) (phoneHologram w)
    (hologramContent w) (randomCalls w) (tweens w) (timers w).

Definition set_isHologramActive (v : bool) (w : World) : World :=
  mkWorld (isLoaded w) (camera_position w) (controls_target w)
    (controls_autoRotate w) (currentSection w) (activeHologramIndex w) v
    (obstacles w) (objects_robot w) (robotInteractionMode w)
    (robotHelpModeStartTime w) (originalCameraPosition w)
    (originalCameraTarget w) (phoneInteractionMode w) (phoneHologram w)
    (hologramContent w) (randomCalls w) (tweens w) (timers w).

Definition set_obstacles (v : list Obstacle) (w : World) : World :=
  mkWorld (isLoaded w) (camera_position w) (controls_target w)
    (controls_autoRotate w) (currentSection w) (activeHologramIndex w)
    (isHologramActive w) v (objects_robot w) (robotInteractionMode w)
    (robotHelpModeStartTime w) (originalCameraPosition w)
    (originalCameraTarget w) (phoneInteractionMode w) (phoneHologram w)
    (hologramContent w) (randomCalls w) (tweens w) (timers w).

Definition set_objects_robot (v : option Robot) (w : World) : World :=
  mkWorld (isLoaded w) (camera_position w) (controls_target w)
    (controls_autoRotate w) (currentSection w) (activeHologramIndex w)
    (isHologramActive w) (obstacles w) v (robotInteractionMode w)
    (robotHelpModeStartTime w) (originalCameraPosition w)
    (originalCameraTarget w) (phoneInteractionMode w) (phoneHologram w)
    (hologramContent w) (randomCalls w) (tweens w) (timers w).

Definition set_robotInteractionMode (v : bool) (w : World) : World :=
  mkWorld (isLoaded w) (camera_position w) (controls_target w)
    (controls_autoRotate w) (currentSection w) (activeHologramIndex w)
    (isHologramActive w) (obstacles w) (objects_robot w) v
    (robotHelpModeStartTime w) (originalCameraPosition w)
    (originalCameraTarget w) (phoneInteractionMode w) (phoneHologram w)
    (hologramContent w) (randomCalls w) (tweens w) (timers w).

Definition set_robotHelpModeStartTime (v : option Z) (w : World) : World :=
  mkWorld (isLoaded w) (camera_position w) (controls_target w)
    (controls_autoRotate w) (currentSection w) (activeHologramIndex w)
    (isHologramActive w) (obstacles w) (objects_robot w)
    (robotInteractionMode w) v (originalCameraPosition w)
    (originalCameraTarget w) (phoneInteractionMode w) (phoneHologram w)
    (hologramContent w) (randomCalls w) (tweens w) (timers w).

Definition set_originalCameraPosition (v : option Vec3) (w : World) : World :=
  mkWorld (isLoaded w) (camera_position w) (controls_target w)
    (controls_autoRotate w) (currentSection w) (activeHologramIndex w)
    (isHologramActive w) (obstacles w) (objects_robot w)
    (robotInteractionMode w) (robotHelpModeStartTime w) v
    (originalCameraTarget w) (phoneInteractionMode w) (phoneHologram w)
    (hologramContent w) (randomCalls w) (tweens w) (timers w).

Definition set_originalCameraTarget (v : option Vec3) (w : World) : World :=
  mkWorld (isLoaded w) (camera_position w) (controls_target w)
    (controls_autoRotate w) (currentSection w) (activeHologramIndex w)
    (isHologramActive w) (obstacles w) (objects_robot w)
    (robotInteractionMode w) (robotHelpModeStartTime w)
    (originalCameraPosition w) v (phoneInteractionMode w) (phoneHologram w)
    (hologramContent w) (randomCalls w) (tweens w) (timers w).

Definition set_phoneInteractionMode (v : bool) (w : World) : World :=
  mkWorld (isLoaded w) (camera_position w) (controls_target w)
    (controls_autoRotate w) (currentSection w) (activeHologramIndex w)
    (isHologramActive w) (obstacles w) (objects_robot w)
    (robotInteractionMode w) (robotHelpModeStartTime w)
    (originalCameraPosition w) (originalCameraTarget w) v (phoneHologram w)
    (hologramContent w) (randomCalls w) (tweens w) (timers w).

Definition set_phoneHologram (v : option bool) (w : World) : World :=
  mkWorld (isLoaded w) (camera_position w) (controls_target w)
    (controls_autoRotate w) (currentSection w) (activeHologramIndex w)
    (isHologramActive w) (obstacles w) (objects_robot w)
    (robotInteractionMode w) (robotHelpModeStartTime w)
    (originalCameraPosition w) (originalCameraTarget w)
    (phoneInteractionMode w) v (hologramContent w) (randomCalls w)
    (tweens w) (timers w).

Definition set_hologramContent (v : list bool) (w : World) : World :=
  mkWorld (isLoaded w) (camera_position w) (controls_target w)
    (controls_autoRotate w) (currentSection w) (activeHologramIndex w)
    (isHologramActive w) (obstacles w) (objects_robot w)
    (robotInteractionMode w) (robotHelpModeStartTime w)
    (originalCameraPosition w) (originalCameraTarget w)
    (phoneInteractionMode w) (phoneHologram w) v (randomCalls w) (tweens w)
    (timers w).

Definition set_randomCalls (v : nat) (w : World) : World :=
  mkWorld (isLoaded w) (camera_position w) (controls_target w)
    (controls_autoRotate w) (currentSection w) (activeHologramIndex w)
    (isHologramActive w) (obstacles w) (objects_robot w)
    (robotInteractionMode w) (robotHelpModeStartTime w)
    (originalCameraPosition w) (originalCameraTarget w)
    (phoneInteractionMode w) (phoneHologram w) (hologramContent w) v
    (tweens w) (timers w).

Definition set_tweens (v : list Tween) (w : World) : World :=
  mkWorld (isLoaded w) (camera_position w) (controls_target w)
    (controls_autoRotate w) (currentSection w) (activeHologramIndex w)
    (isHologramActive w) (obstacles w) (objects_robot w)
    (robotInteractionMode w) (robotHelpModeStartTime w)
    (originalCameraPosition w) (originalCameraTarget w)
    (phoneInteractionMode w) (phoneHologram w) (hologramContent w)
    (randomCalls w) v (timers w).

Definition set_timers (v : list Timer) (w : World) : World :=
  mkWorld (isLoaded w) (camera_position w) (controls_target w)
    (controls_autoRotate w) (currentSection w) (activeHologramIndex w)
    (isHologramActive w) (obstacles w) (objects_robot w)
    (robotInteractionMode w) (robotHelpModeStartTime w)
    (originalCameraPosition w) (originalCameraTarget w)
    (phoneInteractionMode w) (phoneHologram w) (hologramContent w)
    (randomCalls w) (tweens w) v.

(** A small notation for handlers that may end with an exception. *)
Notation "x <- c ;; k" :=
  (match c with Some x => k | None => None end)
  (at level 61, c at next level, right associativity).

(** ** Free-position sampling ([findValidPosition]) *)

Section Runtime.

(** [random n] is the value of the [n]-th call of [Math.random()]. *)
Variable random : nat -> Q.
(** [Math.sqrt] and [Math.atan2]. *)
Variable js_sqrt : Q -> Q.
Variable js_atan2 : Q -> Q -> Q.

(** The candidate drawn with the calls number [cur] and [cur + 1]:
    [(Math.random() - 0.5) * 60] for each coordinate. *)
Definition candidate (cur : nat) : Q * Q :=
  ((random cur - 0.5) * 60, (random (S cur) - 0.5) * 60).

(** [findValidPosition(currentX, currentZ, maxAttempts)].  The loop counter
    runs from [0] to [maxAttempts - 1]; [cur] counts the calls of
    [Math.random()] made before, the result carries the count after. *)
Fixpoint findValidPosition (obs : list Obstacle) (currentX currentZ : Q)
    (maxAttempts : nat) (cur : nat) : (Q * Q) * nat :=
  match maxAttempts with
  | O => ((currentX, currentZ), cur)
  | S remaining =>
      let '(x, z) := candidate cur in
      if negb (checkCollision obs x z defaultRobotRadius)
      then ((x, z), S (S cur))
      else findValidPosition obs currentX currentZ remaining (S (S cur))
  end.

(** The default value of the parameter [maxAttempts]. *)
Definition defaultMaxAttempts : nat := 10.

(** The [i]-th candidate of a call that starts at count [cur]. *)
Definition nthCandidate (cur i : nat) : Q * Q := candidate (cur + 2 * i).

Definition candidateBlocked (obs : list Obstacle) (cur i : nat) : bool :=
  checkCollision obs (fst (nthCandidate cur i)) (snd (nthCandidate cur i))
    defaultRobotRadius.

(** What a call returns: the first free candidate among the first
    [maxAttempts] ones, or the position passed in. *)
Inductive SamplerOutcome (obs : list Obstacle) (currentX currentZ : Q)
    (maxAttempts cur : nat) (res : (Q * Q) * nat) : Prop :=
| Found (i : nat) :
    (i < maxAttempts)%nat ->
    (forall j, (j < i)%nat -> candidateBlocked obs cur j = true) ->
    candidateBlocked obs cur i = false ->
    fst res = nthCandidate cur i ->
    snd res = (cur + 2 * S i)%nat ->
    SamplerOutcome obs currentX currentZ maxAttempts cur res
| Exhausted :
    (forall j, (j < maxAttempts)%nat ->
               candidateBlocked obs cur j = true) ->
    fst res = (currentX, currentZ) ->
    snd res = (cur + 2 * maxAttempts)%nat ->
    SamplerOutcome obs currentX currentZ maxAttempts cur res.

(** ** Robot wandering ([updateRobotMovement]) *)

Definition startRobotWalkingAnimation (r : Robot) : Robot :=
  set_walkingAnimation true r.

Definition stopRobotWalkingAnimation (r : Robot) : Robot :=
  set_walkingAnimation false r.

(** [THREE.MathUtils.lerp]. *)
Definition lerp (x y t : Q) : Q := (1 - t) * x + t * y.

Definition wheelRadius : Q := 0.4.

(** The first [if] of [updateRobotMovement]: "change direction every 3-5
    seconds".  One call of [Math.random()] for the interval, then the calls
    of [findValidPosition]. *)
Definition retargetDue (now : Z) (r : Robot) (cur : nat) : bool :=
  Qltb (3000 + random cur * 2000) (inject_Z (now - lastDirectionChange r)).

Definition retarget (obs : list Obstacle) (now : Z) (r : Robot) (cur : nat)
    : Robot * nat :=
  if retargetDue now r cur then
    let '((x, z), cur') :=
      findValidPosition obs (vx (position r)) (vz (position r))
        defaultMaxAttempts (S cur) in
    (startRobotWalkingAnimation
       (set_isMoving true
          (set_lastDirectionChange now
             (set_targetPosition (mkVec3 x 0 z) r))),
     cur')
  else (r, S cur).

(** The proposed next position while the target is more than one unit
    away. *)
Definition nextPosition (r : Robot) : Q * Q :=
  let dx := vx (targetPosition r) - vx (position r) in
  let dz := vz (targetPosition r) - vz (position r) in
  let distance := js_sqrt (dx * dx + dz * dz) in
  let moveX := (dx / distance) * moveSpeed r in
  let moveZ := (dz / distance) * moveSpeed r in
  (vx (position r) + moveX, vz (position r) + moveZ).

Definition distanceToTarget (r : Robot) : Q :=
  let dx := vx (targetPosition r) - vx (position r) in
  let dz := vz (targetPosition r) - vz (position r) in
  js_sqrt (dx * dx + dz * dz).

(** The second [if] of [updateRobotMovement]: "move towards target". *)
Definition moveTowardsTarget (obs : list Obstacle) (r : Robot) (cur : nat)
    : Robot * nat :=
  if isMoving r then
    let dx := vx (targetPosition r) - vx (position r) in
    let dz := vz (targetPosition r) - vz (position r) in
    if Qltb 1 (distanceToTarget r) then
      let '(nextX, nextZ) := nextPosition r in
      if negb (checkCollision obs nextX nextZ defaultRobotRadius) then
        let prevX := vx (position r) in
        let prevZ := vz (position r) in
        let actualMoveX := nextX - prevX in
        let actualMoveZ := nextZ - prevZ in
        let actualDistance :=
          js_sqrt (actualMoveX * actualMoveX + actualMoveZ * actualMoveZ) in
        let wheelRotation := actualDistance / wheelRadius in
        let targetRotation := js_atan2 dx dz in
        (set_rotation_y (lerp (rotation_y r) targetRotation 0.1)
           (set_wheels (map (fun wheel => wheel + wheelRotation) (wheels r))
              (set_position (mkVec3 nextX (vy (position r)) nextZ) r)),
         cur)
      else
        let '((x, z), cur') :=
          findValidPosition obs (vx (position r)) (vz (position r))
            defaultMaxAttempts cur in
        (set_targetPosition (mkVec3 x 0 z) r, cur')
    else (stopRobotWalkingAnimation (set_isMoving false r), cur)
  else (r, cur).

(** The fresh target a retarget draws at call count [cur]. *)
Definition freshTarget (obs : list Obstacle) (r : Robot) (cur : nat) : Vec3 :=
  let p :=
    fst (findValidPosition obs (vx (position r)) (vz (position r))
           defaultMaxAttempts cur) in
  mkVec3 (fst p) 0 (snd p).

(** One call of [updateRobotMovement] on the robot alone. *)
Definition updateRobot (obs : list Obstacle) (now : Z) (r : Robot) (cur : nat)
    : Robot * nat :=
  let '(r1, cur1) := retarget obs now r cur in
  moveTowardsTarget obs r1 cur1.

(** [updateRobotMovement()], with its guard. *)
Definition updateRobotMovement (now : Z) (w : World) : World :=
  match objects_robot w with
  | None => w
  | Some r =>
      if robotInteractionMode w then w
      else
        let '(r', cur') := updateRobot (obstacles w) now r (randomCalls w) in
        set_randomCalls cur' (set_objects_robot (Some r') w)
  end.

(** ** GSAP and timers *)

(** [gsap.to(target, { x, y, z, duration, onComplete })]. *)
Definition gsapTo (target : TweenTarget) (dest : Vec3) (duration : Q)
    (onComplete : Callback) (w : World) : World :=
  set_tweens (tweens w ++ [mkTween target dest duration onComplete]) w.

(** [setTimeout(callback, delay)]. *)
Definition setTimeout (callback : TimerCallback) (delay : Z) (w : World)
    : World :=
  set_timers (timers w ++ [mkTimer delay callback]) w.

Fixpoint removeNth {A : Type} (n : nat) (l : list A) : list A :=
  match l, n with
  | [], _ => []
  | _ :: t, O => t
  | h :: t, S m => h :: removeNth m t
  end.

Fixpoint replaceNth {A : Type} (n : nat) (v : A) (l : list A) : list A :=
  match l, n with
  | [], _ => []
  | _ :: t, O => v :: t
  | h :: t, S m => h :: replaceNth m v t
  end.

(** ** Hologram panels *)

(** The guard [screenIndex >= 0 && screenIndex < length]. *)
Definition screenInRange (screenIndex : Z) (len : nat) : bool :=
  (0 <=? screenIndex)%Z && (screenIndex <? Z.of_nat len)%Z.

Definition setHologramContent (screenIndex : Z) (shown : bool) (w : World)
    : World :=
  if screenInRange screenIndex (length (hologramContent w)) then
    set_hologramContent
      (replaceNth (Z.to_nat screenIndex) shown (hologramContent w)) w
  else w.

Definition showHologramContent (screenIndex : Z) : World -> World :=
  setHologramContent screenIndex true.

Definition hideHologramContent (screenIndex : Z) : World -> World :=
  setHologramContent screenIndex false.

(** The loop of [hideAllHologramContent] hides every panel. *)
Definition hideAllHologramContent (w : World) : World :=
  set_hologramContent (map (fun _ => false) (hologramContent w)) w.

Definition screenPositions : list Vec3 :=
  [ mkVec3 (-25) 10 0; mkVec3 0 10 (-30); mkVec3 25 10 0; mkVec3 0 10 25 ].

Definition screenSections : list SectionName :=
  [ about; projects; skills; contact ].

Definition frontDistance : Q := 12.

(** [getFrontCameraPosition(screenIndex, screenPosition)]. *)
Definition getFrontCameraPosition (screenIndex : Z) (p : Vec3) : Vec3 :=
  let frontPositions :=
    [ mkVec3 (vx p + frontDistance) (vy p) (vz p)
    ; mkVec3 (vx p) (vy p) (vz p + frontDistance)
    ; mkVec3 (vx p - frontDistance) (vy p) (vz p)
    ; mkVec3 (vx p) (vy p) (vz p - frontDistance) ] in
  nth (Z.to_nat screenIndex) frontPositions (mkVec3 0 10 15).

(** [Vector3.distanceTo]. *)
Definition distanceTo (a b : Vec3) : Q :=
  let dx := vx a - vx b in
  let dy := vy a - vy b in
  let dz := vz a - vz b in
  js_sqrt (dx * dx + dy * dy + dz * dz).

(** [isCameraTargetOnHologram(screenIndex)]: within 8 units. *)
Definition isCameraTargetOnHologram (screenIndex : Z) (w : World) : bool :=
  if screenInRange screenIndex (length screenPositions) then
    let screenPos :=
      nth (Z.to_nat screenIndex) screenPositions (mkVec3 0 0 0) in
    Qle_bool (distanceTo screenPos (controls_target w)) 8
  else false.

(** [deactivateHologram()]. *)
Definition deactivateHologram (w : World) : World :=
  let w1 :=
    if (0 <=? activeHologramIndex w)%Z
    then hideHologramContent (activeHologramIndex w) w else w in
  set_activeHologramIndex (-1)%Z (set_isHologramActive false w1).

(** ** Phone mode *)

(** [this.objects.phone.position], set once by [createPhone]. *)
Definition phonePosition : Vec3 := mkVec3 (-4.2) 2.95 1.8.

(** [enterPhoneMode(camera, controls)]. *)
Definition enterPhoneMode (w : World) : World :=
  let w1 := set_phoneInteractionMode true w in
  let w2 :=
    set_originalCameraTarget (Some (controls_target w1))
      (set_originalCameraPosition (Some (camera_position w1)) w1) in
  let hologramPosition :=
    mkVec3 (vx phonePosition) (vy phonePosition + 1.0) (vz phonePosition) in
  let targetPosition :=
    mkVec3 (vx phonePosition - 1.8) (vy hologramPosition + 0.3)
      (vz phonePosition + 1.5) in
  gsapTo ControlsTarget hologramPosition 1.5 CbShowPhoneHologram
    (gsapTo CameraPosition targetPosition 1.5 CbNone w2).

(** [exitPhoneMode(camera, controls)].  Reading [.x] of a [null] saved pose
    throws; the handler then ends without a result. *)
Definition exitPhoneMode (w : World) : option World :=
  let w1 := set_phoneInteractionMode false w in
  let w2 :=
    match phoneHologram w1 with
    | Some _ => set_phoneHologram (Some false) w1
    | None => w1
    end in
  match originalCameraPosition w2, originalCameraTarget w2 with
  | Some p, Some t =>
      Some (gsapTo ControlsTarget t 1.5 CbNone
              (gsapTo CameraPosition p 1.5 CbNone w2))
  | _, _ => None
  end.

(** [handlePhoneClick(camera, controls)]. *)
Definition handlePhoneClick (w : World) : option World :=
  if phoneInteractionMode w then exitPhoneMode w
  else Some (enterPhoneMode w).

(** [autoClosePhoneHologram()]. *)
Definition autoClosePhoneHologram (w : World) : option World :=
  if phoneInteractionMode w
     && match phoneHologram w with Some visible => visible | None => false end
  then exitPhoneMode w
  else Some w.

(** ** Robot help mode *)

(** [activateRobotHelpMode(camera, controls)]. *)
Definition activateRobotHelpMode (now : Z) (w : World) : World :=
  match objects_robot w with
  | None => w
  | Some r =>
      if robotInteractionMode w then w
      else
        let w1 :=
          set_robotHelpModeStartTime (Some now)
            (set_robotInteractionMode true w) in
        let w2 :=
          set_originalCameraTarget (Some (controls_target w1))
            (set_originalCameraPosition (Some (camera_position w1)) w1) in
        let r' :=
          set_noButton_visible true
            (set_yesButton_visible true
               (stopRobotWalkingAnimation (set_isMoving false r))) in
        let w3 := set_objects_robot (Some r') w2 in
        let robotPos := position r' in
        let targetPos :=
          mkVec3 (vx robotPos) (vy robotPos + 5) (vz robotPos) in
        let cameraPos :=
          mkVec3 (vx robotPos + 8) (vy robotPos + 5) (vz robotPos + 8) in
        gsapTo ControlsTarget targetPos 2 CbNone
          (gsapTo CameraPosition cameraPos 2 CbNone w3)
  end.

(** [deactivateRobotHelpMode(camera, controls)].  With the mode set and no
    robot, reading [this.objects.robot.userData] throws. *)
Definition deactivateRobotHelpMode (w : World) : option World :=
  if negb (robotInteractionMode w) then Some w
  else
    let w1 :=
      set_robotHelpModeStartTime None (set_robotInteractionMode false w) in
    match objects_robot w1 with
    | None => None
    | Some r =>
        let r1 := set_noButton_visible false (set_yesButton_visible false r) in
        let w2 := set_objects_robot (Some r1) w1 in
        let w3 :=
          match originalCameraPosition w2, originalCameraTarget w2 with
          | Some p, Some t =>
              gsapTo ControlsTarget t 2 CbNone
                (gsapTo CameraPosition p 2 CbNone w2)
          | _, _ => w2
          end in
        let r2 := set_isMoving false (set_lastDirectionChange 0%Z r1) in
        Some (setTimeout TmForceDirectionChange 100
                (set_objects_robot (Some r2) w3))
    end.

Definition gracePeriod : Z := 3000.
Definition maxCameraDistance : Q := 25.
Definition maxTargetDistance : Q := 20.

(** [shouldAutoCloseRobotHelp()]; [robotHelpModeStartTime || 0] reads a
    missing start time as [0]. *)
Definition shouldAutoCloseRobotHelp (now : Z) (w : World) : bool :=
  match objects_robot w with
  | None => false
  | Some robot =>
      if negb (robotInteractionMode w) then false
      else
        let start :=
          match robotHelpModeStartTime w with Some t => t | None => 0%Z end in
        let timeSinceActivation := (now - start)%Z in
        if (timeSinceActivation <? gracePeriod)%Z then false
        else
          let distanceToRobot :=
            distanceTo (camera_position w) (position robot) in
          let targetToRobotDistance :=
            distanceTo (controls_target w) (position robot) in
          if Qltb maxCameraDistance distanceToRobot
             || Qltb maxTargetDistance targetToRobotDistance
          then true else false
  end.

(** ** Hologram focus and the return to the default view *)

(** [focusOnHologramScreen(screenIndex)]. *)
Definition focusOnHologramScreen (screenIndex : Z) (w : World)
    : option World :=
  w1 <- autoClosePhoneHologram w ;;
  w2 <- (if robotInteractionMode w1 then deactivateRobotHelpMode w1
         else Some w1) ;;
  if screenInRange screenIndex (length screenPositions) then
    let targetPosition :=
      nth (Z.to_nat screenIndex) screenPositions (mkVec3 0 0 0) in
    let sectionName := nth (Z.to_nat screenIndex) screenSections home in
    let w3 := set_currentSection sectionName w2 in
    let w4 :=
      if negb (activeHologramIndex w3 =? -1)%Z
         && negb (activeHologramIndex w3 =? screenIndex)%Z
      then hideHologramContent (activeHologramIndex w3) w3 else w3 in
    let w5 :=
      set_controls_autoRotate false
        (set_isHologramActive false
           (set_activeHologramIndex screenIndex w4)) in
    let frontCameraPosition :=
      getFrontCameraPosition screenIndex targetPosition in
    Some (gsapTo ControlsTarget targetPosition 2
            (CbActivateTracking screenIndex)
            (gsapTo CameraPosition frontCameraPosition 2 CbNone w5))
  else Some w2.

Definition defaultCameraPosition : Vec3 := mkVec3 0 8 12.
Definition defaultCameraTarget : Vec3 := mkVec3 0 5 (-1.5).

(** [returnToDefaultView()]. *)
Definition returnToDefaultView (w : World) : option World :=
  w1 <- autoClosePhoneHologram w ;;
  w2 <- (if robotInteractionMode w1 then deactivateRobotHelpMode w1
         else Some w1) ;;
  let w3 := set_currentSection home w2 in
  let w4 := hideAllHologramContent w3 in
  let w5 := deactivateHologram w4 in
  let w6 := set_controls_autoRotate false w5 in
  Some (gsapTo ControlsTarget defaultCameraTarget 2 CbReturnedToDefault
          (gsapTo CameraPosition defaultCameraPosition 2 CbNone w6)).

(** [navigateToSection(section)].  [NavigationManager.navigateTo] has a
    viewpoint only for the five sections handled before it is reached, so
    for any other section it returns at once. *)
Definition sectionToScreen (section : SectionName) : option Z :=
  match section with
  | about => Some 0%Z
  | projects => Some 1%Z
  | skills => Some 2%Z
  | contact => Some 3%Z
  | _ => None
  end.

Definition SectionName_eqb (a b : SectionName) : bool :=
  match a, b with
  | home, home | about, about | projects, projects | skills, skills
  | contact, contact => true
  | otherSection a, otherSection b => String.eqb a b
  | _, _ => false
  end.

Definition navigateToSection (section : SectionName) (w : World)
    : option World :=
  if SectionName_eqb (currentSection w) section || negb (isLoaded w)
  then Some w
  else
    let w1 := set_currentSection section w in
    match section with
    | home => returnToDefaultView w1
    | _ =>
        match sectionToScreen section with
        | Some screenIndex => focusOnHologramScreen screenIndex w1
        | None =>
            Some (setTimeout (TmNavigated section) 3000
                    (set_controls_autoRotate false w1))
        end
    end.

(** ** Click dispatch ([onHologramClick]) *)

Inductive ButtonType : Type := yes | no | otherButton.

Inductive PhoneHologramButton : Type := closeButton | linkButton.

(** What the ray casts of one click return; the picking itself is done by
    [THREE.Raycaster].  A hit on the help text counts as "yes" or "no" by
    the side of the screen it is on; both answers leave the help mode, and
    the tutorial dialogue that "yes" opens belongs to the presentation
    layer. *)
Record ClickInput : Type := mkClick
  { dragDistance : Q;              (* from the mouse-down position *)
    hit_robotParts : option ButtonType;
                                   (* first hit among the robot's tagged
                                      children, button type found upwards *)
    hit_helpText : bool;
    hit_yesButton : bool;
    hit_noButton : bool;
    hit_robot : bool;
    hit_phone : bool;
    hit_phoneHologram : option PhoneHologramButton;
                                   (* first clickable hit of the overlay *)
    hit_backButtons : list bool;   (* per panel *)
    hit_detailsButton : bool;
    hit_hologramScreen : option Z  (* [findScreenIndex] of the first hit *) }.

Definition dragThreshold : Q := 5.

(** The part of the handler run while the robot is in help mode: [Some r]
    when one of the three button checks returned from the handler. *)
Definition robotButtonClick (c : ClickInput) (w : World)
    : option (option World) :=
  match objects_robot w with
  | None => None
  | Some r =>
      match hit_robotParts c with
      | Some yes => Some (deactivateRobotHelpMode w)
      | Some no => Some (deactivateRobotHelpMode w)
      | _ =>
          if hit_helpText c then Some (deactivateRobotHelpMode w)
          else if yesButton_visible r && hit_yesButton c
          then Some (deactivateRobotHelpMode w)
          else if noButton_visible r && hit_noButton c
          then Some (deactivateRobotHelpMode w)
          else None
      end
  end.

(** The checks after the robot: phone, phone overlay, back buttons, details
    buttons, hologram panels, in this order. *)
Definition sceneClick (c : ClickInput) (w : World) : option World :=
  if hit_phone c then handlePhoneClick w
  else
    match
      (if match phoneHologram w with Some v => v | None => false end
       then hit_phoneHologram c else None)
    with
    | Some closeButton => exitPhoneMode w
    | Some linkButton => Some w
    | None =>
        if existsb (fun p => fst p && snd p)
             (combine (hologramContent w) (hit_backButtons c))
        then returnToDefaultView w
        else if hit_detailsButton c then Some w
        else
          match hit_hologramScreen c with
          | Some screenIndex =>
              if negb (screenIndex =? -1)%Z
              then focusOnHologramScreen screenIndex w
              else Some w
          | None => Some w
          end
    end.

(** [onHologramClick(event)]. *)
Definition onHologramClick (now : Z) (c : ClickInput) (w : World)
    : option World :=
  if negb (isLoaded w) then Some w
  else if Qltb dragThreshold (dragDistance c) then Some w
  else
    match
      (if robotInteractionMode w then robotButtonClick c w else None)
    with
    | Some result => result
    | None =>
        if negb (robotInteractionMode w)
           && match objects_robot w with
              | Some _ => hit_robot c
              | None => false
              end
        then
          w1 <- autoClosePhoneHologram w ;;
          Some (activateRobotHelpMode now w1)
        else sceneClick c w
    end.

(** ** Completion of tweens, timers, frames *)

Definition runCallback (cb : Callback) (w : World) : World :=
  match cb with
  | CbNone => w
  | CbActivateTracking screenIndex =>
      setTimeout TmEnableAutoRotate 1000
        (showHologramContent screenIndex (set_isHologramActive true w))
  | CbReturnedToDefault => set_controls_autoRotate true w
  | CbShowPhoneHologram => set_phoneHologram (Some true) w
  end.

(** The [k]-th pending tween reaches its end value and runs its callback. *)
Definition completeTween (k : nat) (w : World) : World :=
  match nth_error (tweens w) k with
  | None => w
  | Some t =>
      let w1 := set_tweens (removeNth k (tweens w)) w in
      let w2 :=
        match tw_target t with
        | CameraPosition => set_camera_position (tw_to t) w1
        | ControlsTarget => set_controls_target (tw_to t) w1
        end in
      runCallback (tw_onComplete t) w2
  end.

(** All pending tweens end, oldest first. *)
Fixpoint completeTweens (n : nat) (w : World) : World :=
  match n with
  | O => w
  | S m => completeTweens m (completeTween 0 w)
  end.

Definition settle (w : World) : World := completeTweens (length (tweens w)) w.

Definition runTimer (now : Z) (cb : TimerCallback) (w : World) : World :=
  match cb with
  | TmEnableAutoRotate => set_controls_autoRotate true w
  | TmForceDirectionChange =>
      if negb (robotInteractionMode w) then
        match objects_robot w with
        | Some r =>
            set_objects_robot
              (Some (set_lastDirectionChange (now - 4000)%Z r)) w
        | None => w
        end
      else w
  | TmNavigated section =>
      match section with
      | home => set_controls_autoRotate true w
      | _ => w
      end
  end.

Definition fireTimer (now : Z) (k : nat) (w : World) : World :=
  match nth_error (timers w) k with
  | None => w
  | Some t =>
      runTimer now (tm_callback t) (set_timers (removeNth k (timers w)) w)
  end.

(** The auto-close check of [animate()]. *)
Definition autoCloseRobotHelp (now : Z) (w : World) : option World :=
  if robotInteractionMode w then
    if shouldAutoCloseRobotHelp now w then deactivateRobotHelpMode w
    else Some w
  else Some w.

(** The tracking check of [animate()]. *)
Definition trackActiveHologram (w : World) : World :=
  if isHologramActive w && (0 <=? activeHologramIndex w)%Z then
    if isCameraTargetOnHologram (activeHologramIndex w) w then w
    else deactivateHologram w
  else w.

(** [animate()]: one rendered frame. *)
Definition animate (now : Z) (w : World) : option World :=
  let w1 := updateRobotMovement now w in
  w2 <- autoCloseRobotHelp now w1 ;;
  Some (trackActiveHologram w2).

(** ** Events *)

(** The camera is where the user's orbiting or a tween in flight put it. *)
Definition moveCamera (pos target : Vec3) (w : World) : World :=
  set_controls_target target (set_camera_position pos w).

Inductive Event : Type :=
| Click (c : ClickInput)          (* canvas click *)
| NavButton (section : SectionName)
| KeyEscape
| Frame                           (* requestAnimationFrame *)
| CameraMoved (pos target : Vec3) (* OrbitControls or a tween in flight *)
| TweenComplete (k : nat)
| TimerFire (k : nat).

Definition step (now : Z) (e : Event) (w : World) : option World :=
  match e with
  | Click c => onHologramClick now c w
  | NavButton section => navigateToSection section w
  | KeyEscape =>
      if isHologramActive w then Some (deactivateHologram w) else Some w
  | Frame => animate now w
  | CameraMoved pos target => Some (moveCamera pos target w)
  | TweenComplete k => Some (completeTween k w)
  | TimerFire k => Some (fireTimer now k w)
  end.

Fixpoint run (events : list (Z * Event)) (w : World) : option World :=
  match events with
  | [] => Some w
  | (now, e) :: rest => w' <- step now e w ;; run rest w'
  end.

(** ** Focus modes *)

Definition hologramFocus (w : World) : bool := (0 <=? activeHologramIndex w)%Z.
Definition agentHelp (w : World) : bool := robotInteractionMode w.
Definition deviceFocus (w : World) : bool := phoneInteractionMode w.

Definition activeModes (w : World) : nat :=
  (if hologramFocus w then 1 else 0) + (if agentHelp w then 1 else 0)
  + (if deviceFocus w then 1 else 0).

(** ** The scene after loading *)

(** [createRobot]: the start position is drawn near [(-25, 20)]. *)
Definition createRobot (obs : list Obstacle) (cur : nat) : Robot * nat :=
  let '((x, z), cur') :=
    findValidPosition obs (-25) 20 defaultMaxAttempts cur in
  (mkRobot (mkVec3 x 0 z) 0 [0; 0; 0] false false false false
     (mkVec3 x 0 z) 0.03 0%Z,
   cur').

Definition loadedWorld : World :=
  let '(r, cur) := createRobot constructorObstacles 0 in
  mkWorld true defaultCameraPosition defaultCameraTarget true home (-1)%Z false
    constructorObstacles (Some r) false None None None false None
    [false; false; false; false] cur [] [].

(** The worlds the loaded scene can get into. *)
Definition reachable (w : World) : Prop :=
  exists events, run events loadedWorld = Some w.

End Runtime.

(** ** A concrete runtime, for the examples *)

(** A square root that is exact on the squares of rationals. *)
Definition sampleSqrt (q : Q) : Q :=
  Z.sqrt (Qnum q * Zpos (Qden q)) # Qden q.

Definition sampleAtan2 (_ _ : Q) : Q := 0.

(** [Math.random()] returning [0.5] every time: every candidate is the
    centre of the room, which the desk covers. *)
Definition centreRandom (_ : nat) : Q := 0.5.

(** [Math.random()] returning [0.9] and [0.2] in turn: every candidate is
    [(24, -18)], which is free. *)
Definition cornerRandom (n : nat) : Q := if Nat.even n then 0.9 else 0.2.

(** An obstacle that covers the whole sampling range. *)
Definition wallToWall : list Obstacle := [ mkObstacle 0 0 100 100 ].

(** A robot walking towards a free target, one about to run into the
    desk, and one at rest. *)
Definition walkingRobot : Robot :=
  mkRobot (mkVec3 20 0 10) 0 [0; 0; 0] true false false true
    (mkVec3 23 0 14) 0.03 9000%Z.

Definition blockedRobot : Robot :=
  mkRobot (mkVec3 (-9) 0 0) 0 [0; 0; 0] true false false true
    (mkVec3 21 0 0) 0.03 9000%Z.

Definition idleRobot : Robot :=
  mkRobot (mkVec3 20 0 10) 0 [0; 0; 0] false false false false
    (mkVec3 20 0 10) 0.03 9000%Z.

(** The loaded scene with a given robot and camera pose. *)
Definition sceneWith (r : Robot) (pos target : Vec3) : World :=
  mkWorld true pos target true home (-1)%Z false constructorObstacles
    (Some r) false None None None false None [false; false; false; false]
    0 [] [].

(** Worlds for the examples: at rest with the camera off its home pose, in
    help mode, and after a click on the first panel. *)
Definition orElse (o : option World) (w : World) : World :=
  match o with Some w' => w' | None => w end.

Definition restWorld : World :=
  sceneWith idleRobot (mkVec3 5 5 5) (mkVec3 0 0 0).

Definition helpWorld : World := activateRobotHelpMode 1000 restWorld.

Definition farAway : Vec3 := mkVec3 100 0 0.

(** One frame at time [now] under the concrete runtime. *)
Definition frameAt (now : Z) (w : World) : World :=
  orElse (step cornerRandom sampleSqrt sampleAtan2 now Frame w) w.

Definition robotOf (w : World) : Robot :=
  match objects_robot w with Some r => r | None => idleRobot end.

(** ** Relations between the worlds before and after a handler *)

(** The handler did not move the robot, did not change its target, did not
    set it moving, and left its retarget clock alone or reset it to [0]. *)
Definition robotUndisturbed (w w' : World) : Prop :=
  match objects_robot w, objects_robot w' with
  | Some r, Some r' =>
      position r' = position r
      /\ targetPosition r' = targetPosition r
      /\ (isMoving r' = true -> isMoving r = true)
      /\ (lastDirectionChange r' = lastDirectionChange r
          \/ lastDirectionChange r' = 0%Z)
  | None, None => True
  | _, _ => False
  end.

(** The handler did not switch camera tracking on. *)
Definition trackingNotStarted (w w' : World) : Prop :=
  isHologramActive w' = true -> isHologramActive w = true.

(** Every pending tween that would switch tracking on is the orbit-target
    tween of a hologram focus: two seconds, ending at the panel. *)
Definition isEntryTween (t : Tween) : Prop :=
  forall screenIndex,
    tw_onComplete t = CbActivateTracking screenIndex ->
    tw_target t = ControlsTarget /\ tw_duration t == 2
    /\ screenInRange screenIndex (length screenPositions) = true
    /\ tw_to t = nth (Z.to_nat screenIndex) screenPositions (mkVec3 0 0 0).

Definition entryTweensKept (w w' : World) : Prop :=
  Forall isEntryTween (tweens w) -> Forall isEntryTween (tweens w').

(** The phone mode is on, its overlay is shown, or the tween that will show
    it is pending. *)
Definition showsPhone (t : Tween) : Prop :=
  tw_onComplete t = CbShowPhoneHologram.

Definition phoneUsed (w : World) : Prop :=
  phoneInteractionMode w = true
  \/ phoneHologram w = Some true
  \/ Exists showsPhone (tweens w).

(** A camera pose is held in the two fields. *)
Definition savedPose (w : World) : Prop :=
  exists p t,
    originalCameraPosition w = Some p /\ originalCameraTarget w = Some t.

(** The handler did not drop a saved pose, and did not bring the phone into
    use without a saved pose. *)
Definition poseKept (w w' : World) : Prop :=
  (savedPose w -> savedPose w')
  /\ (phoneUsed w' -> phoneUsed w \/ savedPose w').

Definition calm (w w' : World) : Prop :=
  robotUndisturbed w w'
  /\ trackingNotStarted w w'
  /\ entryTweensKept w w'
  /\ obstacles w' = obstacles w
  /\ poseKept w w'.

(** The robot stands where [checkCollision] reports no collision. *)
Definition robotFree (w : World) : Prop :=
  forall r,
    objects_robot w = Some r ->
    checkCollision (obstacles w) (vx (position r)) (vz (position r))
      defaultRobotRadius = false.

(** What every handler relies on: the robot exists, and a pose is saved
    whenever the phone is in use. *)
Definition sound (w : World) : Prop :=
  (exists r, objects_robot w = Some r) /\ (phoneUsed w -> savedPose w).

(** ** The focus modes of the specification *)








(** ** Clicks for the examples *)

Definition clickOn (robot phone : bool) (screen : option Z) : ClickInput :=
  mkClick 0 None false false false robot phone None [] false screen.

Definition clickRobot : ClickInput := clickOn true false None.
Definition clickPhone : ClickInput := clickOn false true None.
Definition clickScreen (screenIndex : Z) : ClickInput :=
  clickOn false false (Some screenIndex).



(** * The other classes of the application *)

(** ** Frame-rate monitoring ([PerformanceManager]) *)

(** [Math.min] and [Math.round] on finite numbers; [Math.round] rounds a
    half upwards. *)
Definition Math_min (a b : Q) : Q := if Qle_bool a b then a else b.

Definition Math_round (q : Q) : Z := Qfloor (q + (1 # 2)).

(** [s.includes(part)]. *)
Definition includes (s part : String.string) : bool :=
  match String.index 0 part s with Some _ => true | None => false end.

(** The string constants of the code. *)
Module DeviceText.
Import String.
Local Open Scope string_scope.

Definition Intel : string := "Intel".
Definition integrated : string := "integrated".

End DeviceText.

Module PerformanceManager.

Record Settings : Type := mkSettings
  { pixelRatio : Q;
    shadows : bool;
    particles : bool;
    neonEffects : bool;
    decorations : bool;
    autoRotate : bool }.

(** What [detectDeviceCapabilities] reads from the browser: the outcome of
    the user-agent test, [navigator.hardwareConcurrency] and
    [navigator.deviceMemory] ([None] where the browser does not define
    them), and the unmasked renderer name ([None] without WebGL or without
    the debug extension). *)
Record Device : Type := mkDevice
  { isMobile : bool;
    hardwareConcurrency : option Q;
    unmaskedRenderer : option String.string;
    deviceMemory : option Q }.

(** The manager.  [maxHistoryLength] and [adjustmentCooldown] are set by
    the constructor and never written again.  [onPerformanceChange] tells
    whether the callback is installed, and [applied] lists the settings it
    was called with, latest first. *)
Record Manager : Type := mkManager
  { fps : Z;
    frameCount : Z;
    lastTime : Q;
    fpsHistory : list Z;
    settings : Settings;
    onPerformanceChange : bool;
    applied : list Settings;
    lastAdjustmentTime : Q;
    hasReachedMaxQuality : bool }.

Definition maxHistoryLength : nat := 60.
Definition adjustmentCooldown : Q := 5000.

Definition set_settings (v : Settings) (m : Manager) : Manager :=
  mkManager (fps m) (frameCount m) (lastTime m) (fpsHistory m) v
    (onPerformanceChange m) (applied m) (lastAdjustmentTime m)
    (hasReachedMaxQuality m).

Definition set_onPerformanceChange (v : bool) (m : Manager) : Manager :=
  mkManager (fps m) (frameCount m) (lastTime m) (fpsHistory m) (settings m)
    v (applied m) (lastAdjustmentTime m) (hasReachedMaxQuality m).

Definition set_applied (v : list Settings) (m : Manager) : Manager :=
  mkManager (fps m) (frameCount m) (lastTime m) (fpsHistory m) (settings m)
    (onPerformanceChange m) v (lastAdjustmentTime m)
    (hasReachedMaxQuality m).

Definition set_lastAdjustmentTime (v : Q) (m : Manager) : Manager :=
  mkManager (fps m) (frameCount m) (lastTime m) (fpsHistory m) (settings m)
    (onPerformanceChange m) (applied m) v (hasReachedMaxQuality m).

Definition set_hasReachedMaxQuality (v : bool) (m : Manager) : Manager :=
  mkManager (fps m) (frameCount m) (lastTime m) (fpsHistory m) (settings m)
    (onPerformanceChange m) (applied m) (lastAdjustmentTime m) v.

Definition set_pixelRatio (v : Q) (s : Settings) : Settings :=
  mkSettings v (shadows s) (particles s) (neonEffects s) (decorations s)
    (autoRotate s).

Definition set_shadows (v : bool) (s : Settings) : Settings :=
  mkSettings (pixelRatio s) v (particles s) (neonEffects s) (decorations s)
    (autoRotate s).

Definition set_particles (v : bool) (s : Settings) : Settings :=
  mkSettings (pixelRatio s) (shadows s) v (neonEffects s) (decorations s)
    (autoRotate s).

Definition set_decorations (v : bool) (s : Settings) : Settings :=
  mkSettings (pixelRatio s) (shadows s) (particles s) (neonEffects s) v
    (autoRotate s).

(** [applySettings()]. *)
Definition applySettings (m : Manager) : Manager :=
  if onPerformanceChange m then set_applied (settings m :: applied m) m
  else m.

(** [detectDeviceCapabilities()]. *)
Definition detectDeviceCapabilities (device : Device) (m : Manager)
    : Manager :=
  let isLowEnd :=
    match hardwareConcurrency device with
    | Some n => Qle_bool n 4
    | None => false
    end in
  let s0 := settings m in
  let s1 :=
    if isMobile device || isLowEnd then
      set_shadows false
        (set_decorations false (set_particles false (set_pixelRatio 1 s0)))
    else s0 in
  let s2 :=
    match unmaskedRenderer device with
    | Some renderer =>
        if includes renderer DeviceText.Intel
           || includes renderer DeviceText.integrated
        then set_shadows false (set_particles false s1)
        else s1
    | None => s1
    end in
  let s3 :=
    match deviceMemory device with
    | Some memory =>
        if negb (Qeq_bool memory 0) && Qltb memory 4
        then set_decorations false (set_particles false s2)
        else s2
    | None => s2
    end in
  applySettings (set_settings s3 m).

(** [new PerformanceManager()] at time [now], on a screen of the given
    pixel ratio. *)
Definition constructor (now devicePixelRatio : Q) (device : Device)
    : Manager :=
  detectDeviceCapabilities device
    (mkManager 60 0 now []
       (mkSettings (Math_min devicePixelRatio 2) true true true true true)
       false [] 0 false).

(** [update()], called once per rendered frame. *)
Definition update (now : Q) (m : Manager) : Manager :=
  let deltaTime := now - lastTime m in
  let frames := (frameCount m + 1)%Z in
  if Qle_bool 1000 deltaTime then
    let fps' := Math_round (inject_Z frames * 1000 / deltaTime) in
    let pushed := fpsHistory m ++ [fps'] in
    let history :=
      if (maxHistoryLength <? length pushed)%nat then tl pushed
      else pushed in
    mkManager fps' 0 now history (settings m) (onPerformanceChange m)
      (applied m) (lastAdjustmentTime m) (hasReachedMaxQuality m)
  else
    mkManager (fps m) frames (lastTime m) (fpsHistory m) (settings m)
      (onPerformanceChange m) (applied m) (lastAdjustmentTime m)
      (hasReachedMaxQuality m).

Definition canReduceQuality (s : Settings) : bool :=
  particles s || decorations s || shadows s || Qltb 1 (pixelRatio s).

Definition canIncreaseQuality (devicePixelRatio : Q) (s : Settings) : bool :=
  Qltb (pixelRatio s) (Math_min devicePixelRatio 2)
  || negb (shadows s) || negb (particles s) || negb (decorations s).

(** [reduceQuality()]. *)
Definition reduceQuality (m : Manager) : Manager :=
  let s := settings m in
  if decorations s
  then applySettings (set_settings (set_decorations false s) m)
  else if particles s
  then applySettings (set_settings (set_particles false s) m)
  else if shadows s then applySettings (set_settings (set_shadows false s) m)
  else if Qltb 1 (pixelRatio s)
  then applySettings (set_settings (set_pixelRatio 1 s) m)
  else m.

(** [increaseQuality()]. *)
Definition increaseQuality (devicePixelRatio : Q) (m : Manager) : Manager :=
  let s := settings m in
  let limit := Math_min devicePixelRatio 2 in
  if Qltb (pixelRatio s) limit then
    applySettings
      (set_settings
         (set_pixelRatio (Math_min (pixelRatio s + 0.25) limit) s) m)
  else if negb (shadows s)
  then applySettings (set_settings (set_shadows true s) m)
  else if negb (particles s)
  then applySettings (set_settings (set_particles true s) m)
  else if negb (decorations s)
  then applySettings (set_settings (set_decorations true s) m)
  else set_hasReachedMaxQuality true m.

(** [fpsHistory.reduce((a, b) => a + b, 0) / fpsHistory.length]; only
    evaluated on a history that is not empty. *)
Definition averageOf (history : list Z) : Q :=
  inject_Z (fold_left Z.add history 0%Z)
  / inject_Z (Z.of_nat (length history)).

(** [checkPerformance()], called once per second. *)
Definition checkPerformance (now devicePixelRatio : Q) (m : Manager)
    : Manager :=
  if (length (fpsHistory m) <? 30)%nat then m
  else if Qltb (now - lastAdjustmentTime m) adjustmentCooldown then m
  else
    let averageFps := averageOf (fpsHistory m) in
    if Qltb averageFps 30 && canReduceQuality (settings m) then
      set_hasReachedMaxQuality false
        (set_lastAdjustmentTime now (reduceQuality m))
    else if Qltb 55 averageFps
            && canIncreaseQuality devicePixelRatio (settings m)
            && negb (hasReachedMaxQuality m)
    then set_lastAdjustmentTime now (increaseQuality devicePixelRatio m)
    else m.

(** [getAverageFPS()] and [getPerformanceLevel()]. *)
Definition getAverageFPS (m : Manager) : Q :=
  match fpsHistory m with
  | [] => 60
  | _ => averageOf (fpsHistory m)
  end.

Inductive Level : Type := high | medium | low.

Definition getPerformanceLevel (m : Manager) : Level :=
  let avgFps := getAverageFPS m in
  if Qle_bool 50 avgFps then high
  else if Qle_bool 30 avgFps then medium
  else low.

(** What happens to a manager: a frame is rendered, the one-second interval
    fires, or [Portfolio3D.setupEventListeners] installs the callback. *)
Inductive Call : Type :=
| Update (now : Q)
| CheckPerformance (now devicePixelRatio : Q)
| InstallCallback.

Definition call (c : Call) (m : Manager) : Manager :=
  match c with
  | Update now => update now m
  | CheckPerformance now devicePixelRatio =>
      checkPerformance now devicePixelRatio m
  | InstallCallback => set_onPerformanceChange true m
  end.

Definition run (calls : list Call) (m : Manager) : Manager :=
  fold_left (fun m c => call c m) calls m.

(** The quality items that are switched on, the pixel ratio above [1]
    counting as one. *)
Definition qualityItems (s : Settings) : nat :=
  (if decorations s then 1 else 0) + (if particles s then 1 else 0)
  + (if shadows s then 1 else 0) + (if Qltb 1 (pixelRatio s) then 1 else 0).

(** [s] asks for no more than [s']. *)
Definition noBetterThan (s s' : Settings) : Prop :=
  pixelRatio s <= pixelRatio s'
  /\ (shadows s = true -> shadows s' = true)
  /\ (particles s = true -> particles s' = true)
  /\ (decorations s = true -> decorations s' = true).

(** The settings [reduceQuality] produces on its way down from full
    quality, before it touches the pixel ratio. *)
Definition onLadder (devicePixelRatio : Q) (s : Settings) : Prop :=
  Qltb (pixelRatio s) (Math_min devicePixelRatio 2) = false
  /\ (decorations s = true -> particles s = true)
  /\ (particles s = true -> shadows s = true).

(** What [update] keeps true of its counters. *)
Definition historyOk (m : Manager) : Prop :=
  (length (fpsHistory m) <= maxHistoryLength)%nat
  /\ Forall (fun f => (0 <= f)%Z) (fpsHistory m)
  /\ (0 <= frameCount m)%Z.

(** What no call changes: the two settings nothing writes to, the flag of
    [increaseQuality], the ceiling of the pixel ratio. *)
Definition untouched (m : Manager) : Prop :=
  neonEffects (settings m) = true
  /\ autoRotate (settings m) = true
  /\ hasReachedMaxQuality m = false
  /\ pixelRatio (settings m) <= 2
  /\ Forall (fun s => neonEffects s = true) (applied m).

(** A device [detectDeviceCapabilities] takes for mobile or low-end. *)
Definition lowEnd (device : Device) : bool :=
  isMobile device
  || match hardwareConcurrency device with
     | Some n => Qle_bool n 4
     | None => false
     end.

(** No check of the run finds an average frame rate above [55]. *)
Fixpoint neverFast (calls : list Call) (m : Manager) : Prop :=
  match calls with
  | [] => True
  | c :: rest =>
      match c with
      | CheckPerformance _ _ => averageOf (fpsHistory m) <= 55
      | _ => True
      end
      /\ neverFast rest (call c m)
  end.

End PerformanceManager.

(** What [applyPerformanceSettings] acts on: the renderer of [Portfolio3D]
    and, in the office, the particle systems, the neon signs (emissive
    intensity, for the signs that have a material) and the decorations. *)
Record Scenery : Type := mkScenery
  { particleSystems_visible : list bool;
    neonSigns_emissiveIntensity : list (option Q);
    decorations_visible : list bool }.

Record Display : Type := mkDisplay
  { renderer_pixelRatio : Q;
    renderer_shadowMap_enabled : bool;
    cyberpunkOffice : option Scenery }.

Module CyberpunkOffice.

(** [applyPerformanceSettings(settings)]. *)
Definition applyPerformanceSettings (s : PerformanceManager.Settings)
    (o : Scenery) : Scenery :=
  let p :=
    if negb (PerformanceManager.particles s)
    then map (fun _ => false) (particleSystems_visible o)
    else particleSystems_visible o in
  let n :=
    if negb (PerformanceManager.neonEffects s)
    then map (fun i => match i with Some _ => Some 0.2 | None => None end)
           (neonSigns_emissiveIntensity o)
    else neonSigns_emissiveIntensity o in
  let d :=
    if negb (PerformanceManager.decorations s)
    then map (fun _ => false) (decorations_visible o)
    else decorations_visible o in
  mkScenery p n d.

End CyberpunkOffice.

Module Portfolio3D.

(** [applyPerformanceSettings(settings)], the callback installed as
    [onPerformanceChange]. *)
Definition applyPerformanceSettings (s : PerformanceManager.Settings)
    (d : Display) : Display :=
  mkDisplay (PerformanceManager.pixelRatio s) (PerformanceManager.shadows s)
    (match cyberpunkOffice d with
     | Some o => Some (CyberpunkOffice.applyPerformanceSettings s o)
     | None => None
     end).

(** The callback run on each of the settings a manager reported, oldest
    first. *)
Definition replay (reported : list PerformanceManager.Settings) (d : Display)
    : Display :=
  fold_right applyPerformanceSettings d reported.

End Portfolio3D.

(** ** The loading screen ([LoadingManager]) *)

Module LoadingText.
Import String.
Local Open Scope string_scope.

(** [this.loadingMessages]. *)
Definition loadingMessages : list string :=
  [ "Initializing Cyberpunk Terminal...";
    "Loading 3D Environment...";
    "Booting Neon Systems...";
    "Synchronizing Holograms...";
    "Calibrating Neural Interface...";
    "Loading Portfolio Data...";
    "Rendering Cyberpunk Office...";
    "Activating Interactive Elements...";
    "Finalizing Matrix Connection...";
    "Ready to Enter Cyberspace..." ].

End LoadingText.

Module LoadingManager.

(** A progress value: [loadedItems / totalItems] is [NaN] for [0 / 0] and
    infinite for any other division by [0]; [Math.min(_, 100)] turns the
    infinite value into [100] and leaves [NaN]. *)
Inductive Progress : Type := Percent (q : Q) | NaN.

(** What [textContent] of the element [loading-text] was last set to. *)
Inductive TextContent : Type :=
| Text (s : String.string)
| Undefined.

(** The manager.  The item counts are natural numbers.  [onProgress],
    [onLoad] and [onError] tell whether the callback is installed;
    [reported], [loads] and [errors] record the calls made to them.
    [loadingInterval] tells whether the interval of [simulateLoading] is
    running, [loadTimers] counts the pending 500 ms timers of
    [finishLoading], and [loadingText] is the element [loading-text]
    ([None] when the document has none). *)
Record Manager : Type := mkManager
  { totalItems : nat;
    loadedItems : nat;
    progress : Progress;
    onProgress : bool;
    onLoad : bool;
    onError : bool;
    isLoading : bool;
    hasError : bool;
    sceneLoaded : bool;
    loadingInterval : bool;
    loadTimers : nat;
    loadingText : option TextContent;
    reported : list Progress;          (* latest first *)
    loads : nat;
    errors : nat }.

Definition loadingMessages : list String.string :=
  LoadingText.loadingMessages.

Definition set_counts (loaded total : nat) (m : Manager) : Manager :=
  mkManager total loaded (progress m) (onProgress m) (onLoad m) (onError m)
    (isLoading m) (hasError m) (sceneLoaded m) (loadingInterval m)
    (loadTimers m) (loadingText m) (reported m) (loads m) (errors m).

Definition set_progress (v : Progress) (m : Manager) : Manager :=
  mkManager (totalItems m) (loadedItems m) v (onProgress m) (onLoad m)
    (onError m) (isLoading m) (hasError m) (sceneLoaded m)
    (loadingInterval m) (loadTimers m) (loadingText m) (reported m)
    (loads m) (errors m).

Definition set_callbacks (progress' load error : bool) (m : Manager)
    : Manager :=
  mkManager (totalItems m) (loadedItems m) (progress m) progress' load error
    (isLoading m) (hasError m) (sceneLoaded m) (loadingInterval m)
    (loadTimers m) (loadingText m) (reported m) (loads m) (errors m).

Definition set_isLoading (v : bool) (m : Manager) : Manager :=
  mkManager (totalItems m) (loadedItems m) (progress m) (onProgress m)
    (onLoad m) (onError m) v (hasError m) (sceneLoaded m)
    (loadingInterval m) (loadTimers m) (loadingText m) (reported m)
    (loads m) (errors m).

Definition set_hasError (v : bool) (m : Manager) : Manager :=
  mkManager (totalItems m) (loadedItems m) (progress m) (onProgress m)
    (onLoad m) (onError m) (isLoading m) v (sceneLoaded m)
    (loadingInterval m) (loadTimers m) (loadingText m) (reported m)
    (loads m) (errors m).

Definition set_sceneLoaded (v : bool) (m : Manager) : Manager :=
  mkManager (totalItems m) (loadedItems m) (progress m) (onProgress m)
    (onLoad m) (onError m) (isLoading m) (hasError m) v
    (loadingInterval m) (loadTimers m) (loadingText m) (reported m)
    (loads m) (errors m).

Definition set_loadingInterval (v : bool) (m : Manager) : Manager :=
  mkManager (totalItems m) (loadedItems m) (progress m) (onProgress m)
    (onLoad m) (onError m) (isLoading m) (hasError m) (sceneLoaded m) v
    (loadTimers m) (loadingText m) (reported m) (loads m) (errors m).

Definition set_loadTimers (v : nat) (m : Manager) : Manager :=
  mkManager (totalItems m) (loadedItems m) (progress m) (onProgress m)
    (onLoad m) (onError m) (isLoading m) (hasError m) (sceneLoaded m)
    (loadingInterval m) v (loadingText m) (reported m) (loads m) (errors m).

Definition set_loadingText (v : option TextContent) (m : Manager) : Manager :=
  mkManager (totalItems m) (loadedItems m) (progress m) (onProgress m)
    (onLoad m) (onError m) (isLoading m) (hasError m) (sceneLoaded m)
    (loadingInterval m) (loadTimers m) v (reported m) (loads m) (errors m).

Definition set_reported (v : list Progress) (m : Manager) : Manager :=
  mkManager (totalItems m) (loadedItems m) (progress m) (onProgress m)
    (onLoad m) (onError m) (isLoading m) (hasError m) (sceneLoaded m)
    (loadingInterval m) (loadTimers m) (loadingText m) v (loads m)
    (errors m).

Definition set_loads (v : nat) (m : Manager) : Manager :=
  mkManager (totalItems m) (loadedItems m) (progress m) (onProgress m)
    (onLoad m) (onError m) (isLoading m) (hasError m) (sceneLoaded m)
    (loadingInterval m) (loadTimers m) (loadingText m) (reported m) v
    (errors m).

Definition set_errors (v : nat) (m : Manager) : Manager :=
  mkManager (totalItems m) (loadedItems m) (progress m) (onProgress m)
    (onLoad m) (onError m) (isLoading m) (hasError m) (sceneLoaded m)
    (loadingInterval m) (loadTimers m) (loadingText m) (reported m)
    (loads m) v.

(** [if (this.onProgress) this.onProgress(value)]. *)
Definition callOnProgress (value : Progress) (m : Manager) : Manager :=
  if onProgress m then set_reported (value :: reported m) m else m.

(** [updateProgress()]. *)
Definition updateProgress (m : Manager) : Manager :=
  let value :=
    match totalItems m, loadedItems m with
    | O, O => NaN
    | O, S _ => Percent 100
    | S _, _ =>
        Percent
          (Math_min
             (inject_Z (Z.of_nat (loadedItems m))
              / inject_Z (Z.of_nat (totalItems m)) * 100)
             100)
    end in
  set_progress value m.

Definition TextContent_eqb (a b : TextContent) : bool :=
  match a, b with
  | Text s, Text t => String.eqb s t
  | Undefined, Undefined => true
  | _, _ => false
  end.

(** [loadingMessages[clampedIndex]] of [updateLoadingMessage]: the index
    is [NaN] for [0 / 0], and [9] after clamping for any other division by
    [0]. *)
Definition clampedIndex (loaded total : nat) : option nat :=
  match total, loaded with
  | O, O => None
  | O, S _ => Some (length loadingMessages - 1)%nat
  | S _, _ =>
      let messageIndex :=
        Qfloor
          (inject_Z (Z.of_nat loaded) / inject_Z (Z.of_nat total)
           * inject_Z (Z.of_nat (length loadingMessages))) in
      Some (Z.to_nat
              (Z.min messageIndex (Z.of_nat (length loadingMessages) - 1)))
  end.

Definition messageAt (index : option nat) : TextContent :=
  match index with
  | Some i =>
      match nth_error loadingMessages i with
      | Some message => Text message
      | None => Undefined
      end
  | None => Undefined
  end.

(** [updateLoadingMessage()]. *)
Definition updateLoadingMessage (m : Manager) : Manager :=
  let message := messageAt (clampedIndex (loadedItems m) (totalItems m)) in
  match loadingText m with
  | Some content =>
      if negb (TextContent_eqb content message)
      then set_loadingText (Some message) m
      else m
  | None => m
  end.

(** [finishLoading()]. *)
Definition finishLoading (m : Manager) : Manager :=
  let m1 := set_progress (Percent 100) (set_isLoading false m) in
  let m2 :=
    match loadingText m1 with
    | Some _ =>
        set_loadingText
          (Some (messageAt (Some (length loadingMessages - 1)%nat))) m1
    | None => m1
    end in
  let m3 := callOnProgress (Percent 100) m2 in
  set_loadTimers (S (loadTimers m3)) m3.

(** The callback of the interval that [simulateLoading] starts. *)
Definition tick (m : Manager) : Manager :=
  if negb (loadingInterval m) then m
  else if (loadedItems m <? totalItems m)%nat then
    let m1 := set_counts (S (loadedItems m)) (totalItems m) m in
    let m2 := updateLoadingMessage (updateProgress m1) in
    let m3 := callOnProgress (progress m2) m2 in
    if (totalItems m3 <=? loadedItems m3)%nat
    then finishLoading (set_loadingInterval false m3)
    else m3
  else m.

(** The callback of the timer that [finishLoading] starts. *)
Definition fireLoadTimer (m : Manager) : Manager :=
  match loadTimers m with
  | O => m
  | S pending =>
      let m1 := set_loadTimers pending m in
      if onLoad m1 then set_loads (S (loads m1)) m1 else m1
  end.

(** [new LoadingManager()]; [simulateLoading()] starts the interval. *)
Definition constructor (loadingText : option TextContent) : Manager :=
  mkManager 15 0 (Percent 0) false false false true false false true 0
    loadingText [] 0 0.

(** [notifySceneLoaded()]. *)
Definition notifySceneLoaded (m : Manager) : Manager :=
  set_sceneLoaded true m.

(** [reportError(error)]. *)
Definition reportError (m : Manager) : Manager :=
  let m1 := set_isLoading false (set_hasError true m) in
  if onError m1 then set_errors (S (errors m1)) m1 else m1.

(** [setProgress(loaded, total)]. *)
Definition setProgress (loaded total : nat) (m : Manager) : Manager :=
  let m1 := updateProgress (set_counts loaded total m) in
  let m2 := callOnProgress (progress m1) m1 in
  if (total <=? loaded)%nat then finishLoading m2 else m2.

(** What happens to a manager: the interval or a timer fires, one of its
    methods is called, [Portfolio3D.setupLoadingManager] installs callbacks,
    or the message rotation of [Portfolio3D.setupLoadingMessages] writes to
    the element [loading-text]. *)
Inductive Call : Type :=
| Tick
| FireLoadTimer
| NotifySceneLoaded
| ReportError
| SetProgress (loaded total : nat)
| InstallCallbacks (progress load error : bool)
| RotateMessages (message : String.string).

Definition call (c : Call) (m : Manager) : Manager :=
  match c with
  | Tick => tick m
  | FireLoadTimer => fireLoadTimer m
  | NotifySceneLoaded => notifySceneLoaded m
  | ReportError => reportError m
  | SetProgress loaded total => setProgress loaded total m
  | InstallCallbacks progress' load error =>
      set_callbacks progress' load error m
  | RotateMessages message =>
      match loadingText m with
      | Some _ => set_loadingText (Some (Text message)) m
      | None => m
      end
  end.

Definition run (calls : list Call) (m : Manager) : Manager :=
  fold_left (fun m c => call c m) calls m.

(** A progress value between [0] and [100]. *)
Definition inRange (value : Progress) : Prop :=
  match value with
  | Percent q => 0 <= q <= 100
  | NaN => False
  end.

Definition progressOk (m : Manager) : Prop :=
  inRange (progress m)
  /\ Forall (fun value => value = NaN \/ inRange value) (reported m).

End LoadingManager.

(** ** Camera navigation ([NavigationManager]) *)

Module SectionText.
Import String.
Local Open Scope string_scope.

Definition home : string := "home".
Definition about : string := "about".
Definition projects : string := "projects".
Definition skills : string := "skills".
Definition contact : string := "contact".

End SectionText.

(** [ToInt32], which the bit operators of JavaScript apply to their
    operands. *)
Definition toInt32 (z : Z) : Z :=
  ((z + 2 ^ 31) mod 2 ^ 32 - 2 ^ 31)%Z.

Module NavigationManager.

(** The three components [animateLighting] computes from a colour:
    [((color >> 16) & 255) / 255], [((color >> 8) & 255) / 255] and
    [(color & 255) / 255]. *)
Record Color : Type := mkColor { r : Q; g : Q; b : Q }.

Definition colorOf (color : Z) : Color :=
  mkColor
    (inject_Z (Z.land (Z.shiftr (toInt32 color) 16) 255) / 255)
    (inject_Z (Z.land (Z.shiftr (toInt32 color) 8) 255) / 255)
    (inject_Z (Z.land (toInt32 color) 255) / 255).

Record Viewpoint : Type := mkViewpoint { position : Vec3; target : Vec3 }.

(** A directional or point light of the scene; [color] is [None] for an
    object without one. *)
Record Light : Type := mkLight { intensity : Q; color : option Color }.

Record LightSettings : Type := mkLightSettings
  { ls_intensity : Q; ls_color : Z }.

(** A timeline in flight: where its tweens take the camera, the orbit
    target and the lights, and the section its [onComplete] applies the
    settings of ([None] for [customTransition]). *)
Record Timeline : Type := mkTimeline
  { tl_to : Viewpoint;
    tl_lighting : option LightSettings;
    tl_section : option String.string }.

(** The manager after [setup(camera, controls, scene)], which
    [Portfolio3D.loadScene] calls before any navigation is possible.
    [scene] lists the directional and point lights that [scene.traverse]
    visits; it is [None] for a scene object without a [traverse] method,
    such as the [CyberpunkOffice] that [Portfolio3D] passes. *)
Record Manager : Type := mkManager
  { isNavigating : bool;
    camera_position : Vec3;
    controls_enabled : bool;
    controls_target : Vec3;
    controls_autoRotate : bool;
    controls_autoRotateSpeed : Q;
    controls_minDistance : Q;
    controls_maxDistance : Q;
    scene : option (list Light);
    timelines : list Timeline }.

Definition set_isNavigating (v : bool) (m : Manager) : Manager :=
  mkManager v (camera_position m) (controls_enabled m) (controls_target m)
    (controls_autoRotate m) (controls_autoRotateSpeed m)
    (controls_minDistance m) (controls_maxDistance m) (scene m)
    (timelines m).

Definition set_camera_position (v : Vec3) (m : Manager) : Manager :=
  mkManager (isNavigating m) v (controls_enabled m) (controls_target m)
    (controls_autoRotate m) (controls_autoRotateSpeed m)
    (controls_minDistance m) (controls_maxDistance m) (scene m)
    (timelines m).

Definition set_controls_enabled (v : bool) (m : Manager) : Manager :=
  mkManager (isNavigating m) (camera_position m) v (controls_target m)
    (controls_autoRotate m) (controls_autoRotateSpeed m)
    (controls_minDistance m) (controls_maxDistance m) (scene m)
    (timelines m).

Definition set_controls_target (v : Vec3) (m : Manager) : Manager :=
  mkManager (isNavigating m) (camera_position m) (controls_enabled m) v
    (controls_autoRotate m) (controls_autoRotateSpeed m)
    (controls_minDistance m) (controls_maxDistance m) (scene m)
    (timelines m).

Definition set_rotation (autoRotate : bool) (speed : option Q)
    (minDistance maxDistance : Q) (m : Manager) : Manager :=
  mkManager (isNavigating m) (camera_position m) (controls_enabled m)
    (controls_target m) autoRotate
    (match speed with Some s => s | None => controls_autoRotateSpeed m end)
    minDistance maxDistance (scene m) (timelines m).

Definition set_scene (v : option (list Light)) (m : Manager) : Manager :=
  mkManager (isNavigating m) (camera_position m) (controls_enabled m)
    (controls_target m) (controls_autoRotate m) (controls_autoRotateSpeed m)
    (controls_minDistance m) (controls_maxDistance m) v (timelines m).

Definition set_timelines (v : list Timeline) (m : Manager) : Manager :=
  mkManager (isNavigating m) (camera_position m) (controls_enabled m)
    (controls_target m) (controls_autoRotate m) (controls_autoRotateSpeed m)
    (controls_minDistance m) (controls_maxDistance m) (scene m) v.

(** What [this.viewpoints[section]] gives: one of the five viewpoints of
    the constructor, a property inherited from [Object.prototype] (which is
    truthy and has no [position]), or [undefined]. *)
Inductive Lookup : Type :=
| Found (viewpoint : Viewpoint)
| Inherited
| Missing.

Section Prototype.

(** The names the runtime resolves through [Object.prototype]. *)
Variable inheritedKey : String.string -> bool.

Definition viewpoints (section : String.string) : Lookup :=
  if String.eqb section SectionText.home
  then Found (mkViewpoint (mkVec3 (-15) 8 20) (mkVec3 0 2 0))
  else if String.eqb section SectionText.about
  then Found (mkViewpoint (mkVec3 0 5 15) (mkVec3 0 3 0))
  else if String.eqb section SectionText.projects
  then Found (mkViewpoint (mkVec3 0 4 8) (mkVec3 0 3 (-1)))
  else if String.eqb section SectionText.skills
  then Found (mkViewpoint (mkVec3 10 6 10) (mkVec3 0 2 0))
  else if String.eqb section SectionText.contact
  then Found (mkViewpoint (mkVec3 (-10) 6 10) (mkVec3 0 2 0))
  else if inheritedKey section then Inherited
  else Missing.

(** [applySectionSettings(section)]. *)
Definition applySectionSettings (section : String.string) (m : Manager)
    : Manager :=
  if String.eqb section SectionText.home
  then set_rotation true (Some 0.5) 10 50 m
  else if String.eqb section SectionText.about
  then set_rotation false None 5 30 m
  else if String.eqb section SectionText.projects
  then set_rotation false None 3 20 m
  else if String.eqb section SectionText.skills
  then set_rotation true (Some 1) 5 25 m
  else if String.eqb section SectionText.contact
  then set_rotation false None 5 25 m
  else m.

(** The lighting [addSectionTransition] asks [animateLighting] for.  The
    pulse of the monitors ends where it started, and the spin and fade of
    the transparent meshes are cosmetic; neither is part of the state. *)
Definition sectionLighting (section : String.string)
    : option LightSettings :=
  if String.eqb section SectionText.home
  then Some (mkLightSettings 1 0x4080ff)
  else if String.eqb section SectionText.about
  then Some (mkLightSettings 1.2 0x6060ff)
  else if String.eqb section SectionText.projects
  then Some (mkLightSettings 1.5 0x00ffff)
  else if String.eqb section SectionText.skills
  then Some (mkLightSettings 0.8 0xff00ff)
  else if String.eqb section SectionText.contact
  then Some (mkLightSettings 1.1 0x8040ff)
  else None.

(** Where the tweens of [animateLighting] take a light. *)
Definition litBy (settings : LightSettings) (light : Light) : Light :=
  mkLight (ls_intensity settings)
    (match color light with
     | Some _ => Some (colorOf (ls_color settings))
     | None => None
     end).

(** [navigateTo(section)].  With an inherited property for a viewpoint,
    reading [viewpoint.position.x] throws before the timeline has a tween:
    no result.  With a scene that has no [traverse], [animateLighting]
    throws once the two camera tweens are on the timeline: the promise is
    rejected, and the timeline runs without lighting tweens. *)
Definition navigateTo (section : String.string) (m : Manager)
    : option Manager :=
  if isNavigating m then Some m
  else
    match viewpoints section with
    | Missing => Some m
    | Inherited => None
    | Found viewpoint =>
        let m1 := set_controls_enabled false (set_isNavigating true m) in
        let lighting :=
          match scene m1 with
          | Some _ => sectionLighting section
          | None => None
          end in
        Some (set_timelines
                (timelines m1 ++ [mkTimeline viewpoint lighting (Some section)])
                m1)
    end.

(** [customTransition(fromViewpoint, toViewpoint, duration)]. *)
Definition customTransition (fromViewpoint toViewpoint : Viewpoint)
    (duration : Q) (m : Manager) : Manager :=
  if isNavigating m then m
  else
    let m1 := set_controls_enabled false (set_isNavigating true m) in
    set_timelines (timelines m1 ++ [mkTimeline toViewpoint None None]) m1.

(** The [k]-th timeline in flight ends: its tweens are at their end values
    and its [onComplete] runs. *)
Definition completeTimeline (k : nat) (m : Manager) : Manager :=
  match nth_error (timelines m) k with
  | None => m
  | Some tl =>
      let m1 := set_timelines (removeNth k (timelines m)) m in
      let m2 :=
        set_controls_target (target (tl_to tl))
          (set_camera_position (position (tl_to tl)) m1) in
      let m3 :=
        match tl_lighting tl, scene m2 with
        | Some settings, Some lights =>
            set_scene (Some (map (litBy settings) lights)) m2
        | _, _ => m2
        end in
      let m4 := set_controls_enabled true (set_isNavigating false m3) in
      let m5 := set_controls_target (target (tl_to tl)) m4 in
      match tl_section tl with
      | Some section => applySectionSettings section m5
      | None => m5
      end
  end.

(** [getCurrentViewpoint()]. *)
Definition getCurrentViewpoint (m : Manager) : Viewpoint :=
  mkViewpoint
    (mkVec3 (vx (camera_position m)) (vy (camera_position m))
       (vz (camera_position m)))
    (mkVec3 (vx (controls_target m)) (vy (controls_target m))
       (vz (controls_target m))).

(** What happens to a manager. *)
Inductive Call : Type :=
| NavigateTo (section : String.string)
| CustomTransition (fromViewpoint toViewpoint : Viewpoint) (duration : Q)
| TimelineComplete (k : nat)
| CameraMoved (position' target' : Vec3).

Definition call (c : Call) (m : Manager) : option Manager :=
  match c with
  | NavigateTo section => navigateTo section m
  | CustomTransition fromViewpoint toViewpoint duration =>
      Some (customTransition fromViewpoint toViewpoint duration m)
  | TimelineComplete k => Some (completeTimeline k m)
  | CameraMoved position' target' =>
      Some (set_controls_target target' (set_camera_position position' m))
  end.

Fixpoint run (calls : list Call) (m : Manager) : option Manager :=
  match calls with
  | [] => Some m
  | c :: rest => m' <- call c m ;; run rest m'
  end.

End Prototype.



End NavigationManager.

(** ** Dialogues ([ModalManager]) *)

Module ModalManager.

(** The [type] passed to [showModal]; [generateContent] draws a close
    button for the five it knows. *)
Inductive ModalType : Type :=
| about | projects | skills | contact | tutorial
| otherType.

Definition hasCloseButton (type : ModalType) : bool :=
  match type with
  | otherType => false
  | _ => true
  end.

(** An overlay element: [style.opacity] is ["1"] or ["0"]. *)
Record Modal : Type := mkModal
  { modal_id : nat; opaque : bool; modal_type : ModalType }.

(** The manager and the part of the page it acts on: the overlays attached
    to [document.body] (oldest first), the style elements appended to
    [document.head], the modals whose [requestAnimationFrame] callback is
    pending, the number of pending 300 ms timers of [closeModal] and of
    registered [escapeHandler]s, and the number of overlays created so
    far. *)
Record Page : Type := mkPage
  { activeModal : option nat;
    body : list Modal;
    headStyles : nat;
    frames : list nat;
    closeTimers : nat;
    escapeHandlers : nat;
    created : nat }.

Definition setOpaque (id : nat) (v : bool) (l : list Modal) : list Modal :=
  map (fun modal =>
         if Nat.eqb (modal_id modal) id
         then mkModal (modal_id modal) v (modal_type modal)
         else modal) l.

Definition attached (id : nat) (l : list Modal) : bool :=
  existsb (fun modal => Nat.eqb (modal_id modal) id) l.

Definition detach (id : nat) (l : list Modal) : list Modal :=
  filter (fun modal => negb (Nat.eqb (modal_id modal) id)) l.

(** [closeModal()]. *)
Definition closeModal (p : Page) : Page :=
  match activeModal p with
  | Some id =>
      mkPage (activeModal p) (setOpaque id false (body p)) (headStyles p)
        (frames p) (S (closeTimers p)) (escapeHandlers p) (created p)
  | None => p
  end.

(** The callback of the timer that [closeModal] starts. *)
Definition closeTimer (p : Page) : Page :=
  match closeTimers p with
  | O => p
  | S pending =>
      let body' :=
        match activeModal p with
        | Some id => detach id (body p)
        | None => body p
        end in
      mkPage None body' (headStyles p) (frames p) pending
        (escapeHandlers p) (created p)
  end.

(** [showModal(content, type)]. *)
Definition showModal (type : ModalType) (p : Page) : Page :=
  let p1 := closeModal p in
  let id := created p1 in
  mkPage (Some id) (body p1 ++ [mkModal id false type]) (S (headStyles p1))
    (frames p1 ++ [id]) (closeTimers p1) (S (escapeHandlers p1)) (S id).

(** The [k]-th pending animation frame of [showModal]. *)
Definition animationFrame (k : nat) (p : Page) : Page :=
  match nth_error (frames p) k with
  | Some id =>
      mkPage (activeModal p) (setOpaque id true (body p)) (headStyles p)
        (removeNth k (frames p)) (closeTimers p) (escapeHandlers p)
        (created p)
  | None => p
  end.

(** The keydown listeners on [Escape]: each registered handler calls
    [closeModal] and removes itself. *)
Definition keyEscape (p : Page) : Page :=
  let p1 := Nat.iter (escapeHandlers p) closeModal p in
  mkPage (activeModal p1) (body p1) (headStyles p1) (frames p1)
    (closeTimers p1) 0 (created p1).

(** What happens on the page: a dialogue is asked for, the close button or
    the backdrop of an attached overlay is clicked, Escape is pressed, a
    timer or an animation frame fires. *)
Inductive Event : Type :=
| ShowModal (type : ModalType)
| ClickCloseButton (id : nat)
| ClickBackdrop (id : nat)
| KeyEscape
| CloseTimer
| AnimationFrame (k : nat).

Definition step (e : Event) (p : Page) : Page :=
  match e with
  | ShowModal type => showModal type p
  | ClickCloseButton id =>
      if existsb (fun modal =>
                    Nat.eqb (modal_id modal) id
                    && hasCloseButton (modal_type modal)) (body p)
      then closeModal p else p
  | ClickBackdrop id => if attached id (body p) then closeModal p else p
  | KeyEscape => keyEscape p
  | CloseTimer => closeTimer p
  | AnimationFrame k => animationFrame k p
  end.

Definition run (events : list Event) (p : Page) : Page :=
  fold_left (fun p e => step e p) events p.

(** [new ModalManager()] on a page without overlays. *)
Definition constructor : Page := mkPage None [] 0 [] 0 0 0.

(** The ways of closing the dialogue [id] from the page itself. *)
Definition closes (e : Event) (id : nat) (type : ModalType) : Prop :=
  e = KeyEscape \/ e = ClickBackdrop id
  \/ (e = ClickCloseButton id /\ hasCloseButton type = true).

(** Nothing is open or about to change. *)
Definition quiet (p : Page) : Prop :=
  activeModal p = None /\ closeTimers p = O /\ frames p = []
  /\ Forall (fun modal => (modal_id modal < created p)%nat) (body p).

(** The overlay [id] is attached and is not the active dialogue; the
    identities in use are below the counter. *)
Definition orphaned (id : nat) (p : Page) : Prop :=
  attached id (body p) = true
  /\ activeModal p <> Some id
  /\ (id < created p)%nat
  /\ (forall active, activeModal p = Some active ->
                     (active < created p)%nat).

End ModalManager.

(** ** Picking a hologram panel ([findScreenIndex]) *)

(** A scene object with the chain of its parents: an object without a
    parent, or an object in a parent.  Two objects are the same object when
    their [uuid]s are equal. *)
Inductive Object3D : Type :=
| topObject (uuid : nat)
| childObject (uuid : nat) (parent : Object3D).

Definition uuid (object : Object3D) : nat :=
  match object with
  | topObject id => id
  | childObject id _ => id
  end.

Definition parent (object : Object3D) : option Object3D :=
  match object with
  | topObject _ => None
  | childObject _ above => Some above
  end.

(** The loop of [isChildOfGroup] with [parent] at the object [above]:
    whether [above] or an object over it is the group. *)
Fixpoint isGroupOrBelow (above group : Object3D) : bool :=
  if Nat.eqb (uuid above) (uuid group) then true
  else
    match above with
    | topObject _ => false
    | childObject _ next => isGroupOrBelow next group
    end.

(** [isChildOfGroup(object, group)]. *)
Definition isChildOfGroup (object group : Object3D) : bool :=
  match parent object with
  | None => false
  | Some above => isGroupOrBelow above group
  end.

(** The loop of [findScreenIndex], from index [i] on. *)
Fixpoint findScreenIndexFrom (i : nat) (clickedObject : Object3D)
    (hologramScreens : list Object3D) : Z :=
  match hologramScreens with
  | [] => (-1)%Z
  | screen :: rest =>
      if isChildOfGroup clickedObject screen then Z.of_nat i
      else findScreenIndexFrom (S i) clickedObject rest
  end.

(** [findScreenIndex(clickedObject, hologramScreens)]. *)
Definition findScreenIndex (clickedObject : Object3D)
    (hologramScreens : list Object3D) : Z :=
  findScreenIndexFrom 0 clickedObject hologramScreens.

(** The [uuid]s of [object] and of the objects above it, nearest first. *)
Fixpoint chain (object : Object3D) : list nat :=
  match object with
  | topObject id => [id]
  | childObject id above => id :: chain above
  end.

(** The [uuid]s of the objects above [object]. *)
Definition ancestors (object : Object3D) : list nat := tl (chain object).

(** ** Floating particles ([CyberpunkOffice.update]) *)

(** One particle height after a frame: up by [0.01], back to [0] above
    [50].  The heights live in a [Float32Array], so the sum is rounded to
    single precision, by [fround], when it is stored, and the comparison
    reads the stored number. *)
Definition risen (fround : Q -> Q) (y : Q) : Q :=
  let stored := fround (y + 0.01) in
  if Qltb 50 stored then 0 else stored.

(** The loop over [positions], the flat array of [x, y, z] triples: it
    visits the indices [1], [4], [7], ... *)
Fixpoint riseParticles (fround : Q -> Q) (positions : list Q) : list Q :=
  match positions with
  | x :: y :: rest =>
      x :: risen fround y
        :: match rest with
           | z :: rest' => z :: riseParticles fround rest'
           | [] => []
           end
  | _ => positions
  end.

(** ** Events that are neither a click nor a navigation request *)

Definition passive (e : Event) : bool :=
  match e with
  | Click _ | NavButton _ => false
  | _ => true
  end.

(** ** Hovering and clicking scene objects ([InteractiveElements]) *)

Module InteractiveElements.

(** A registered object: its identity, the identities of its direct
    children, and which callbacks it was registered with. *)
Record Item : Type := mkItem
  { object : nat;
    children : list nat;
    onHover : bool;
    onLeave : bool;
    onClick : bool }.

(** [document.body.style.cursor]; [unset] until the class writes it. *)
Inductive Cursor : Type := pointer | default | unset.

(** A callback that was called, with the index of its item.  The
    callbacks are taken to return. *)
Inductive Called : Type :=
| Hover (item : nat)
| Leave (item : nat)
| Clicked (item : nat).

(** The instance: [camera] tells whether [setCamera] was called,
    [hoveredObject] is the index of the hovered item, [called] lists the
    callbacks called so far, latest first. *)
Record State : Type := mkState
  { camera : bool;
    interactiveObjects : list Item;
    hoveredObject : option nat;
    cursor : Cursor;
    called : list Called }.

(** [new InteractiveElements(scene)]. *)
Definition constructor : State := mkState false [] None unset [].

(** [setCamera(camera)]. *)
Definition setCamera (s : State) : State :=
  mkState true (interactiveObjects s) (hoveredObject s) (cursor s)
    (called s).

(** [addInteractiveObject(object, callbacks)]. *)
Definition addInteractiveObject (item : Item) (s : State) : State :=
  mkState (camera s) (interactiveObjects s ++ [item]) (hoveredObject s)
    (cursor s) (called s).

(** [destroy()].  It passes [removeEventListener] the methods, not the
    arrow functions that were registered, so the two listeners stay. *)
Definition destroy (s : State) : State :=
  mkState (camera s) [] None (cursor s) (called s).

(** The scene graph changes under a registered object. *)
Fixpoint replaceChildren (i : nat) (children' : list nat)
    (items : list Item) : list Item :=
  match items, i with
  | [], _ => []
  | item :: rest, O =>
      mkItem (object item) children' (onHover item) (onLeave item)
        (onClick item) :: rest
  | item :: rest, S j => item :: replaceChildren j children' rest
  end.

(** [this.interactiveObjects.find(...)]: the index of the first item whose
    object is the intersected one or has it among its children. *)
Fixpoint findFrom (i : nat) (intersectedObject : nat) (items : list Item)
    : option nat :=
  match items with
  | [] => None
  | item :: rest =>
      if Nat.eqb (object item) intersectedObject
         || existsb (Nat.eqb intersectedObject) (children item)
      then Some i
      else findFrom (S i) intersectedObject rest
  end.

Definition find (intersectedObject : nat) (s : State) : option nat :=
  findFrom 0 intersectedObject (interactiveObjects s).

Definition has (callback : Item -> bool) (i : nat) (s : State) : bool :=
  match nth_error (interactiveObjects s) i with
  | Some item => callback item
  | None => false
  end.

(** [if (this.hoveredObject && this.hoveredObject.onLeave)
    this.hoveredObject.onLeave()]. *)
Definition leaveHovered (s : State) : list Called :=
  match hoveredObject s with
  | Some previous =>
      if has onLeave previous s then Leave previous :: called s
      else called s
  | None => called s
  end.

Definition option_nat_eqb (a b : option nat) : bool :=
  match a, b with
  | Some x, Some y => Nat.eqb x y
  | None, None => true
  | _, _ => false
  end.

(** [onMouseMove(event)]; [intersected] is the object of the first
    intersection the ray caster reports, if there is one. *)
Definition onMouseMove (intersected : option nat) (s : State) : State :=
  if negb (camera s) then s
  else
    match intersected with
    | Some intersectedObject =>
        match find intersectedObject s with
        | Some i =>
            if negb (option_nat_eqb (hoveredObject s) (Some i)) then
              let left := leaveHovered s in
              mkState (camera s) (interactiveObjects s) (Some i) pointer
                (if has onHover i s then Hover i :: left else left)
            else s
        | None => s
        end
    | None =>
        mkState (camera s) (interactiveObjects s) None default
          (leaveHovered s)
    end.

(** [onClick(event)]. *)
Definition onClickEvent (intersected : option nat) (s : State) : State :=
  if negb (camera s) then s
  else
    match intersected with
    | Some intersectedObject =>
        match find intersectedObject s with
        | Some i =>
            if has onClick i s
            then mkState (camera s) (interactiveObjects s)
                   (hoveredObject s) (cursor s) (Clicked i :: called s)
            else s
        | None => s
        end
    | None => s
    end.

Inductive Call : Type :=
| SetCamera
| AddInteractiveObject (item : Item)
| ChildrenChanged (i : nat) (children' : list nat)
| MouseMove (intersected : option nat)
| MouseClick (intersected : option nat)
| Destroy.

Definition call (c : Call) (s : State) : State :=
  match c with
  | SetCamera => setCamera s
  | AddInteractiveObject item => addInteractiveObject item s
  | ChildrenChanged i children' =>
      mkState (camera s) (replaceChildren i children' (interactiveObjects s))
        (hoveredObject s) (cursor s) (called s)
  | MouseMove intersected => onMouseMove intersected s
  | MouseClick intersected => onClickEvent intersected s
  | Destroy => destroy s
  end.

Definition run (calls : list Call) (s : State) : State :=
  fold_left (fun s c => call c s) calls s.

(** Every object is registered with a hover and a leave callback, as
    [createHoverEffect] makes them, and the instance is not destroyed. *)
Definition withHoverEffect (c : Call) : Prop :=
  match c with
  | AddInteractiveObject item => onHover item = true /\ onLeave item = true
  | Destroy => False
  | _ => True
  end.

Definition hoverEffects (s : State) : Prop :=
  Forall (fun item => onHover item = true /\ onLeave item = true)
    (interactiveObjects s)
  /\ (forall i, hoveredObject s = Some i ->
                (i < length (interactiveObjects s))%nat).

(** The item that is hovered after the calls of a log, oldest first, if
    the log is one of hovers and leaves in turn, each leave for the item
    of the hover before it. *)
Fixpoint hoveredAfter (log : list Called) (hovered : option nat)
    : option (option nat) :=
  match log with
  | [] => Some hovered
  | Hover i :: rest =>
      match hovered with
      | None => hoveredAfter rest (Some i)
      | Some _ => None
      end
  | Leave i :: rest =>
      match hovered with
      | Some j => if Nat.eqb i j then hoveredAfter rest None else None
      | None => None
      end
  | Clicked _ :: rest => hoveredAfter rest hovered
  end.

End InteractiveElements.

(** ** Examples for the other classes *)

(** A manager at full quality on a screen of pixel ratio 2, after thirty
    seconds at ten frames a second. *)
Definition slowManager : PerformanceManager.Manager :=
  PerformanceManager.mkManager 10 0 30000 (repeat 10%Z 30)
    (PerformanceManager.mkSettings 2 true true true true true)
    true [] 0 false.

(** What that manager reports when its quality goes down and up again. *)
Definition downAndUp : list PerformanceManager.Settings :=
  PerformanceManager.applied
    (PerformanceManager.increaseQuality 2
       (PerformanceManager.reduceQuality slowManager)).

(** A display with one particle system, one neon sign and two
    decorations. *)
Definition sampleDisplay : Display :=
  mkDisplay 2 true (Some (mkScenery [true] [Some 1] [true; true])).

(** A loading manager just built, on a page whose [loading-text] element is
    still empty, with the callbacks of [Portfolio3D] installed. *)
Definition startedLoading : LoadingManager.Manager :=
  LoadingManager.set_callbacks true true false
    (LoadingManager.constructor
       (Some (LoadingManager.Text String.EmptyString))).




(** A page with one dialogue open, and the page after a second dialogue
    was asked for and the timer fired. *)
Definition oneDialogue : ModalManager.Page :=
  ModalManager.showModal ModalManager.about ModalManager.constructor.

Definition afterSecondDialogue : ModalManager.Page :=
  ModalManager.closeTimer
    (ModalManager.showModal ModalManager.projects oneDialogue).


Definition aboutWorld : World :=
  orElse
    (step cornerRandom sampleSqrt sampleAtan2 1000 (NavButton about)
       (loadedWorld cornerRandom))
    (loadedWorld cornerRandom).

Definition escapedWorld : World :=
  orElse
    (run cornerRandom sampleSqrt sampleAtan2
       [(3000%Z, TweenComplete 0); (3000%Z, TweenComplete 0);
        (5000%Z, KeyEscape)]
       aboutWorld)
    aboutWorld.

(** The pointer moves onto a child of a registered object and off it
    again. *)
Definition hoverCalls : list InteractiveElements.Call :=
  [ InteractiveElements.SetCamera;
    InteractiveElements.AddInteractiveObject
      (InteractiveElements.mkItem 1 [2%nat] true true false);
    InteractiveElements.MouseMove (Some 2%nat);
    InteractiveElements.MouseMove None ].

(** A phone with eight cores, and half a minute at one frame a second
    with the callback installed, followed by a check. *)
Definition phone : PerformanceManager.Device :=
  PerformanceManager.mkDevice true (Some 8) None (Some 4).

Definition slowHalfMinute : list PerformanceManager.Call :=
  PerformanceManager.InstallCallback
    :: map (fun k => PerformanceManager.Update (inject_Z (Z.of_nat k) * 1000))
         (seq 1 30)
    ++ [PerformanceManager.CheckPerformance 31000 3].

(** * Properties *)

(** ** Comparisons *)

Lemma Qltb_lt (a b : Q) : Qltb a b = true <-> a < b.
Proof.
  unfold Qltb. rewrite negb_true_iff. split.
  - intros H. apply Qnot_le_lt. intros Hle.
    apply Qle_bool_iff in Hle. congruence.
  - intros H. destruct (Qle_bool b a) eqn:E; [|reflexivity].
    apply Qle_bool_iff in E. exfalso. apply (Qlt_not_le _ _ H E).
Qed.

Lemma Qltb_ge (a b : Q) : Qltb a b = false <-> b <= a.
Proof.
  unfold Qltb. rewrite negb_false_iff. apply Qle_bool_iff.
Qed.

(** ** The collision query *)

Lemma intersectsObstacle_iff (x z r : Q) (o : Obstacle) :
  intersectsObstacle x z r o = true <->
  obstacleLeft o < x + r /\ x - r < obstacleRight o
  /\ obstacleTop o < z + r /\ z - r < obstacleBottom o.
Proof.
  unfold intersectsObstacle.
  rewrite !andb_true_iff, !Qltb_lt. tauto.
Qed.




Lemma checkCollision_true_iff (obs : list Obstacle) (x z r : Q) :
  checkCollision obs x z r = true <->
  (exists o, In o obs /\ intersectsObstacle x z r o = true)
  \/ outOfBounds x z.
Proof.
  unfold checkCollision, outOfBounds.
  destruct (existsb (intersectsObstacle x z r) obs) eqn:E.
  - apply existsb_exists in E. tauto.
  - assert (N : ~ exists o, In o obs /\ intersectsObstacle x z r o = true).
    { intros H. apply existsb_exists in H. congruence. }
    destruct (Qltb sceneBoundary (Qabs x)) eqn:Ex;
      destruct (Qltb sceneBoundary (Qabs z)) eqn:Ez; simpl;
      rewrite <- ?Qltb_lt, ?Ex, ?Ez; split; auto;
      intros [H|[H|H]]; try tauto; try discriminate.
Qed.





(** ** The free-position sampler *)

Section Sampler.

Variable random : nat -> Q.


Lemma nthCandidate_shift (cur i : nat) :
  nthCandidate random (S (S cur)) i = nthCandidate random cur (S i).
Proof.
  unfold nthCandidate. f_equal. lia.
Qed.

Lemma candidateBlocked_shift (obs : list Obstacle) (cur i : nat) :
  candidateBlocked random obs (S (S cur)) i
  = candidateBlocked random obs cur (S i).
Proof.
  unfold candidateBlocked. now rewrite nthCandidate_shift.
Qed.

Lemma nthCandidate_first (cur : nat) :
  nthCandidate random cur 0 = candidate random cur.
Proof.
  unfold nthCandidate. f_equal. lia.
Qed.

Lemma findValidPosition_step (obs : list Obstacle) (currentX currentZ : Q)
    (n cur : nat) :
  findValidPosition random obs currentX currentZ (S n) cur
  = if candidateBlocked random obs cur 0
    then findValidPosition random obs currentX currentZ n (S (S cur))
    else (candidate random cur, S (S cur)).
Proof.
  unfold candidateBlocked. rewrite nthCandidate_first.
  simpl. destruct (checkCollision _ _ _ _); reflexivity.
Qed.

Lemma findValidPosition_outcome (obs : list Obstacle) (currentX currentZ : Q) :
  forall maxAttempts cur,
    SamplerOutcome random obs currentX currentZ maxAttempts cur
      (findValidPosition random obs currentX currentZ maxAttempts cur).
Proof.
  induction maxAttempts as [|n IH]; intros cur.
  - apply Exhausted; simpl; [intros j Hj; lia|reflexivity|lia].
  - rewrite findValidPosition_step.
    destruct (candidateBlocked random obs cur 0) eqn:B0.
    + destruct (IH (S (S cur)))
        as [i Hi Hbefore Hfree Hres Hcur|Hall Hres Hcur].
      * apply (Found _ _ _ _ _ _ _ (S i)).
        -- lia.
        -- intros [|j] Hj; [exact B0|].
           rewrite <- candidateBlocked_shift. apply Hbefore. lia.
        -- now rewrite <- candidateBlocked_shift.
        -- now rewrite <- nthCandidate_shift.
        -- lia.
      * apply Exhausted.
        -- intros [|j] Hj; [exact B0|].
           rewrite <- candidateBlocked_shift. apply Hall. lia.
        -- exact Hres.
        -- lia.
    + apply (Found _ _ _ _ _ _ _ 0%nat).
      * lia.
      * intros j Hj; lia.
      * exact B0.
      * simpl. now rewrite nthCandidate_first.
      * simpl. lia.
Qed.


End Sampler.

Arguments findValidPosition : simpl never.




(** The scenario of the specification: with an obstacle over the whole
    sampling range the position passed in comes back after ten draws. *)
Example findValidPosition_exhausted :
  findValidPosition centreRandom wallToWall (-25) 20 defaultMaxAttempts 0
  = ((-25, 20), 20%nat).
Proof. reflexivity. Qed.

Example findValidPosition_first_free :
  findValidPosition cornerRandom constructorObstacles (-25) 20
    defaultMaxAttempts 0
  = (((0.9 - 0.5) * 60, (0.2 - 0.5) * 60), 2%nat).
Proof. reflexivity. Qed.

(** ** The robot's wandering *)

Section Navigator.

Variable random : nat -> Q.
Variable js_sqrt : Q -> Q.
Variable js_atan2 : Q -> Q -> Q.


Lemma retarget_not_due obs now r cur :
  retargetDue random now r cur = false ->
  retarget random obs now r cur = (r, S cur).
Proof. unfold retarget. now intros ->. Qed.

Lemma retarget_due obs now r cur :
  retargetDue random now r cur = true ->
  let r1 := fst (retarget random obs now r cur) in
  position r1 = position r
  /\ targetPosition r1 = freshTarget random obs r (S cur)
  /\ lastDirectionChange r1 = now
  /\ isMoving r1 = true.
Proof.
  unfold retarget, freshTarget. intros ->.
  destruct (findValidPosition _ _ _ _ _ _) as [[x z] c]. simpl. auto.
Qed.

Lemma retarget_position obs now r cur :
  position (fst (retarget random obs now r cur)) = position r.
Proof.
  destruct (retargetDue random now r cur) eqn:E.
  - now apply retarget_due.
  - now rewrite retarget_not_due.
Qed.

(** The three ways the second [if] can go while the robot is moving. *)
Lemma moveTowardsTarget_cases obs r cur :
  let r' := fst (moveTowardsTarget random js_sqrt js_atan2 obs r cur) in
  lastDirectionChange r' = lastDirectionChange r
  /\ ((isMoving r = false /\ r' = r)
      \/ (isMoving r = true /\ Qltb 1 (distanceToTarget js_sqrt r) = false
          /\ isMoving r' = false /\ position r' = position r
          /\ targetPosition r' = targetPosition r)
      \/ (isMoving r = true /\ Qltb 1 (distanceToTarget js_sqrt r) = true
          /\ checkCollision obs (fst (nextPosition js_sqrt r))
               (snd (nextPosition js_sqrt r)) defaultRobotRadius = true
          /\ isMoving r' = true /\ position r' = position r
          /\ targetPosition r' = freshTarget random obs r cur)
      \/ (isMoving r = true /\ Qltb 1 (distanceToTarget js_sqrt r) = true
          /\ checkCollision obs (fst (nextPosition js_sqrt r))
               (snd (nextPosition js_sqrt r)) defaultRobotRadius = false
          /\ isMoving r' = true
          /\ position r'
             = mkVec3 (fst (nextPosition js_sqrt r)) (vy (position r))
                 (snd (nextPosition js_sqrt r))
          /\ targetPosition r' = targetPosition r)).
Proof.
  unfold moveTowardsTarget, freshTarget.
  destruct (isMoving r) eqn:Em; [|simpl; auto].
  destruct (Qltb 1 (distanceToTarget js_sqrt r)) eqn:Ed;
    [|simpl; auto 10].
  destruct (nextPosition js_sqrt r) as [nextX nextZ].
  cbv beta iota. simpl fst; simpl snd.
  destruct (checkCollision obs nextX nextZ defaultRobotRadius) eqn:Ec.
  - simpl negb. cbv iota.
    destruct (findValidPosition _ _ _ _ _ _) as [[x z] c]. simpl.
    auto 10.
  - simpl. auto 10.
Qed.

(** Whenever a call of [updateRobot] changes the robot's
    position, the new position is one that [checkCollision] reports free for
    the robot radius; and when the proposed next position is blocked the
    robot stays where it is and its target becomes a fresh draw of
    [findValidPosition]. *)
Lemma updateRobot_move_is_free
    (obs : list Obstacle) (now : Z) (r : Robot) (cur : nat) :
  let r1 := fst (retarget random obs now r cur) in
  let cur1 := snd (retarget random obs now r cur) in
  let r' := fst (updateRobot random js_sqrt js_atan2 obs now r cur) in
  (position r' <> position r ->
   checkCollision obs (vx (position r')) (vz (position r'))
     defaultRobotRadius = false)
  /\ (isMoving r1 = true ->
      Qltb 1 (distanceToTarget js_sqrt r1) = true ->
      checkCollision obs (fst (nextPosition js_sqrt r1))
        (snd (nextPosition js_sqrt r1)) defaultRobotRadius = true ->
      position r' = position r
      /\ targetPosition r' = freshTarget random obs r1 cur1).
Proof.
  unfold updateRobot.
  pose proof (retarget_position obs now r cur) as Hp.
  destruct (retarget random obs now r cur) as [r1 cur1].
  cbn [fst snd] in *.
  destruct (moveTowardsTarget_cases obs r1 cur1) as [_ H].
  split.
  - intros Hmove.
    destruct H as [[_ H]|[(_ & _ & _ & H & _)|[(_ & _ & _ & _ & H & _)
                  |(_ & _ & Hfree & _ & H & _)]]];
      try (exfalso; apply Hmove; congruence).
    rewrite H. exact Hfree.
  - intros Hm Hd Hc.
    destruct H as [[H _]|[(_ & H & _)|[(_ & _ & _ & _ & H1 & H2)
                  |(_ & _ & H & _)]]]; try congruence.
    split; congruence.
Qed.


(** The retarget of [updateRobot] does not look at [isMoving]: a robot that
    is already moving, once the drawn interval has passed, gets a fresh
    target from [findValidPosition] and a reset clock, whether or not the
    old target was reached or blocked. *)
Lemma updateRobot_retarget_while_moving
    (obs : list Obstacle) (now : Z) (r : Robot) (cur : nat) :
  isMoving r = true ->
  retargetDue random now r cur = true ->
  let r1 := fst (retarget random obs now r cur) in
  let cur1 := snd (retarget random obs now r cur) in
  let r' := fst (updateRobot random js_sqrt js_atan2 obs now r cur) in
  targetPosition r1 = freshTarget random obs r (S cur)
  /\ lastDirectionChange r1 = now
  /\ isMoving r1 = true
  /\ lastDirectionChange r' = now
  /\ (targetPosition r' = targetPosition r1
      \/ targetPosition r' = freshTarget random obs r1 cur1).
Proof.
  intros _ Edue. unfold updateRobot.
  pose proof (retarget_due obs now r cur Edue) as (Hp & Ht & Hl & Hm).
  destruct (retarget random obs now r cur) as [r1 cur1]. cbn [fst snd] in *.
  destruct (moveTowardsTarget_cases obs r1 cur1) as [Hclock H].
  repeat split; try congruence.
  destruct H as [[_ H]|[(_ & _ & _ & _ & H)|[(_ & _ & _ & _ & _ & H)
                |(_ & _ & _ & _ & _ & H)]]]; auto.
  left. congruence.
Qed.

(** A call of [updateRobot] leaves the robot in place or puts it on a free
    position. *)
Lemma updateRobot_position_cases
    (obs : list Obstacle) (now : Z) (r : Robot) (cur : nat) :
  let r' := fst (updateRobot random js_sqrt js_atan2 obs now r cur) in
  position r' = position r
  \/ checkCollision obs (vx (position r')) (vz (position r'))
       defaultRobotRadius = false.
Proof.
  unfold updateRobot.
  pose proof (retarget_position obs now r cur) as Hp.
  destruct (retarget random obs now r cur) as [r1 cur1].
  cbn [fst snd] in *.
  destruct (moveTowardsTarget_cases obs r1 cur1) as [_ H].
  destruct H as [[_ H]|[(_ & _ & _ & H & _)|[(_ & _ & _ & _ & H & _)
                |(_ & _ & Hfree & _ & H & _)]]].
  - left. congruence.
  - left. congruence.
  - left. congruence.
  - right. rewrite H. exact Hfree.
Qed.


End Navigator.

(** ** What the handlers leave alone *)

Ltac fields :=
  cbn [isLoaded camera_position controls_target controls_autoRotate
       currentSection activeHologramIndex isHologramActive obstacles
       objects_robot robotInteractionMode robotHelpModeStartTime
       originalCameraPosition originalCameraTarget phoneInteractionMode
       phoneHologram hologramContent randomCalls tweens timers
       set_isLoaded set_camera_position set_controls_target
       set_controls_autoRotate set_currentSection set_activeHologramIndex
       set_isHologramActive set_obstacles set_objects_robot
       set_robotInteractionMode set_robotHelpModeStartTime
       set_originalCameraPosition set_originalCameraTarget
       set_phoneInteractionMode set_phoneHologram set_hologramContent
       set_randomCalls set_tweens set_timers gsapTo setTimeout moveCamera
       position rotation_y wheels walkingAnimation yesButton_visible
       noButton_visible isMoving targetPosition moveSpeed
       lastDirectionChange set_position set_rotation_y set_wheels
       set_walkingAnimation set_yesButton_visible set_noButton_visible
       set_isMoving set_targetPosition set_moveSpeed
       set_lastDirectionChange startRobotWalkingAnimation
       stopRobotWalkingAnimation] in *.

(** Split a hypothesis [handler w = Some w'] along the branches of the
    handler. *)
Ltac branches H :=
  repeat match type of H with
         | context [match ?x with _ => _ end] => destruct x eqn:?
         | context [if ?x then _ else _] => destruct x eqn:?
         end;
  try discriminate H;
  try (injection H as <-).

Lemma robotUndisturbed_refl (w : World) : robotUndisturbed w w.
Proof.
  unfold robotUndisturbed. destruct (objects_robot w); auto.
Qed.

Lemma robotUndisturbed_same (w w' : World) :
  objects_robot w' = objects_robot w -> robotUndisturbed w w'.
Proof.
  unfold robotUndisturbed. intros ->. destruct (objects_robot w); auto.
Qed.

Lemma robotUndisturbed_trans (w1 w2 w3 : World) :
  robotUndisturbed w1 w2 -> robotUndisturbed w2 w3 -> robotUndisturbed w1 w3.
Proof.
  unfold robotUndisturbed.
  destruct (objects_robot w1), (objects_robot w2), (objects_robot w3);
    try tauto.
  intros (P1 & T1 & M1 & C1) (P2 & T2 & M2 & C2).
  repeat split; try congruence; auto.
  destruct C2 as [C2|C2]; [|auto]. destruct C1 as [C1|C1]; [left|right];
    congruence.
Qed.

(** Appending tweens without the tracking callback keeps the pending entry
    tweens what they are. *)
Lemma Forall_snoc {A : Type} (P : A -> Prop) (l : list A) (x : A) :
  Forall P l -> P x -> Forall P (l ++ [x]).
Proof.
  intros Hl Hx. apply Forall_app. split; [exact Hl|]. now constructor.
Qed.

(** Appending tweens without the tracking callback keeps the pending entry
    tweens what they are. *)
Ltac tweens_kept :=
  unfold entryTweensKept; fields; intros Hall;
  repeat apply Forall_snoc; try assumption;
  unfold isEntryTween; cbn [tw_onComplete tw_target tw_duration tw_to];
  intros ? Hcb; try discriminate Hcb.

(** Appending tweens that do not show the phone overlay adds no such
    tween. *)
Ltac phone_tweens :=
  fields; intros Hex;
  repeat match type of Hex with
         | Exists _ (_ ++ _) =>
             apply Exists_app in Hex; destruct Hex as [Hex|Hex]
         end;
  try assumption;
  (inversion Hex as [? ? Hs|? ? Hs];
   [unfold showsPhone in Hs; cbn [tw_onComplete] in Hs; discriminate Hs
   |inversion Hs]).

Lemma poseKept_refl (w : World) : poseKept w w.
Proof. split; auto. Qed.

Lemma poseKept_trans (w1 w2 w3 : World) :
  poseKept w1 w2 -> poseKept w2 w3 -> poseKept w1 w3.
Proof.
  intros [S1 U1] [S2 U2]. split; [auto|].
  intros H3. destruct (U2 H3) as [H2|H2]; [|auto].
  destruct (U1 H2) as [H1|H1]; auto.
Qed.

(** A handler that leaves the saved pose alone and does not bring the phone
    into use. *)
Lemma poseKept_same (w w' : World) :
  originalCameraPosition w' = originalCameraPosition w ->
  originalCameraTarget w' = originalCameraTarget w ->
  (phoneInteractionMode w' = true -> phoneInteractionMode w = true) ->
  (phoneHologram w' = Some true -> phoneHologram w = Some true) ->
  (Exists showsPhone (tweens w') -> Exists showsPhone (tweens w)) ->
  poseKept w w'.
Proof.
  intros Hp Ht Hm Hh Hx. unfold poseKept, savedPose, phoneUsed.
  rewrite Hp, Ht. split; [auto|]. intros [H|[H|H]]; auto.
Qed.

(** A handler that saves a pose. *)
Lemma poseKept_saved (w w' : World) : savedPose w' -> poseKept w w'.
Proof. intros H. split; auto. Qed.

Lemma calm_refl (w : World) : calm w w.
Proof.
  split; [apply robotUndisturbed_refl|].
  unfold trackingNotStarted, entryTweensKept.
  repeat split; auto; apply poseKept_refl.
Qed.

Lemma calm_trans (w1 w2 w3 : World) : calm w1 w2 -> calm w2 w3 -> calm w1 w3.
Proof.
  intros (R1 & T1 & E1 & O1 & P1) (R2 & T2 & E2 & O2 & P2).
  split; [|split; [|split; [|split]]].
  - eapply robotUndisturbed_trans; eauto.
  - unfold trackingNotStarted in *. auto.
  - unfold entryTweensKept in *. auto.
  - congruence.
  - eapply poseKept_trans; eauto.
Qed.

(** A handler that keeps the robot, the obstacles and the saved pose, does
    not set the tracking flag and does not bring the phone into use. *)
Lemma calm_same (w w' : World) :
  objects_robot w' = objects_robot w ->
  (isHologramActive w' = isHologramActive w \/ isHologramActive w' = false) ->
  entryTweensKept w w' ->
  obstacles w' = obstacles w ->
  originalCameraPosition w' = originalCameraPosition w ->
  originalCameraTarget w' = originalCameraTarget w ->
  (phoneInteractionMode w' = true -> phoneInteractionMode w = true) ->
  (phoneHologram w' = Some true -> phoneHologram w = Some true) ->
  (Exists showsPhone (tweens w') -> Exists showsPhone (tweens w)) ->
  calm w w'.
Proof.
  intros Hr Ht He Ho Hp Hq Hm Hh Hx.
  split; [now apply robotUndisturbed_same|].
  split; [unfold trackingNotStarted; destruct Ht; congruence|].
  split; [exact He|]. split; [exact Ho|]. now apply poseKept_same.
Qed.

(** Discharge the premises of [calm_same] for a chain of field updates. *)
Ltac frame :=
  match goal with
  | |- entryTweensKept _ _ => tweens_kept
  | |- Exists showsPhone _ -> Exists showsPhone _ => phone_tweens
  | |- _ => fields; auto; try (intros; discriminate)
  end.

Lemma exitPhoneMode_calm (w w' : World) :
  exitPhoneMode w = Some w' -> calm w w'.
Proof.
  unfold exitPhoneMode. intros H.
  branches H; apply calm_same; frame.
Qed.

Lemma enterPhoneMode_calm (w : World) : calm w (enterPhoneMode w).
Proof.
  unfold enterPhoneMode.
  split; [apply robotUndisturbed_same; reflexivity|].
  split; [unfold trackingNotStarted; fields; auto|].
  split; [tweens_kept|]. split; [reflexivity|].
  apply poseKept_saved. unfold savedPose. fields. eauto.
Qed.

Lemma handlePhoneClick_calm (w w' : World) :
  handlePhoneClick w = Some w' -> calm w w'.
Proof.
  unfold handlePhoneClick. intros H.
  destruct (phoneInteractionMode w).
  - now apply exitPhoneMode_calm.
  - injection H as <-. apply enterPhoneMode_calm.
Qed.

Lemma autoClosePhoneHologram_calm (w w' : World) :
  autoClosePhoneHologram w = Some w' -> calm w w'.
Proof.
  unfold autoClosePhoneHologram. intros H.
  destruct (_ && _).
  - now apply exitPhoneMode_calm.
  - injection H as <-. apply calm_refl.
Qed.

Lemma activateRobotHelpMode_calm (now : Z) (w : World) :
  calm w (activateRobotHelpMode now w).
Proof.
  unfold activateRobotHelpMode.
  destruct (objects_robot w) as [r|] eqn:Er; [|apply calm_refl].
  destruct (robotInteractionMode w); [apply calm_refl|].
  split; [|split; [|split; [|split]]].
  - unfold robotUndisturbed. rewrite Er. fields.
    repeat split; auto. discriminate.
  - unfold trackingNotStarted. fields. auto.
  - tweens_kept.
  - reflexivity.
  - apply poseKept_saved. unfold savedPose. fields. eauto.
Qed.

Lemma deactivateRobotHelpMode_calm (w w' : World) :
  deactivateRobotHelpMode w = Some w' -> calm w w'.
Proof.
  unfold deactivateRobotHelpMode. intros H.
  destruct (negb (robotInteractionMode w)).
  { injection H as <-. apply calm_refl. }
  fields. destruct (objects_robot w) as [r|] eqn:Er; [|discriminate].
  injection H as <-.
  destruct (originalCameraPosition w) eqn:Ep,
    (originalCameraTarget w) eqn:Et.
  all: split; [|split; [|split; [|split]]].
  all: try (unfold robotUndisturbed; rewrite Er; fields;
            repeat split; auto; discriminate).
  all: try (unfold trackingNotStarted; fields; now auto).
  all: try (tweens_kept; fail).
  all: try reflexivity.
  all: apply poseKept_same; frame.
Qed.

Lemma setHologramContent_calm (i : Z) (b : bool) (w : World) :
  calm w (setHologramContent i b w).
Proof.
  unfold setHologramContent. destruct (screenInRange _ _);
    apply calm_same; frame.
Qed.

Lemma deactivateHologram_calm (w : World) : calm w (deactivateHologram w).
Proof.
  unfold deactivateHologram, hideHologramContent, setHologramContent.
  destruct (0 <=? activeHologramIndex w)%Z; [destruct (screenInRange _ _)|];
    apply calm_same; frame.
Qed.

Lemma closeOthers_calm (w w2 : World) :
  (w1 <- autoClosePhoneHologram w ;;
   (if robotInteractionMode w1 then deactivateRobotHelpMode w1 else Some w1))
  = Some w2 ->
  calm w w2.
Proof.
  intros H. destruct (autoClosePhoneHologram w) as [w1|] eqn:E1;
    [|discriminate].
  apply autoClosePhoneHologram_calm in E1.
  destruct (robotInteractionMode w1).
  - apply deactivateRobotHelpMode_calm in H. eapply calm_trans; eauto.
  - injection H as <-. exact E1.
Qed.

Lemma focusOnHologramScreen_calm (i : Z) (w w' : World) :
  focusOnHologramScreen i w = Some w' -> calm w w'.
Proof.
  unfold focusOnHologramScreen. intros H.
  destruct (autoClosePhoneHologram w) as [w1|] eqn:E1; [|discriminate].
  destruct (if robotInteractionMode w1 then deactivateRobotHelpMode w1
            else Some w1) as [w2|] eqn:E2; [|discriminate].
  assert (C : calm w w2).
  { apply closeOthers_calm. rewrite E1. exact E2. }
  destruct (screenInRange i (length screenPositions)) eqn:Ei;
    [|injection H as <-; exact C].
  cbv zeta in H. injection H as <-.
  eapply calm_trans; [exact C|].
  set (w3 := set_currentSection _ w2).
  assert (C3 : calm w2 w3).
  { subst w3. apply calm_same; frame. }
  eapply calm_trans; [exact C3|].
  set (w4 := if _ && _ then hideHologramContent _ w3 else w3).
  assert (C4 : calm w3 w4).
  { subst w4. destruct (_ && _);
      [apply setHologramContent_calm|apply calm_refl]. }
  eapply calm_trans; [exact C4|].
  apply calm_same; frame.
  injection Hcb as <-. repeat split; auto.
Qed.

Lemma returnToDefaultView_calm (w w' : World) :
  returnToDefaultView w = Some w' -> calm w w'.
Proof.
  unfold returnToDefaultView. intros H.
  destruct (autoClosePhoneHologram w) as [w1|] eqn:E1; [|discriminate].
  destruct (if robotInteractionMode w1 then deactivateRobotHelpMode w1
            else Some w1) as [w2|] eqn:E2; [|discriminate].
  assert (C : calm w w2).
  { apply closeOthers_calm. rewrite E1. exact E2. }
  injection H as <-. eapply calm_trans; [exact C|].
  eapply calm_trans;
    [|apply calm_same with
        (w := deactivateHologram
                (hideAllHologramContent (set_currentSection home w2)));
      frame].
  eapply calm_trans; [|apply deactivateHologram_calm].
  apply calm_same; unfold hideAllHologramContent; frame.
Qed.

Lemma navigateToSection_calm (section : SectionName) (w w' : World) :
  navigateToSection section w = Some w' -> calm w w'.
Proof.
  unfold navigateToSection. intros H.
  destruct (_ || _). { injection H as <-. apply calm_refl. }
  assert (C : calm w (set_currentSection section w)).
  { apply calm_same; frame. }
  destruct section; cbn [sectionToScreen] in H;
    try (eapply calm_trans; [exact C|];
         solve [ now apply returnToDefaultView_calm
               | eapply focusOnHologramScreen_calm; exact H ]).
  injection H as <-. apply calm_same; frame.
Qed.

Lemma robotButtonClick_calm (c : ClickInput) (w : World) (res : option World)
    (w' : World) :
  robotButtonClick c w = Some res -> res = Some w' -> calm w w'.
Proof.
  unfold robotButtonClick. intros H ->.
  repeat match type of H with
         | context [match ?x with _ => _ end] => destruct x eqn:?
         end;
    try discriminate H; injection H as H;
    now apply deactivateRobotHelpMode_calm.
Qed.

Lemma sceneClick_calm (c : ClickInput) (w w' : World) :
  sceneClick c w = Some w' -> calm w w'.
Proof.
  unfold sceneClick. intros H.
  destruct (hit_phone c); [now apply handlePhoneClick_calm|].
  destruct (if match phoneHologram w with Some v => v | None => false end
            then hit_phoneHologram c else None) as [[|]|].
  - now apply exitPhoneMode_calm.
  - injection H as <-. apply calm_refl.
  - destruct (existsb _ _); [now apply returnToDefaultView_calm|].
    destruct (hit_detailsButton c); [injection H as <-; apply calm_refl|].
    destruct (hit_hologramScreen c) as [i|];
      [|injection H as <-; apply calm_refl].
    destruct (negb _); [now apply focusOnHologramScreen_calm with i|].
    injection H as <-; apply calm_refl.
Qed.

Lemma onHologramClick_calm (now : Z) (c : ClickInput) (w w' : World) :
  onHologramClick now c w = Some w' -> calm w w'.
Proof.
  unfold onHologramClick. intros H.
  destruct (negb (isLoaded w)); [injection H as <-; apply calm_refl|].
  destruct (Qltb _ _); [injection H as <-; apply calm_refl|].
  destruct (if robotInteractionMode w then robotButtonClick c w else None)
    as [res|] eqn:Eb.
  - destruct (robotInteractionMode w); [|discriminate].
    now apply (robotButtonClick_calm c w res w').
  - destruct (_ && _); [|now apply (sceneClick_calm c)].
    destruct (autoClosePhoneHologram w) as [w1|] eqn:E1; [|discriminate].
    injection H as <-. eapply calm_trans.
    + eapply autoClosePhoneHologram_calm; eauto.
    + apply activateRobotHelpMode_calm.
Qed.

(** ** No handler throws in a sound world *)

Lemma calm_sound (w w' : World) : calm w w' -> sound w -> sound w'.
Proof.
  intros (R & _ & _ & _ & [S U]) [[r Hr] Hp]. split.
  - unfold robotUndisturbed in R. rewrite Hr in R.
    destruct (objects_robot w') as [r'|]; [eauto|contradiction].
  - intros H. destruct (U H); auto.
Qed.

Lemma exitPhoneMode_total (w : World) :
  savedPose w -> exists w', exitPhoneMode w = Some w'.
Proof.
  intros (p & t & Hp & Ht). unfold exitPhoneMode.
  destruct (phoneHologram (set_phoneInteractionMode false w)); fields;
    rewrite Hp, Ht; eauto.
Qed.

Lemma handlePhoneClick_total (w : World) :
  sound w -> exists w', handlePhoneClick w = Some w'.
Proof.
  intros [_ Hp]. unfold handlePhoneClick.
  destruct (phoneInteractionMode w) eqn:Em; [|eauto].
  apply exitPhoneMode_total, Hp. now left.
Qed.

Lemma autoClosePhoneHologram_total (w : World) :
  sound w -> exists w', autoClosePhoneHologram w = Some w'.
Proof.
  intros [_ Hp]. unfold autoClosePhoneHologram.
  destruct (phoneInteractionMode w) eqn:Em; cbn [andb]; [|eauto].
  destruct (match phoneHologram w with Some v => v | None => false end);
    [|eauto].
  apply exitPhoneMode_total, Hp. now left.
Qed.

Lemma deactivateRobotHelpMode_total (w : World) :
  sound w -> exists w', deactivateRobotHelpMode w = Some w'.
Proof.
  intros [[r Hr] _]. unfold deactivateRobotHelpMode.
  destruct (negb (robotInteractionMode w)); [eauto|].
  fields. rewrite Hr. eauto.
Qed.

Lemma closeOthers_total (w : World) :
  sound w ->
  exists w2,
    (w1 <- autoClosePhoneHologram w ;;
     (if robotInteractionMode w1 then deactivateRobotHelpMode w1
      else Some w1))
    = Some w2.
Proof.
  intros Hs. destruct (autoClosePhoneHologram_total w Hs) as [w1 E1].
  rewrite E1. destruct (robotInteractionMode w1); [|eauto].
  apply deactivateRobotHelpMode_total.
  apply (calm_sound w w1); [|exact Hs].
  now apply autoClosePhoneHologram_calm.
Qed.

Lemma focusOnHologramScreen_total (i : Z) (w : World) :
  sound w -> exists w', focusOnHologramScreen i w = Some w'.
Proof.
  intros Hs. unfold focusOnHologramScreen.
  destruct (closeOthers_total w Hs) as [w2 E2].
  destruct (autoClosePhoneHologram w) as [w1|]; [|discriminate].
  rewrite E2. destruct (screenInRange _ _); eauto.
Qed.

Lemma returnToDefaultView_total (w : World) :
  sound w -> exists w', returnToDefaultView w = Some w'.
Proof.
  intros Hs. unfold returnToDefaultView.
  destruct (closeOthers_total w Hs) as [w2 E2].
  destruct (autoClosePhoneHologram w) as [w1|]; [|discriminate].
  rewrite E2. eauto.
Qed.

Lemma set_currentSection_sound (section : SectionName) (w : World) :
  sound w -> sound (set_currentSection section w).
Proof. intros Hs. exact Hs. Qed.

Lemma navigateToSection_total (section : SectionName) (w : World) :
  sound w -> exists w', navigateToSection section w = Some w'.
Proof.
  intros Hs. unfold navigateToSection.
  destruct (_ || _); [eauto|].
  pose proof (set_currentSection_sound section w Hs) as Hs1.
  destruct section; cbn [sectionToScreen]; eauto;
    solve [ now apply returnToDefaultView_total
          | now apply focusOnHologramScreen_total ].
Qed.

Lemma sceneClick_total (c : ClickInput) (w : World) :
  sound w -> exists w', sceneClick c w = Some w'.
Proof.
  intros Hs. unfold sceneClick.
  destruct (hit_phone c); [now apply handlePhoneClick_total|].
  destruct (phoneHologram w) as [[|]|] eqn:Eh.
  - destruct (hit_phoneHologram c) as [[|]|]; [|eauto|].
    + apply exitPhoneMode_total. destruct Hs as [_ Hp]. apply Hp.
      right; left. exact Eh.
    + destruct (existsb _ _); [now apply returnToDefaultView_total|].
      destruct (hit_detailsButton c); [eauto|].
      destruct (hit_hologramScreen c) as [i|]; [|eauto].
      destruct (negb _); [now apply focusOnHologramScreen_total|eauto].
  - destruct (existsb _ _); [now apply returnToDefaultView_total|].
    destruct (hit_detailsButton c); [eauto|].
    destruct (hit_hologramScreen c) as [i|]; [|eauto].
    destruct (negb _); [now apply focusOnHologramScreen_total|eauto].
  - destruct (existsb _ _); [now apply returnToDefaultView_total|].
    destruct (hit_detailsButton c); [eauto|].
    destruct (hit_hologramScreen c) as [i|]; [|eauto].
    destruct (negb _); [now apply focusOnHologramScreen_total|eauto].
Qed.

Lemma onHologramClick_total (now : Z) (c : ClickInput) (w : World) :
  sound w -> exists w', onHologramClick now c w = Some w'.
Proof.
  intros Hs. unfold onHologramClick.
  destruct (negb (isLoaded w)); [eauto|].
  destruct (Qltb _ _); [eauto|].
  destruct (deactivateRobotHelpMode_total w Hs) as [wd Ed].
  destruct (robotInteractionMode w) eqn:Em.
  - unfold robotButtonClick. rewrite Ed.
    destruct (objects_robot w) as [r|]; [|now apply sceneClick_total].
    destruct (hit_robotParts c) as [[| |]|]; eauto;
      (destruct (hit_helpText c); [eauto|]);
      (destruct (_ && _); [eauto|]);
      (destruct (_ && _); [eauto|]);
      now apply sceneClick_total.
  - cbn [negb andb].
    destruct (match objects_robot w with
              | Some _ => hit_robot c | None => false end);
      [|now apply sceneClick_total].
    destruct (autoClosePhoneHologram_total w Hs) as [w1 ->]. eauto.
Qed.

(** ** Frames, tweens and timers *)

Lemma Forall_removeNth {A : Type} (P : A -> Prop) (k : nat) (l : list A) :
  Forall P l -> Forall P (removeNth k l).
Proof.
  revert k. induction l as [|x l IH]; intros k H; [destruct k; exact H|].
  inversion H as [|? ? Hx Hl]; subst.
  destruct k; simpl; [exact Hl|]. constructor; auto.
Qed.

Section Coordinator.

Variable random : nat -> Q.
Variable js_sqrt : Q -> Q.
Variable js_atan2 : Q -> Q -> Q.

Lemma updateRobotMovement_fields (now : Z) (w : World) :
  let w' := updateRobotMovement random js_sqrt js_atan2 now w in
  robotInteractionMode w' = robotInteractionMode w
  /\ isHologramActive w' = isHologramActive w
  /\ tweens w' = tweens w
  /\ obstacles w' = obstacles w
  /\ camera_position w' = camera_position w
  /\ controls_target w' = controls_target w
  /\ robotHelpModeStartTime w' = robotHelpModeStartTime w
  /\ (robotInteractionMode w = true -> w' = w)
  /\ (forall r, objects_robot w = Some r ->
      robotInteractionMode w = false ->
      objects_robot w'
      = Some (fst (updateRobot random js_sqrt js_atan2 (obstacles w) now r
                     (randomCalls w)))).
Proof.
  unfold updateRobotMovement.
  destruct (objects_robot w) as [r|]; [|repeat split; auto; discriminate].
  destruct (robotInteractionMode w) eqn:Em;
    [repeat split; auto; discriminate|].
  destruct (updateRobot _ _ _ _ _ _ _) as [r' cur'] eqn:Eu. fields.
  repeat split; auto; try discriminate.
  intros r0 [= <-] _. now rewrite Eu.
Qed.

Lemma trackActiveHologram_calm (w : World) :
  calm w (trackActiveHologram js_sqrt w).
Proof.
  unfold trackActiveHologram.
  destruct (_ && _); [|apply calm_refl].
  destruct (isCameraTargetOnHologram _ _ _);
    [apply calm_refl|apply deactivateHologram_calm].
Qed.

Lemma trackActiveHologram_robot (w : World) :
  objects_robot (trackActiveHologram js_sqrt w) = objects_robot w.
Proof.
  unfold trackActiveHologram.
  destruct (_ && _); [|reflexivity].
  destruct (isCameraTargetOnHologram _ _ _); [reflexivity|].
  unfold deactivateHologram, hideHologramContent, setHologramContent.
  destruct (0 <=? _)%Z; [destruct (screenInRange _ _)|]; reflexivity.
Qed.

Lemma autoCloseRobotHelp_calm (now : Z) (w w' : World) :
  autoCloseRobotHelp js_sqrt now w = Some w' -> calm w w'.
Proof.
  unfold autoCloseRobotHelp. intros H.
  destruct (robotInteractionMode w); [|injection H as <-; apply calm_refl].
  destruct (shouldAutoCloseRobotHelp _ _ _);
    [now apply deactivateRobotHelpMode_calm|].
  injection H as <-; apply calm_refl.
Qed.

(** What completing a tween can do to the tracking flag. *)
Lemma completeTween_tracking (k : nat) (w : World) :
  objects_robot (completeTween k w) = objects_robot w
  /\ entryTweensKept w (completeTween k w)
  /\ (isHologramActive (completeTween k w) = isHologramActive w
      \/ exists t screenIndex,
           nth_error (tweens w) k = Some t
           /\ tw_onComplete t = CbActivateTracking screenIndex).
Proof.
  unfold completeTween.
  destruct (nth_error (tweens w) k) as [t|] eqn:Et.
  2:{ repeat split; auto. unfold entryTweensKept; auto. }
  assert (K : forall w0, tweens w0 = removeNth k (tweens w) ->
                         entryTweensKept w w0).
  { intros w0 E0. unfold entryTweensKept. rewrite E0.
    apply Forall_removeNth. }
  destruct (tw_onComplete t) eqn:Ecb; cbn [runCallback];
    destruct (tw_target t); fields;
    unfold showHologramContent, setHologramContent;
    try destruct (screenInRange _ _); fields;
    (split; [reflexivity|]); (split; [apply K; reflexivity|]);
    eauto.
Qed.

Lemma fireTimer_fields (now : Z) (k : nat) (w : World) :
  let w' := fireTimer now k w in
  isHologramActive w' = isHologramActive w
  /\ tweens w' = tweens w
  /\ (objects_robot w' = objects_robot w
      \/ exists r,
           objects_robot w = Some r
           /\ objects_robot w'
              = Some (set_lastDirectionChange (now - 4000)%Z r)).
Proof.
  unfold fireTimer.
  destruct (nth_error (timers w) k) as [t|]; [|auto].
  destruct (tm_callback t) as [| |[]]; cbn [runTimer]; fields; auto.
  destruct (negb (robotInteractionMode w)); fields; auto.
  destruct (objects_robot w) as [r|] eqn:Er; fields; eauto 6.
Qed.

(** What one event can do to the robot: a frame outside help mode runs
    [updateRobot]; the timer set on leaving help mode rewinds the clock;
    everything else leaves the robot undisturbed. *)
Lemma step_robot (now : Z) (e : Event) (w w' : World) (r : Robot) :
  step random js_sqrt js_atan2 now e w = Some w' ->
  objects_robot w = Some r ->
  (e = Frame /\ robotInteractionMode w = false
   /\ objects_robot w'
      = Some (fst (updateRobot random js_sqrt js_atan2 (obstacles w) now r
                     (randomCalls w))))
  \/ (robotUndisturbed w w' /\ (e = Frame -> robotInteractionMode w = true))
  \/ (exists k,
        e = TimerFire k
        /\ objects_robot w' = Some (set_lastDirectionChange (now - 4000)%Z r)).
Proof.
  intros H Hr. destruct e; cbn [step] in H.
  - right; left. split; [|discriminate].
    now apply (onHologramClick_calm now c).
  - right; left. split; [|discriminate].
    now apply (navigateToSection_calm section).
  - right; left. split; [|discriminate].
    destruct (isHologramActive w); injection H as <-;
      [apply deactivateHologram_calm|apply calm_refl].
  - unfold animate in H.
    destruct (updateRobotMovement_fields now w)
      as (Hm & _ & _ & _ & _ & _ & _ & Hsame & Hupd).
    destruct (autoCloseRobotHelp js_sqrt now _) as [w2|] eqn:E2;
      [|discriminate].
    injection H as <-.
    pose proof (trackActiveHologram_calm w2) as [T _].
    destruct (robotInteractionMode w) eqn:Emode.
    + right; left. split; [|reflexivity]. rewrite (Hsame eq_refl) in E2.
      apply autoCloseRobotHelp_calm in E2. destruct E2 as [R2 _].
      eapply robotUndisturbed_trans; eauto.
    + left. split; [reflexivity|]. split; [reflexivity|].
      unfold autoCloseRobotHelp in E2. rewrite Hm in E2.
      injection E2 as <-.
      rewrite trackActiveHologram_robot. now apply Hupd.
  - right; left. split; [|discriminate]. injection H as <-.
    apply robotUndisturbed_same. fields. reflexivity.
  - right; left. split; [|discriminate]. injection H as <-.
    apply robotUndisturbed_same. apply completeTween_tracking.
  - injection H as <-.
    destruct (fireTimer_fields now k w) as (_ & _ & [Hs|(r0 & Hr0 & Hs)]).
    + right; left. split; [|discriminate]. now apply robotUndisturbed_same.
    + right; right. exists k. split; [reflexivity|]. congruence.
Qed.


Lemma updateRobotMovement_sound (now : Z) (w : World) :
  sound w -> sound (updateRobotMovement random js_sqrt js_atan2 now w).
Proof.
  intros [[r Hr] Hp]. unfold updateRobotMovement. rewrite Hr.
  destruct (robotInteractionMode w); [split; eauto|].
  destruct (updateRobot _ _ _ _ _ _ _) as [r' cur']. split.
  - fields. eauto.
  - exact Hp.
Qed.

Lemma Exists_removeNth {A : Type} (P : A -> Prop) (k : nat) (l : list A) :
  Exists P (removeNth k l) -> Exists P l.
Proof.
  revert k. induction l as [|x l IH]; intros k H; [destruct k; exact H|].
  destruct k; simpl in H; [now apply Exists_cons_tl|].
  inversion H as [? ? Hx|? ? Hl]; subst;
    [now apply Exists_cons_hd|apply Exists_cons_tl; eauto].
Qed.

Lemma completeTween_sound (k : nat) (w : World) :
  sound w -> sound (completeTween k w).
Proof.
  intros [[r Hr] Hp]. unfold completeTween.
  destruct (nth_error (tweens w) k) as [t|] eqn:Et; [|split; eauto].
  assert (Hin : Exists showsPhone (removeNth k (tweens w)) -> phoneUsed w).
  { intros H. right; right. now apply Exists_removeNth with k. }
  assert (Hcb : tw_onComplete t = CbShowPhoneHologram -> phoneUsed w).
  { intros H. right; right. apply Exists_exists. exists t.
    split; [now apply nth_error_In with k|exact H]. }
  destruct (tw_onComplete t) eqn:Ecb; cbn [runCallback];
    destruct (tw_target t); fields;
    unfold showHologramContent, setHologramContent;
    try destruct (screenInRange _ _); fields;
    (split; [eauto|]);
    intros [H|[H|H]]; fields; apply Hp;
    solve [ now left | right; left; exact H | now apply Hin
          | now apply Hcb ].
Qed.

Lemma completeTween_obstacles (k : nat) (w : World) :
  obstacles (completeTween k w) = obstacles w.
Proof.
  unfold completeTween.
  destruct (nth_error (tweens w) k) as [t|]; [|reflexivity].
  destruct (tw_onComplete t); cbn [runCallback];
    destruct (tw_target t); fields;
    unfold showHologramContent, setHologramContent;
    try destruct (screenInRange _ _); reflexivity.
Qed.

Lemma fireTimer_sound (now : Z) (k : nat) (w : World) :
  sound w ->
  sound (fireTimer now k w) /\ obstacles (fireTimer now k w) = obstacles w.
Proof.
  intros [[r Hr] Hp]. unfold fireTimer.
  destruct (nth_error (timers w) k) as [t|]; [|repeat split; eauto].
  destruct (tm_callback t) as [| |[]]; cbn [runTimer];
    try destruct (negb (robotInteractionMode _));
    fields; try rewrite Hr;
    (split; [split; [fields; eauto|exact Hp]|reflexivity]).
Qed.

Lemma animate_total (now : Z) (w : World) :
  sound w -> exists w', animate random js_sqrt js_atan2 now w = Some w'.
Proof.
  intros Hs. unfold animate, autoCloseRobotHelp.
  pose proof (updateRobotMovement_sound now w Hs) as Hs1.
  destruct (robotInteractionMode _); [|eauto].
  destruct (shouldAutoCloseRobotHelp _ _ _); [|eauto].
  destruct (deactivateRobotHelpMode_total _ Hs1) as [w2 ->]. eauto.
Qed.

(** In a sound world no event makes its handler throw. *)
Lemma step_total (now : Z) (e : Event) (w : World) :
  sound w -> exists w', step random js_sqrt js_atan2 now e w = Some w'.
Proof.
  intros Hs. destruct e; cbn [step]; eauto.
  - now apply onHologramClick_total.
  - now apply navigateToSection_total.
  - destruct (isHologramActive w); eauto.
  - now apply animate_total.
Qed.

(** Every event keeps the world sound and the obstacles what they are. *)
Lemma step_sound (now : Z) (e : Event) (w w' : World) :
  step random js_sqrt js_atan2 now e w = Some w' ->
  sound w ->
  sound w' /\ obstacles w' = obstacles w.
Proof.
  intros H Hs.
  assert (C : forall w0 w1, calm w0 w1 -> sound w0 ->
                            sound w1 /\ obstacles w1 = obstacles w0).
  { intros w0 w1 Hc H0. split; [now apply (calm_sound w0)|apply Hc]. }
  destruct e; cbn [step] in H.
  - apply (C w w'); [|exact Hs]. now apply (onHologramClick_calm now c).
  - apply (C w w'); [|exact Hs]. now apply (navigateToSection_calm section).
  - apply (C w w'); [|exact Hs].
    destruct (isHologramActive w); injection H as <-;
      [apply deactivateHologram_calm|apply calm_refl].
  - unfold animate in H.
    pose proof (updateRobotMovement_sound now w Hs) as Hs1.
    destruct (updateRobotMovement_fields now w) as (_ & _ & _ & Ho & _).
    destruct (autoCloseRobotHelp js_sqrt now _) as [w2|] eqn:E2;
      [|discriminate].
    injection H as <-.
    apply autoCloseRobotHelp_calm in E2.
    destruct (C _ _ E2 Hs1) as [Hs2 Ho2].
    destruct (C _ _ (trackActiveHologram_calm w2) Hs2) as [Hs3 Ho3].
    split; [exact Hs3|congruence].
  - injection H as <-. split; [exact Hs|reflexivity].
  - injection H as <-.
    split; [now apply completeTween_sound|apply completeTween_obstacles].
  - injection H as <-. now apply fireTimer_sound.
Qed.

(** Every event keeps the robot clear of the obstacles. *)
Lemma step_robotFree (now : Z) (e : Event) (w w' : World) :
  step random js_sqrt js_atan2 now e w = Some w' ->
  sound w -> robotFree w -> robotFree w'.
Proof.
  intros H Hs Hfree r' Hr'.
  destruct (step_sound now e w w' H Hs) as [_ Ho]. rewrite Ho.
  destruct Hs as [[r Hr] _]. specialize (Hfree r Hr).
  destruct (step_robot now e w w' r H Hr)
    as [(He & Hm & Hu)|[[Hu Hf]|(k & He & Hu)]].
  - rewrite Hu in Hr'. injection Hr' as <-.
    destruct (updateRobot_position_cases random js_sqrt js_atan2
                (obstacles w) now r (randomCalls w)) as [Hp|Hp];
      [rewrite Hp; exact Hfree|exact Hp].
  - unfold robotUndisturbed in Hu. rewrite Hr, Hr' in Hu.
    destruct Hu as (Hp & _). rewrite Hp. exact Hfree.
  - rewrite Hu in Hr'. injection Hr' as <-. exact Hfree.
Qed.

Lemma loadedWorld_sound : sound (loadedWorld random).
Proof.
  unfold loadedWorld. destruct (createRobot _ _ _) as [r cur]. split.
  - fields. eauto.
  - intros [H|[H|H]]; fields; try discriminate. inversion H.
Qed.

Lemma loadedWorld_robotFree : robotFree (loadedWorld random).
Proof.
  unfold loadedWorld, createRobot.
  pose proof (findValidPosition_outcome random constructorObstacles
                (-25) 20 defaultMaxAttempts 0) as O.
  destruct (findValidPosition _ _ _ _ _ _) as [[x z] cur].
  intros r Hr. fields. injection Hr as <-. fields.
  destruct O as [i _ _ Hfree Hres _|_ Hres _]; cbn [fst snd] in Hres.
  - unfold candidateBlocked in Hfree. rewrite <- Hres in Hfree. exact Hfree.
  - injection Hres as -> ->. reflexivity.
Qed.

(** Whatever happens, the world stays sound, the obstacles stay those of
    the constructor and the robot stays clear of them. *)
Lemma reachable_invariant (w : World) :
  reachable random js_sqrt js_atan2 w ->
  sound w /\ obstacles w = constructorObstacles /\ robotFree w.
Proof.
  intros [events H].
  assert (G : forall w0 w1,
             run random js_sqrt js_atan2 events w0 = Some w1 ->
             sound w0 /\ obstacles w0 = constructorObstacles /\ robotFree w0 ->
             sound w1 /\ obstacles w1 = constructorObstacles /\ robotFree w1).
  { clear. induction events as [|[now e] rest IH]; intros w0 w1 H Hinv.
    - injection H as <-. exact Hinv.
    - cbn [run] in H.
      destruct (step random js_sqrt js_atan2 now e w0) as [w2|] eqn:E;
        [|discriminate].
      destruct Hinv as (Hs & Ho & Hf).
      destruct (step_sound now e w0 w2 E Hs) as [Hs2 Ho2].
      apply (IH w2 w1 H). split; [exact Hs2|]. split; [congruence|].
      now apply (step_robotFree now e w0 w2 E). }
  apply (G _ _ H). split; [apply loadedWorld_sound|].
  split; [|apply loadedWorld_robotFree].
  unfold loadedWorld. now destruct (createRobot _ _ _).
Qed.

(** No handler of a reachable world throws: every event has an outcome. *)
Lemma handlers_never_throw (now : Z) (e : Event) (w : World) :
  reachable random js_sqrt js_atan2 w ->
  exists w', step random js_sqrt js_atan2 now e w = Some w'.
Proof.
  intros H. apply step_total. now apply reachable_invariant.
Qed.

(** The robot of a reachable world never stands in an obstacle or outside
    the scene boundary. *)
Lemma robot_stays_clear_of_obstacles (w : World) (r : Robot) :
  reachable random js_sqrt js_atan2 w ->
  objects_robot w = Some r ->
  checkCollision constructorObstacles (vx (position r)) (vz (position r))
    defaultRobotRadius = false.
Proof.
  intros H Hr. destruct (reachable_invariant w H) as (_ & Ho & Hf).
  rewrite <- Ho. now apply Hf.
Qed.

(** C3: whenever an event changes the robot's position, the event is a
    frame outside help mode and the new position is one that
    [checkCollision] reports free for the robot radius; and in a frame whose
    proposed next position is blocked the robot stays where it is and its
    target becomes a fresh draw of [findValidPosition]. *)
Theorem C3_committed_move_is_collision_free
    (now : Z) (e : Event) (w w' : World) (r r' : Robot) :
  step random js_sqrt js_atan2 now e w = Some w' ->
  objects_robot w = Some r ->
  objects_robot w' = Some r' ->
  (position r' <> position r ->
   e = Frame /\ robotInteractionMode w = false
   /\ checkCollision (obstacles w) (vx (position r')) (vz (position r'))
        defaultRobotRadius = false)
  /\ (e = Frame -> robotInteractionMode w = false ->
      let r1 := fst (retarget random (obstacles w) now r (randomCalls w)) in
      let cur1 := snd (retarget random (obstacles w) now r (randomCalls w)) in
      isMoving r1 = true ->
      Qltb 1 (distanceToTarget js_sqrt r1) = true ->
      checkCollision (obstacles w) (fst (nextPosition js_sqrt r1))
        (snd (nextPosition js_sqrt r1)) defaultRobotRadius = true ->
      position r' = position r
      /\ targetPosition r' = freshTarget random (obstacles w) r1 cur1).
Proof.
  intros H Hr Hr'.
  destruct (step_robot now e w w' r H Hr)
    as [(He & Hm & Hu)|[[Hu Hf]|(k & He & Hu)]].
  - rewrite Hu in Hr'. injection Hr' as <-.
    destruct (updateRobot_move_is_free random js_sqrt js_atan2
                (obstacles w) now r (randomCalls w)) as [A B].
    split; [intros Hmove; auto|intros _ _; exact B].
  - unfold robotUndisturbed in Hu. rewrite Hr, Hr' in Hu.
    destruct Hu as (Hp & _). split; [intros Hmove; contradiction|].
    intros He Hm. rewrite (Hf He) in Hm. discriminate.
  - rewrite Hu in Hr'. injection Hr' as <-. fields.
    split; [intros Hmove; now contradiction Hmove|].
    intros He'. rewrite He in He'. discriminate.
Qed.


(** C10: in a frame outside help mode, a robot that is already moving gets a
    fresh target from [findValidPosition] and a reset retarget clock as soon
    as the drawn interval has passed; nothing asks whether the old target
    was reached or blocked.  (The target at the end of the frame is that
    fresh one, unless the first step towards it is blocked and a second one
    is drawn.) *)
Theorem C10_retarget_while_moving (now : Z) (w : World) (r : Robot) :
  objects_robot w = Some r ->
  robotInteractionMode w = false ->
  isMoving r = true ->
  retargetDue random now r (randomCalls w) = true ->
  let r1 := fst (retarget random (obstacles w) now r (randomCalls w)) in
  let cur1 := snd (retarget random (obstacles w) now r (randomCalls w)) in
  exists w' r',
    step random js_sqrt js_atan2 now Frame w = Some w'
    /\ objects_robot w' = Some r'
    /\ lastDirectionChange r' = now
    /\ targetPosition r1
       = freshTarget random (obstacles w) r (S (randomCalls w))
    /\ isMoving r1 = true
    /\ (targetPosition r' = targetPosition r1
        \/ targetPosition r' = freshTarget random (obstacles w) r1 cur1).
Proof.
  intros Hr Hmode Hmoving Hdue r1 cur1.
  destruct (updateRobotMovement_fields now w)
    as (Hm & _ & _ & _ & _ & _ & _ & _ & Hupd).
  destruct (updateRobot_retarget_while_moving random js_sqrt js_atan2
              (obstacles w) now r (randomCalls w) Hmoving Hdue)
    as (A & _ & B & C & D).
  exists (trackActiveHologram js_sqrt
            (updateRobotMovement random js_sqrt js_atan2 now w)).
  exists (fst (updateRobot random js_sqrt js_atan2 (obstacles w) now r
                 (randomCalls w))).
  split.
  { cbn [step]. unfold animate, autoCloseRobotHelp.
    rewrite Hm, Hmode. reflexivity. }
  split; [rewrite trackActiveHologram_robot; now apply Hupd|].
  auto.
Qed.

Lemma trackActiveHologram_mode (w : World) :
  robotInteractionMode (trackActiveHologram js_sqrt w)
  = robotInteractionMode w.
Proof.
  unfold trackActiveHologram.
  destruct (_ && _); [|reflexivity].
  destruct (isCameraTargetOnHologram _ _ _); [reflexivity|].
  unfold deactivateHologram, hideHologramContent, setHologramContent.
  destruct (0 <=? _)%Z; [destruct (screenInRange _ _)|]; reflexivity.
Qed.

Lemma deactivateRobotHelpMode_leaves (w : World) (r : Robot) :
  objects_robot w = Some r ->
  robotInteractionMode w = true ->
  exists w',
    deactivateRobotHelpMode w = Some w'
    /\ robotInteractionMode w' = false
    /\ originalCameraPosition w' = originalCameraPosition w
    /\ originalCameraTarget w' = originalCameraTarget w
    /\ objects_robot w'
       = Some (set_isMoving false
                 (set_lastDirectionChange 0%Z
                    (set_noButton_visible false
                       (set_yesButton_visible false r)))).
Proof.
  intros Hr Hm. unfold deactivateRobotHelpMode. rewrite Hm. fields.
  rewrite Hr. eexists. split; [reflexivity|].
  destruct (originalCameraPosition w) eqn:Ep,
    (originalCameraTarget w) eqn:Et; fields; rewrite ?Ep, ?Et;
    repeat split; reflexivity.
Qed.

(** C5: in help mode every frame evaluates the auto-close policy.  The
    policy answers [true] exactly when at least 3000 ms have passed since
    the mode was entered and the camera is more than 25 units, or the orbit
    target more than 20 units, away from the robot; the frame leaves help
    mode exactly when the policy answers [true].  Entering the mode records
    the time of entry. *)
Theorem C5_auto_close_after_grace_period
    (now t0 : Z) (w : World) (r : Robot) :
  objects_robot w = Some r ->
  robotInteractionMode w = true ->
  robotHelpModeStartTime w = Some t0 ->
  (shouldAutoCloseRobotHelp js_sqrt now w = true <->
   (3000 <= now - t0)%Z
   /\ (25 < distanceTo js_sqrt (camera_position w) (position r)
       \/ 20 < distanceTo js_sqrt (controls_target w) (position r)))
  /\ (exists w',
        step random js_sqrt js_atan2 now Frame w = Some w'
        /\ robotInteractionMode w'
           = negb (shouldAutoCloseRobotHelp js_sqrt now w))
  /\ (forall t w0 r0,
        objects_robot w0 = Some r0 -> robotInteractionMode w0 = false ->
        robotInteractionMode (activateRobotHelpMode t w0) = true
        /\ robotHelpModeStartTime (activateRobotHelpMode t w0) = Some t).
Proof.
  intros Hr Hm Ht. split; [|split].
  - unfold shouldAutoCloseRobotHelp. rewrite Hr, Hm, Ht. cbn [negb].
    unfold gracePeriod, maxCameraDistance, maxTargetDistance.
    destruct (now - t0 <? 3000)%Z eqn:Eg.
    + apply Z.ltb_lt in Eg. split; [discriminate|]. intros [? _]. lia.
    + apply Z.ltb_ge in Eg.
      destruct (Qltb 25 _) eqn:Ec; destruct (Qltb 20 _) eqn:Et; cbn [orb];
        rewrite <- !Qltb_lt, ?Ec, ?Et; split; auto;
        try discriminate; intros [_ [?|?]]; discriminate.
  - destruct (updateRobotMovement_fields now w)
      as (_ & _ & _ & _ & _ & _ & _ & Hsame & _).
    cbn [step]. unfold animate. rewrite (Hsame Hm).
    unfold autoCloseRobotHelp. rewrite Hm.
    destruct (shouldAutoCloseRobotHelp js_sqrt now w).
    + destruct (deactivateRobotHelpMode_leaves w r Hr Hm)
        as (w' & -> & Hoff & _).
      eexists. split; [reflexivity|].
      now rewrite trackActiveHologram_mode.
    + eexists. split; [reflexivity|].
      now rewrite trackActiveHologram_mode.
  - intros t w0 r0 Hr0 Hm0. unfold activateRobotHelpMode.
    rewrite Hr0, Hm0. fields. auto.
Qed.





End Coordinator.

(** ** The saved camera pose *)

Lemma enterPhoneMode_saves (w : World) :
  let w' := enterPhoneMode w in
  originalCameraPosition w' = Some (camera_position w)
  /\ originalCameraTarget w' = Some (controls_target w)
  /\ (exists a b,
        tweens w' = (tweens w ++ [mkTween CameraPosition a 1.5 CbNone])
                    ++ [mkTween ControlsTarget b 1.5 CbShowPhoneHologram])
  /\ robotInteractionMode w' = robotInteractionMode w
  /\ objects_robot w' = objects_robot w.
Proof.
  unfold enterPhoneMode. fields. repeat split; eauto.
Qed.

Lemma activateRobotHelpMode_saves (now : Z) (w : World) (r : Robot) :
  objects_robot w = Some r ->
  robotInteractionMode w = false ->
  let w' := activateRobotHelpMode now w in
  originalCameraPosition w' = Some (camera_position w)
  /\ originalCameraTarget w' = Some (controls_target w)
  /\ (exists a b,
        tweens w' = (tweens w ++ [mkTween CameraPosition a 2 CbNone])
                    ++ [mkTween ControlsTarget b 2 CbNone])
  /\ robotInteractionMode w' = true
  /\ phoneHologram w' = phoneHologram w
  /\ (exists r', objects_robot w' = Some r').
Proof.
  intros Hr Hm. unfold activateRobotHelpMode. rewrite Hr, Hm. fields.
  repeat split; eauto.
Qed.

Lemma exitPhoneMode_restores (w : World) (p t : Vec3) :
  originalCameraPosition w = Some p ->
  originalCameraTarget w = Some t ->
  exists w',
    exitPhoneMode w = Some w'
    /\ tweens w'
       = (tweens w ++ [mkTween CameraPosition p 1.5 CbNone])
         ++ [mkTween ControlsTarget t 1.5 CbNone]
    /\ originalCameraPosition w' = Some p
    /\ originalCameraTarget w' = Some t.
Proof.
  intros Hp Ht. unfold exitPhoneMode.
  destruct (phoneHologram (set_phoneInteractionMode false w)); fields;
    rewrite Hp, Ht; eexists; repeat split; fields; auto.
Qed.

Lemma deactivateRobotHelpMode_restores (w : World) (r : Robot) (p t : Vec3) :
  objects_robot w = Some r ->
  robotInteractionMode w = true ->
  originalCameraPosition w = Some p ->
  originalCameraTarget w = Some t ->
  exists w',
    deactivateRobotHelpMode w = Some w'
    /\ tweens w'
       = (tweens w ++ [mkTween CameraPosition p 2 CbNone])
         ++ [mkTween ControlsTarget t 2 CbNone]
    /\ originalCameraPosition w' = Some p
    /\ originalCameraTarget w' = Some t.
Proof.
  intros Hr Hm Hp Ht. unfold deactivateRobotHelpMode. rewrite Hm. fields.
  rewrite Hr, Hp, Ht. eexists. repeat split; fields; auto.
Qed.

(** C9: [enterPhoneMode] and [activateRobotHelpMode] store the camera pose
    in the same two fields, whatever these hold; [exitPhoneMode] and
    [deactivateRobotHelpMode] animate the camera to the current content of
    the fields and do not clear them.  So a mode entered while the other
    one's pose is held overwrites it, and the exit that follows goes to the
    pose saved last. *)
Theorem C9_saved_pose_is_shared_and_kept
    (now : Z) (w : World) (r : Robot) (p t : Vec3) :
  objects_robot w = Some r ->
  originalCameraPosition w = Some p ->
  originalCameraTarget w = Some t ->
  (originalCameraPosition (enterPhoneMode w) = Some (camera_position w)
   /\ originalCameraTarget (enterPhoneMode w) = Some (controls_target w))
  /\ (robotInteractionMode w = false ->
      originalCameraPosition (activateRobotHelpMode now w)
      = Some (camera_position w)
      /\ originalCameraTarget (activateRobotHelpMode now w)
         = Some (controls_target w))
  /\ (exists w',
        exitPhoneMode w = Some w'
        /\ tweens w'
           = (tweens w ++ [mkTween CameraPosition p 1.5 CbNone])
             ++ [mkTween ControlsTarget t 1.5 CbNone]
        /\ originalCameraPosition w' = Some p
        /\ originalCameraTarget w' = Some t)
  /\ (robotInteractionMode w = true ->
      exists w',
        deactivateRobotHelpMode w = Some w'
        /\ tweens w'
           = (tweens w ++ [mkTween CameraPosition p 2 CbNone])
             ++ [mkTween ControlsTarget t 2 CbNone]
        /\ originalCameraPosition w' = Some p
        /\ originalCameraTarget w' = Some t)
  /\ (robotInteractionMode w = true ->
      exists w',
        deactivateRobotHelpMode (enterPhoneMode w) = Some w'
        /\ tweens w'
           = (tweens (enterPhoneMode w)
              ++ [mkTween CameraPosition (camera_position w) 2 CbNone])
             ++ [mkTween ControlsTarget (controls_target w) 2 CbNone])
  /\ (robotInteractionMode w = false ->
      exists w',
        exitPhoneMode (activateRobotHelpMode now w) = Some w'
        /\ tweens w'
           = (tweens (activateRobotHelpMode now w)
              ++ [mkTween CameraPosition (camera_position w) 1.5 CbNone])
             ++ [mkTween ControlsTarget (controls_target w) 1.5 CbNone]).
Proof.
  intros Hr Hp Ht.
  destruct (enterPhoneMode_saves w) as (Ep & Et & _ & Em & Er).
  split; [auto|]. split; [|split; [|split; [|split]]].
  - intros Hm. destruct (activateRobotHelpMode_saves now w r Hr Hm); tauto.
  - now apply exitPhoneMode_restores.
  - intros Hm. now apply (deactivateRobotHelpMode_restores w r).
  - intros Hm.
    destruct (deactivateRobotHelpMode_restores (enterPhoneMode w) r
                (camera_position w) (controls_target w))
      as (w' & Hd & Htw & _); try congruence.
    exists w'. auto.
  - intros Hm.
    destruct (activateRobotHelpMode_saves now w r Hr Hm) as (Ap & At & _).
    destruct (exitPhoneMode_restores (activateRobotHelpMode now w)
                (camera_position w) (controls_target w) Ap At)
      as (w' & Hd & Htw & _).
    exists w'. auto.
Qed.

(** Completing the oldest pending tween puts its end value on its target;
    no callback touches the camera, the modes, the robot or the saved
    pose. *)
Lemma completeTween_head (t : Tween) (rest : list Tween) (w : World) :
  tweens w = t :: rest ->
  let w' := completeTween 0 w in
  tweens w' = rest
  /\ camera_position w'
     = match tw_target t with
       | CameraPosition => tw_to t
       | ControlsTarget => camera_position w
       end
  /\ controls_target w'
     = match tw_target t with
       | CameraPosition => controls_target w
       | ControlsTarget => tw_to t
       end
  /\ phoneInteractionMode w' = phoneInteractionMode w
  /\ robotInteractionMode w' = robotInteractionMode w
  /\ originalCameraPosition w' = originalCameraPosition w
  /\ originalCameraTarget w' = originalCameraTarget w
  /\ objects_robot w' = objects_robot w.
Proof.
  intros H. unfold completeTween. rewrite H. cbn [nth_error removeNth].
  destruct (tw_target t), (tw_onComplete t); cbn [runCallback];
    unfold showHologramContent, setHologramContent;
    try destruct (screenInRange _ _); fields; repeat split; reflexivity.
Qed.

(** Both tweens of a camera animation have ended. *)
Lemma settle_pair (p t : Vec3) (d1 d2 : Q) (c1 c2 : Callback) (w : World) :
  tweens w = [mkTween CameraPosition p d1 c1; mkTween ControlsTarget t d2 c2] ->
  tweens (settle w) = []
  /\ camera_position (settle w) = p
  /\ controls_target (settle w) = t
  /\ phoneInteractionMode (settle w) = phoneInteractionMode w
  /\ robotInteractionMode (settle w) = robotInteractionMode w
  /\ originalCameraPosition (settle w) = originalCameraPosition w
  /\ originalCameraTarget (settle w) = originalCameraTarget w
  /\ objects_robot (settle w) = objects_robot w.
Proof.
  intros H. unfold settle. rewrite H. cbn [length completeTweens].
  destruct (completeTween_head _ _ w H)
    as (T1 & C1 & G1 & P1 & M1 & O1 & Q1 & R1).
  destruct (completeTween_head _ _ _ T1)
    as (T2 & C2 & G2 & P2 & M2 & O2 & Q2 & R2).
  cbn [tw_target tw_to] in *.
  repeat split; congruence.
Qed.




Lemma C9_saved_pose_witness :
  exists w',
    deactivateRobotHelpMode
      (enterPhoneMode (moveCamera farAway farAway helpWorld))
    = Some w'
    /\ tweens w'
       = (tweens (enterPhoneMode (moveCamera farAway farAway helpWorld))
          ++ [mkTween CameraPosition farAway 2 CbNone])
         ++ [mkTween ControlsTarget farAway 2 CbNone].
Proof.
  refine (proj1 (proj2 (proj2 (proj2 (proj2
    (C9_saved_pose_is_shared_and_kept 2000
       (moveCamera farAway farAway helpWorld) (robotOf helpWorld)
       (mkVec3 5 5 5) (mkVec3 0 0 0) _ _ _))))) _);
    reflexivity.
Defined.



(** ** Two modes at once *)

(** C1 fails on the code: a click on the robot followed by a click on the
    phone leaves both the help mode and the phone mode active. *)
Theorem C1_help_and_phone_mode_overlap :
  exists w,
    run centreRandom sampleSqrt sampleAtan2
      [(1000%Z, Click clickRobot); (1500%Z, Click clickPhone)]
      (loadedWorld centreRandom)
    = Some w
    /\ agentHelp w = true /\ deviceFocus w = true
    /\ activeModes w = 2%nat.
Proof.
  eexists. split; [vm_compute; reflexivity|]. repeat split.
Qed.

(** The same with a focused panel: a click on the robot enters help mode
    and leaves the panel focused and tracking. *)
Example focus_and_help_mode_overlap :
  exists w,
    run centreRandom sampleSqrt sampleAtan2
      [(1000%Z, Click (clickScreen 0)); (3000%Z, TweenComplete 0);
       (3000%Z, TweenComplete 0); (4000%Z, Click clickRobot)]
      (loadedWorld centreRandom)
    = Some w
    /\ hologramFocus w = true /\ isHologramActive w = true
    /\ agentHelp w = true /\ activeModes w = 2%nat.
Proof.
  eexists. split; [vm_compute; reflexivity|]. repeat split.
Qed.

(** Entering a hologram focus does close the other two modes. *)
Example focus_closes_help_and_phone_mode :
  exists w,
    run centreRandom sampleSqrt sampleAtan2
      [(1000%Z, Click clickRobot); (1500%Z, Click clickPhone);
       (3000%Z, TweenComplete 3); (4000%Z, Click (clickScreen 2))]
      (loadedWorld centreRandom)
    = Some w
    /\ hologramFocus w = true /\ agentHelp w = false
    /\ deviceFocus w = false /\ activeModes w = 1%nat.
Proof.
  eexists. split; [vm_compute; reflexivity|]. repeat split.
Qed.

(** ** The theorems at concrete inputs *)

Lemma C3_committed_move_witness :
  (Frame = Frame /\ robotInteractionMode
                      (sceneWith walkingRobot defaultCameraPosition
                         defaultCameraTarget) = false
   /\ checkCollision constructorObstacles
        (vx (position (robotOf (frameAt 10000
           (sceneWith walkingRobot defaultCameraPosition
              defaultCameraTarget)))))
        (vz (position (robotOf (frameAt 10000
           (sceneWith walkingRobot defaultCameraPosition
              defaultCameraTarget)))))
        defaultRobotRadius = false)
  /\ position (robotOf (frameAt 10000
       (sceneWith blockedRobot defaultCameraPosition defaultCameraTarget)))
     = position blockedRobot.
Proof.
  split.
  - refine (proj1 (C3_committed_move_is_collision_free
                     cornerRandom sampleSqrt sampleAtan2 10000 Frame
                     (sceneWith walkingRobot defaultCameraPosition
                        defaultCameraTarget)
                     (frameAt 10000
                        (sceneWith walkingRobot defaultCameraPosition
                           defaultCameraTarget))
                     walkingRobot _ _ _ _) _).
    + vm_compute; reflexivity.
    + reflexivity.
    + reflexivity.
    + vm_compute. discriminate.
  - refine (proj1 (proj2 (C3_committed_move_is_collision_free
                     cornerRandom sampleSqrt sampleAtan2 10000 Frame
                     (sceneWith blockedRobot defaultCameraPosition
                        defaultCameraTarget)
                     (frameAt 10000
                        (sceneWith blockedRobot defaultCameraPosition
                           defaultCameraTarget))
                     blockedRobot _ _ _ _) _ _ _ _ _)).
    + vm_compute; reflexivity.
    + reflexivity.
    + reflexivity.
    + reflexivity.
    + reflexivity.
    + reflexivity.
    + vm_compute; reflexivity.
    + vm_compute; reflexivity.
Defined.


Lemma C10_retarget_while_moving_witness :
  exists w' r',
    step cornerRandom sampleSqrt sampleAtan2 15000 Frame
      (sceneWith walkingRobot defaultCameraPosition defaultCameraTarget)
    = Some w'
    /\ objects_robot w' = Some r'
    /\ lastDirectionChange r' = 15000%Z.
Proof.
  destruct (C10_retarget_while_moving
              cornerRandom sampleSqrt sampleAtan2 15000
              (sceneWith walkingRobot defaultCameraPosition
                 defaultCameraTarget)
              walkingRobot eq_refl eq_refl eq_refl eq_refl)
    as (w' & r' & A & B & C & _).
  exists w', r'. auto.
Defined.

Lemma C5_auto_close_witness :
  (shouldAutoCloseRobotHelp sampleSqrt 5000
     (moveCamera farAway farAway helpWorld) = true <->
   (3000 <= 5000 - 1000)%Z
   /\ (25 < distanceTo sampleSqrt farAway (position (robotOf helpWorld))
       \/ 20 < distanceTo sampleSqrt farAway (position (robotOf helpWorld))))
  /\ (exists w',
        step cornerRandom sampleSqrt sampleAtan2 5000 Frame
          (moveCamera farAway farAway helpWorld) = Some w'
        /\ robotInteractionMode w'
           = negb (shouldAutoCloseRobotHelp sampleSqrt 5000
                     (moveCamera farAway farAway helpWorld))).
Proof.
  destruct (C5_auto_close_after_grace_period
              cornerRandom sampleSqrt sampleAtan2 5000 1000
              (moveCamera farAway farAway helpWorld) (robotOf helpWorld)
              eq_refl eq_refl eq_refl)
    as (A & B & _).
  split; [exact A|exact B].
Defined.



(** * Properties of the other classes *)

(** ** Frame-rate monitoring *)

Section Monitoring.

Import PerformanceManager.

Lemma Math_min_le_r (a b : Q) : Math_min a b <= b.
Proof.
  unfold Math_min. destruct (Qle_bool a b) eqn:E.
  - now apply Qle_bool_iff.
  - apply Qle_refl.
Qed.

Lemma Math_min_le_l (a b : Q) : Math_min a b <= a.
Proof.
  unfold Math_min. destruct (Qle_bool a b) eqn:E.
  - apply Qle_refl.
  - apply Qlt_le_weak, Qltb_lt. unfold Qltb. now rewrite E.
Qed.

Lemma Math_min_glb (a b c : Q) : c <= a -> c <= b -> c <= Math_min a b.
Proof. intros Ha Hb. unfold Math_min. now destruct (Qle_bool a b). Qed.

(** A whole second or more between two samples: the rate is at least [0]
    and at most the number of frames counted. *)
Lemma Math_round_rate (frames : Z) (deltaTime : Q) :
  (0 <= frames)%Z -> 1000 <= deltaTime ->
  (0 <= Math_round (inject_Z frames * 1000 / deltaTime) <= frames)%Z.
Proof.
  intros Hf Hd. unfold Math_round.
  assert (Hpos : 0 < deltaTime) by lra.
  assert (Hn : 0 <= inject_Z frames).
  { change 0 with (inject_Z 0). rewrite <- Zle_Qle. exact Hf. }
  assert (H0 : 0 <= inject_Z frames * 1000 / deltaTime).
  { apply Qle_shift_div_l; [exact Hpos|]. nra. }
  assert (H1 : inject_Z frames * 1000 / deltaTime <= inject_Z frames).
  { apply Qle_shift_div_r; [exact Hpos|]. nra. }
  split.
  - change 0%Z with (Qfloor 0). apply Qfloor_resp_le. lra.
  - apply Z.lt_succ_r. rewrite Zlt_Qlt.
    apply Qle_lt_trans with (inject_Z frames * 1000 / deltaTime + (1 # 2)).
    + apply Qfloor_le.
    + unfold Z.succ. rewrite inject_Z_plus. change (inject_Z 1) with 1. lra.
Qed.

Lemma update_historyOk (now : Q) (m : Manager) :
  historyOk m -> historyOk (update now m).
Proof.
  intros (Hlen & Hall & Hfc). unfold update, historyOk.
  destruct (Qle_bool 1000 (now - lastTime m)) eqn:E;
    cbn [fpsHistory frameCount].
  - apply Qle_bool_iff in E.
    assert (Hrate := Math_round_rate (frameCount m + 1) _ ltac:(lia) E).
    set (pushed := fpsHistory m ++ _).
    assert (Hp : Forall (fun f => (0 <= f)%Z) pushed).
    { apply Forall_app. split; [exact Hall|]. constructor; [lia|constructor]. }
    assert (Hl : length pushed = S (length (fpsHistory m))).
    { unfold pushed. rewrite length_app. cbn. lia. }
    destruct (maxHistoryLength <? length pushed)%nat eqn:El.
    + split; [|split; [|lia]].
      * destruct pushed; cbn in *; lia.
      * destruct pushed; [constructor|]. now inversion Hp.
    + apply Nat.ltb_ge in El. split; [exact El|]. split; [exact Hp|lia].
  - split; [exact Hlen|]. split; [exact Hall|lia].
Qed.

Ltac perf_fields :=
  cbn [fps frameCount lastTime fpsHistory settings onPerformanceChange
       applied lastAdjustmentTime hasReachedMaxQuality pixelRatio shadows
       particles neonEffects decorations autoRotate set_settings
       set_onPerformanceChange set_applied set_lastAdjustmentTime
       set_hasReachedMaxQuality set_pixelRatio set_shadows set_particles
       set_decorations] in *.

Lemma applySettings_fields (m : Manager) :
  settings (applySettings m) = settings m
  /\ fpsHistory (applySettings m) = fpsHistory m
  /\ frameCount (applySettings m) = frameCount m
  /\ hasReachedMaxQuality (applySettings m) = hasReachedMaxQuality m
  /\ lastAdjustmentTime (applySettings m) = lastAdjustmentTime m
  /\ (applied (applySettings m) = applied m
      \/ applied (applySettings m) = settings m :: applied m).
Proof.
  unfold applySettings. destruct (onPerformanceChange m); perf_fields; auto 10.
Qed.

Lemma reduceQuality_counters (m : Manager) :
  fpsHistory (reduceQuality m) = fpsHistory m
  /\ frameCount (reduceQuality m) = frameCount m
  /\ hasReachedMaxQuality (reduceQuality m) = hasReachedMaxQuality m.
Proof.
  unfold reduceQuality.
  repeat match goal with
         | |- context [if ?b then _ else _] => destruct b
         end;
    try (destruct (applySettings_fields (set_settings
                     (set_decorations false (settings m)) m))
           as (_ & -> & -> & -> & _));
    try (destruct (applySettings_fields (set_settings
                     (set_particles false (settings m)) m))
           as (_ & -> & -> & -> & _));
    try (destruct (applySettings_fields (set_settings
                     (set_shadows false (settings m)) m))
           as (_ & -> & -> & -> & _));
    try (destruct (applySettings_fields (set_settings
                     (set_pixelRatio 1 (settings m)) m))
           as (_ & -> & -> & -> & _));
    perf_fields; auto.
Qed.

Lemma increaseQuality_counters (devicePixelRatio : Q) (m : Manager) :
  fpsHistory (increaseQuality devicePixelRatio m) = fpsHistory m
  /\ frameCount (increaseQuality devicePixelRatio m) = frameCount m.
Proof.
  unfold increaseQuality.
  repeat match goal with
         | |- context [if ?b then _ else _] => destruct b
         end;
    try match goal with
        | |- context [applySettings ?x] =>
            destruct (applySettings_fields x) as (_ & -> & -> & _)
        end;
    perf_fields; auto.
Qed.

Lemma checkPerformance_counters (now devicePixelRatio : Q) (m : Manager) :
  fpsHistory (checkPerformance now devicePixelRatio m) = fpsHistory m
  /\ frameCount (checkPerformance now devicePixelRatio m) = frameCount m.
Proof.
  unfold checkPerformance.
  repeat match goal with
         | |- context [if ?b then _ else _] => destruct b
         end; perf_fields; auto.
  - destruct (reduceQuality_counters m) as (-> & -> & _). auto.
  - apply increaseQuality_counters.
Qed.

Lemma call_historyOk (c : Call) (m : Manager) :
  historyOk m -> historyOk (call c m).
Proof.
  destruct c as [now|now devicePixelRatio|]; cbn [call].
  - apply update_historyOk.
  - unfold historyOk.
    destruct (checkPerformance_counters now devicePixelRatio m) as [-> ->].
    auto.
  - auto.
Qed.

Lemma run_keeps (P : Manager -> Prop) (calls : list Call) :
  (forall c m, P m -> P (call c m)) ->
  forall m, P m -> P (run calls m).
Proof.
  intros Hstep. unfold run.
  induction calls as [|c rest IH]; intros m Hm; cbn [fold_left]; auto.
Qed.

Lemma detectDeviceCapabilities_settings (device : Device) (m : Manager) :
  onPerformanceChange m = false ->
  let m' := detectDeviceCapabilities device m in
  neonEffects (settings m') = neonEffects (settings m)
  /\ autoRotate (settings m') = autoRotate (settings m)
  /\ (pixelRatio (settings m') = pixelRatio (settings m)
      \/ pixelRatio (settings m') = 1)
  /\ applied m' = applied m
  /\ hasReachedMaxQuality m' = hasReachedMaxQuality m
  /\ fpsHistory m' = fpsHistory m
  /\ frameCount m' = frameCount m.
Proof.
  intros Hcb. unfold detectDeviceCapabilities, applySettings. perf_fields.
  rewrite Hcb.
  destruct (isMobile device || _); destruct (unmaskedRenderer device);
    destruct (deviceMemory device);
    repeat match goal with
           | |- context [if ?b then _ else _] => destruct b
           end; perf_fields; auto 10.
Qed.

(** X1: whatever the device, the clock and the order of the calls, the
    manager keeps at most 60 samples, and every sample is a frame rate of
    at least [0]. *)
Theorem PerformanceManager_history_is_bounded
    (now devicePixelRatio : Q) (device : Device) (calls : list Call) :
  let m := run calls (constructor now devicePixelRatio device) in
  (length (fpsHistory m) <= 60)%nat
  /\ Forall (fun sample => (0 <= sample)%Z) (fpsHistory m).
Proof.
  cbn zeta.
  assert (H : historyOk (run calls (constructor now devicePixelRatio device))).
  { apply run_keeps; [apply call_historyOk|].
    unfold constructor, historyOk.
    match goal with
    | |- context [detectDeviceCapabilities ?d ?m0] =>
        destruct (detectDeviceCapabilities_settings d m0 eq_refl)
          as (_ & _ & _ & _ & _ & -> & ->)
    end.
    perf_fields. cbn. split; [lia|]. split; [constructor|lia]. }
  destruct H as (H1 & H2 & _). split; assumption.
Qed.

Lemma canIncreaseQuality_changes (devicePixelRatio : Q) (m : Manager) :
  canIncreaseQuality devicePixelRatio (settings m) = true ->
  hasReachedMaxQuality (increaseQuality devicePixelRatio m)
  = hasReachedMaxQuality m.
Proof.
  unfold canIncreaseQuality, increaseQuality. intros H.
  destruct (Qltb (pixelRatio (settings m)) _); [|destruct (shadows _);
    [destruct (particles _); [destruct (decorations _);
      [discriminate|]|]|]]; cbn [negb];
    match goal with
    | |- context [applySettings ?x] =>
        destruct (applySettings_fields x) as (_ & _ & _ & -> & _)
    end; reflexivity.
Qed.

Lemma reduceQuality_untouched (m : Manager) :
  untouched m -> untouched (reduceQuality m).
Proof.
  intros (Hn & Ha & Hf & Hp & Hall). unfold reduceQuality.
  repeat match goal with
         | |- context [if ?b then _ else _] => destruct b
         end;
    try match goal with
        | |- context [applySettings ?x] =>
            destruct (applySettings_fields x)
              as (Es & _ & _ & Ef & _ & [Eap|Eap]);
            unfold untouched; rewrite Es, Ef, Eap
        end; perf_fields; repeat split; auto; try lra;
    constructor; auto.
Qed.

Lemma increaseQuality_untouched (devicePixelRatio : Q) (m : Manager) :
  canIncreaseQuality devicePixelRatio (settings m) = true ->
  untouched m -> untouched (increaseQuality devicePixelRatio m).
Proof.
  intros Hcan Hu.
  pose proof (canIncreaseQuality_changes devicePixelRatio m Hcan) as Hflag.
  destruct Hu as (Hn & Ha & Hf & Hp & Hall).
  unfold untouched. rewrite Hflag. clear Hflag Hcan.
  unfold increaseQuality.
  repeat match goal with
         | |- context [if ?b then _ else _] => destruct b
         end;
    try match goal with
        | |- context [applySettings ?x] =>
            destruct (applySettings_fields x)
              as (Es & _ & _ & _ & _ & [Eap|Eap]);
            rewrite Es, Eap
        end; perf_fields; repeat split; auto;
    try (eapply Qle_trans; [apply Math_min_le_r|apply Math_min_le_r]);
    constructor; auto.
Qed.

Lemma call_untouched (c : Call) (m : Manager) :
  untouched m -> untouched (call c m).
Proof.
  intros Hu. destruct c as [now|now devicePixelRatio|]; cbn [call].
  - unfold update. destruct (Qle_bool _ _); exact Hu.
  - unfold checkPerformance.
    destruct (_ <? _)%nat; [exact Hu|].
    destruct (Qltb _ adjustmentCooldown); [exact Hu|].
    destruct (Qltb _ 30 && _).
    { destruct (reduceQuality_untouched m Hu) as (Hn & Ha & Hf & Hp & Hall).
      unfold untouched. perf_fields. auto. }
    destruct (Qltb 55 _); [|exact Hu].
    destruct (canIncreaseQuality _ _) eqn:Hcan; [|exact Hu].
    destruct (negb _); [|exact Hu]. cbn [andb].
    destruct (increaseQuality_untouched devicePixelRatio m Hcan Hu)
      as (Hn & Ha & Hf & Hp & Hall).
    unfold untouched. perf_fields. auto.
  - exact Hu.
Qed.

(** X2: whatever the device, the clock and the order of the calls, no call
    switches [neonEffects] or [autoRotate] off, none reports settings with
    the neon effects off, the pixel ratio never exceeds [2], and the flag
    [hasReachedMaxQuality] is never set: [checkPerformance] calls
    [increaseQuality] only when there is something to increase. *)
Theorem PerformanceManager_never_touches
    (now devicePixelRatio : Q) (device : Device) (calls : list Call) :
  let m := run calls (constructor now devicePixelRatio device) in
  neonEffects (settings m) = true
  /\ autoRotate (settings m) = true
  /\ hasReachedMaxQuality m = false
  /\ pixelRatio (settings m) <= 2
  /\ Forall (fun reported => neonEffects reported = true) (applied m).
Proof.
  cbn zeta. change (untouched (run calls
                                 (constructor now devicePixelRatio device))).
  apply run_keeps; [apply call_untouched|].
  unfold constructor, untouched.
  match goal with
  | |- context [detectDeviceCapabilities ?d ?m0] =>
      destruct (detectDeviceCapabilities_settings d m0 eq_refl)
        as (-> & -> & Hp & -> & -> & _)
  end.
  perf_fields. repeat split; auto.
  destruct Hp as [-> | ->]; [apply Math_min_le_r|lra].
Qed.

Lemma reduceQuality_settings (m : Manager) :
  settings (reduceQuality m)
  = let s := settings m in
    if decorations s then set_decorations false s
    else if particles s then set_particles false s
    else if shadows s then set_shadows false s
    else if Qltb 1 (pixelRatio s) then set_pixelRatio 1 s
    else s.
Proof.
  unfold reduceQuality. cbn zeta.
  repeat match goal with
         | |- context [if ?b then _ else _] => destruct b
         end;
    try match goal with
        | |- context [applySettings ?x] =>
            destruct (applySettings_fields x) as (-> & _)
        end; reflexivity.
Qed.

Lemma increaseQuality_settings (devicePixelRatio : Q) (m : Manager) :
  settings (increaseQuality devicePixelRatio m)
  = let s := settings m in
    let limit := Math_min devicePixelRatio 2 in
    if Qltb (pixelRatio s) limit
    then set_pixelRatio (Math_min (pixelRatio s + 0.25) limit) s
    else if negb (shadows s) then set_shadows true s
    else if negb (particles s) then set_particles true s
    else if negb (decorations s) then set_decorations true s
    else s.
Proof.
  unfold increaseQuality. cbn zeta.
  repeat match goal with
         | |- context [if ?b then _ else _] => destruct b
         end;
    try match goal with
        | |- context [applySettings ?x] =>
            destruct (applySettings_fields x) as (-> & _)
        end; reflexivity.
Qed.

Lemma Qltb_1_1 : Qltb 1 1 = false.
Proof. reflexivity. Qed.

Lemma reduceQuality_one_item (m : Manager) :
  qualityItems (settings (reduceQuality m))
  = (qualityItems (settings m) - 1)%nat.
Proof.
  rewrite reduceQuality_settings. cbn zeta. unfold qualityItems.
  destruct (decorations (settings m)) eqn:Ed; perf_fields.
  { destruct (particles _), (shadows _), (Qltb 1 _); reflexivity. }
  destruct (particles (settings m)) eqn:Ep; perf_fields.
  { rewrite Ed. destruct (shadows _), (Qltb 1 _); reflexivity. }
  destruct (shadows (settings m)) eqn:Es; perf_fields.
  { rewrite Ed, Ep. destruct (Qltb 1 _); reflexivity. }
  destruct (Qltb 1 (pixelRatio (settings m))) eqn:Er; perf_fields.
  - rewrite Ed, Ep, Es, Qltb_1_1. reflexivity.
  - rewrite Ed, Ep, Es, Er. reflexivity.
Qed.

Lemma canReduceQuality_items (s : Settings) :
  canReduceQuality s = false <-> qualityItems s = 0%nat.
Proof.
  unfold canReduceQuality, qualityItems.
  destruct (particles s), (decorations s), (shadows s), (Qltb 1 _);
    cbn; split; intros H; try reflexivity; discriminate.
Qed.

Lemma qualityItems_le_4 (s : Settings) : (qualityItems s <= 4)%nat.
Proof.
  unfold qualityItems.
  destruct (particles s), (decorations s), (shadows s), (Qltb 1 _); cbn; lia.
Qed.

(** X3: each call of [reduceQuality] switches off exactly one quality item
    (decorations, particles, shadows, a pixel ratio above [1]) as long as
    one is left, so four calls in a row always reach the floor, where
    [canReduceQuality] is false. *)
Theorem reduceQuality_reaches_the_floor (m : Manager) :
  (forall k,
     qualityItems (settings (Nat.iter k reduceQuality m))
     = (qualityItems (settings m) - k)%nat)
  /\ canReduceQuality (settings (Nat.iter 4 reduceQuality m)) = false.
Proof.
  assert (H : forall k,
             qualityItems (settings (Nat.iter k reduceQuality m))
             = (qualityItems (settings m) - k)%nat).
  { induction k as [|k IH].
    - unfold Nat.iter. cbn [nat_rect]. lia.
    - unfold Nat.iter in *. cbn [nat_rect].
      rewrite reduceQuality_one_item, IH. lia. }
  split; [exact H|].
  apply canReduceQuality_items. rewrite H.
  pose proof (qualityItems_le_4 (settings m)). lia.
Qed.

(** X4: a call of [checkPerformance] that changes the settings happens with
    at least 30 samples in the history and 5000 ms or more after the last
    adjustment, and it records its own time as the time of the last
    adjustment; so two changes of the settings are never less than five
    seconds apart. *)
Theorem checkPerformance_respects_cooldown
    (now devicePixelRatio : Q) (m : Manager) :
  settings (checkPerformance now devicePixelRatio m) <> settings m ->
  (30 <= length (fpsHistory m))%nat
  /\ lastAdjustmentTime m + 5000 <= now
  /\ lastAdjustmentTime (checkPerformance now devicePixelRatio m) = now.
Proof.
  unfold checkPerformance. intros H.
  destruct (length (fpsHistory m) <? 30)%nat eqn:El;
    [contradiction H; reflexivity|].
  destruct (Qltb (now - lastAdjustmentTime m) adjustmentCooldown) eqn:Ec;
    [contradiction H; reflexivity|].
  apply Nat.ltb_ge in El. apply Qltb_ge in Ec. unfold adjustmentCooldown in Ec.
  split; [exact El|]. split; [lra|].
  destruct (Qltb _ 30 && _); [reflexivity|].
  destruct (Qltb 55 _ && _ && _); [reflexivity|].
  contradiction H; reflexivity.
Qed.

Lemma noBetterThan_refl (s : Settings) : noBetterThan s s.
Proof. unfold noBetterThan. repeat split; auto. apply Qle_refl. Qed.

Ltac ordered :=
  repeat split; intros; try apply Qle_refl; try congruence; auto.

(** X5: [checkPerformance] moves the quality in the direction the measured
    frame rate asks for, or not at all: with an average below 30 no setting
    goes up, with an average above 55 none goes down, and with an average
    from 30 to 55 the manager is left as it is. *)
Theorem checkPerformance_follows_the_frame_rate
    (now devicePixelRatio : Q) (m : Manager) :
  let m' := checkPerformance now devicePixelRatio m in
  let averageFps := averageOf (fpsHistory m) in
  (averageFps < 30 -> noBetterThan (settings m') (settings m))
  /\ (55 < averageFps -> noBetterThan (settings m) (settings m'))
  /\ (30 <= averageFps <= 55 -> m' = m).
Proof.
  cbn zeta. unfold checkPerformance.
  destruct (length (fpsHistory m) <? 30)%nat;
    [repeat split; auto; intros; apply noBetterThan_refl|].
  destruct (Qltb (now - lastAdjustmentTime m) adjustmentCooldown);
    [repeat split; auto; intros; apply noBetterThan_refl|].
  destruct (Qltb (averageOf (fpsHistory m)) 30) eqn:Elow.
  - apply Qltb_lt in Elow. split; [|split]; [|intros; lra|intros; lra].
    intros _. cbn [andb].
    assert (H55 : Qltb 55 (averageOf (fpsHistory m)) = false)
      by (apply Qltb_ge; lra).
    rewrite H55. cbn [andb].
    destruct (canReduceQuality (settings m)); [|apply noBetterThan_refl].
    perf_fields. rewrite reduceQuality_settings. cbn zeta.
    unfold noBetterThan.
    destruct (decorations (settings m)) eqn:Ed; perf_fields;
      [ordered|].
    destruct (particles (settings m)) eqn:Ep; perf_fields;
      [ordered|].
    destruct (shadows (settings m)) eqn:Es; perf_fields;
      [ordered|].
    destruct (Qltb 1 (pixelRatio (settings m))) eqn:Er; perf_fields;
      [|ordered].
    apply Qltb_lt in Er. ordered; lra.
  - apply Qltb_ge in Elow. cbn [andb].
    destruct (Qltb 55 (averageOf (fpsHistory m))) eqn:Ehigh.
    + apply Qltb_lt in Ehigh. split; [intros; lra|]. split; [|intros; lra].
      intros _. cbn [andb].
      destruct (canIncreaseQuality _ _ && _); [|apply noBetterThan_refl].
      perf_fields. rewrite increaseQuality_settings. cbn zeta.
      unfold noBetterThan.
      destruct (Qltb (pixelRatio (settings m)) _) eqn:Er; perf_fields.
      { apply Qltb_lt in Er. ordered. apply Math_min_glb; lra. }
      destruct (shadows (settings m)) eqn:Es; cbn [negb]; perf_fields;
        [|ordered].
      destruct (particles (settings m)) eqn:Ep; cbn [negb]; perf_fields;
        [|ordered].
      destruct (decorations (settings m)) eqn:Ed; cbn [negb]; perf_fields;
        ordered.
    + apply Qltb_ge in Ehigh. cbn [andb].
      split; [intros; apply noBetterThan_refl|].
      split; [intros; apply noBetterThan_refl|reflexivity].
Qed.

(** X6: [increaseQuality] undoes [reduceQuality] in the reverse order.  On
    settings that [reduceQuality] itself produces on the way down from full
    quality (pixel ratio at its ceiling, decorations only with particles,
    particles only with shadows) and with one of the three switches still
    on, reducing and then increasing gives the settings back. *)
Theorem increaseQuality_undoes_reduceQuality
    (devicePixelRatio : Q) (m : Manager) :
  onLadder devicePixelRatio (settings m) ->
  decorations (settings m) || particles (settings m) || shadows (settings m)
  = true ->
  settings (increaseQuality devicePixelRatio (reduceQuality m)) = settings m.
Proof.
  intros (Hr & Hdp & Hps) Hon.
  rewrite increaseQuality_settings, reduceQuality_settings. cbn zeta.
  destruct (settings m) as [r sh pa ne de au] eqn:E. perf_fields.
  destruct de; perf_fields.
  - rewrite Hr, (Hps (Hdp eq_refl)), (Hdp eq_refl). reflexivity.
  - destruct pa; perf_fields.
    + rewrite Hr, (Hps eq_refl). reflexivity.
    + destruct sh; [|discriminate]. perf_fields. rewrite Hr. reflexivity.
Qed.




Lemma constructor_lowEnd (now devicePixelRatio : Q) (device : Device) :
  lowEnd device = true ->
  let m := constructor now devicePixelRatio device in
  applied m = []
  /\ settings m = mkSettings 1 false false true false true.
Proof.
  intros Hlow. unfold lowEnd in Hlow.
  unfold constructor, detectDeviceCapabilities, applySettings. perf_fields.
  rewrite Hlow.
  destruct (unmaskedRenderer device); destruct (deviceMemory device);
    repeat match goal with
           | |- context [if ?b then _ else _] => destruct b
           end; perf_fields; auto.
Qed.

Lemma checkPerformance_at_the_floor (now devicePixelRatio : Q) (m : Manager) :
  canReduceQuality (settings m) = false ->
  averageOf (fpsHistory m) <= 55 ->
  checkPerformance now devicePixelRatio m = m.
Proof.
  intros Hfloor Hslow. unfold checkPerformance.
  destruct (length (fpsHistory m) <? 30)%nat; [reflexivity|].
  destruct (Qltb (now - lastAdjustmentTime m) adjustmentCooldown);
    [reflexivity|].
  cbn zeta. rewrite Hfloor, andb_false_r.
  destruct (Qltb 55 (averageOf (fpsHistory m))) eqn:E; [|reflexivity].
  apply Qltb_lt in E. lra.
Qed.

(** X8: the settings detected for a weak device are never reported.  On a
    device taken for mobile or low-end the constructor switches shadows,
    particles and decorations off and sets the pixel ratio to 1, with no
    callback installed yet; and as long as no check finds an average frame
    rate above 55, nothing the manager does later calls the callback: the
    settings stay as detected and the renderer and the office are never
    told. *)
Theorem detected_settings_are_never_reported
    (now devicePixelRatio : Q) (device : Device) (calls : list Call) :
  lowEnd device = true ->
  neverFast calls (constructor now devicePixelRatio device) ->
  let m := run calls (constructor now devicePixelRatio device) in
  applied m = []
  /\ settings m = mkSettings 1 false false true false true.
Proof.
  intros Hlow Hslow. cbn zeta.
  destruct (constructor_lowEnd now devicePixelRatio device Hlow)
    as [Ha Hs].
  revert Hslow Ha Hs.
  generalize (constructor now devicePixelRatio device) as m.
  unfold run. induction calls as [|c rest IH]; intros m Hslow Ha Hs;
    cbn [fold_left]; [auto|].
  cbn [neverFast] in Hslow. destruct Hslow as [Hc Hrest].
  apply IH; [exact Hrest| |].
  - destruct c as [t|t ratio|]; cbn [call] in *.
    + unfold update. destruct (Qle_bool 1000 (t - lastTime m));
        perf_fields; exact Ha.
    + rewrite checkPerformance_at_the_floor; [exact Ha| |exact Hc].
      rewrite Hs. reflexivity.
    + perf_fields. exact Ha.
  - destruct c as [t|t ratio|]; cbn [call] in *.
    + unfold update. destruct (Qle_bool 1000 (t - lastTime m));
        perf_fields; exact Hs.
    + rewrite checkPerformance_at_the_floor; [exact Hs| |exact Hc].
      rewrite Hs. reflexivity.
    + perf_fields. exact Hs.
Qed.

End Monitoring.

(** ** The loading screen *)

Section Loading.

Import LoadingManager.

Ltac load_fields :=
  cbn [totalItems loadedItems progress onProgress onLoad onError isLoading
       hasError sceneLoaded loadingInterval loadTimers loadingText reported
       loads errors set_counts set_progress set_callbacks set_isLoading
       set_hasError set_sceneLoaded set_loadingInterval set_loadTimers
       set_loadingText set_reported set_loads set_errors] in *.

Lemma callOnProgress_fields (value : Progress) (m : Manager) :
  let m' := callOnProgress value m in
  totalItems m' = totalItems m /\ loadedItems m' = loadedItems m
  /\ progress m' = progress m /\ onLoad m' = onLoad m
  /\ isLoading m' = isLoading m /\ hasError m' = hasError m
  /\ loadingInterval m' = loadingInterval m
  /\ loadTimers m' = loadTimers m /\ loadingText m' = loadingText m
  /\ loads m' = loads m
  /\ (reported m' = reported m \/ reported m' = value :: reported m).
Proof.
  unfold callOnProgress. destruct (onProgress m); load_fields; auto 20.
Qed.

Lemma updateLoadingMessage_fields (m : Manager) :
  let m' := updateLoadingMessage m in
  totalItems m' = totalItems m /\ loadedItems m' = loadedItems m
  /\ progress m' = progress m /\ onLoad m' = onLoad m
  /\ onProgress m' = onProgress m
  /\ isLoading m' = isLoading m /\ hasError m' = hasError m
  /\ loadingInterval m' = loadingInterval m
  /\ loadTimers m' = loadTimers m /\ reported m' = reported m
  /\ loads m' = loads m.
Proof.
  unfold updateLoadingMessage. destruct (loadingText m); [|auto 20].
  destruct (negb _); load_fields; auto 20.
Qed.

Lemma finishLoading_fields (m : Manager) :
  let m' := finishLoading m in
  totalItems m' = totalItems m /\ loadedItems m' = loadedItems m
  /\ progress m' = Percent 100 /\ onLoad m' = onLoad m
  /\ isLoading m' = false /\ hasError m' = hasError m
  /\ loadingInterval m' = loadingInterval m
  /\ loadTimers m' = S (loadTimers m) /\ loads m' = loads m
  /\ (reported m' = reported m \/ reported m' = Percent 100 :: reported m).
Proof.
  unfold finishLoading. cbn zeta.
  match goal with
  | |- context [callOnProgress ?v ?x] =>
      destruct (callOnProgress_fields v x)
        as (E1 & E2 & E3 & E4 & E5 & E6 & E7 & E8 & E9 & E10 & E11)
  end.
  load_fields. rewrite E1, E2, E3, E4, E5, E6, E7, E8, E10.
  destruct (loadingText m); load_fields; auto 20.
Qed.

Lemma ratio_in_range (loaded total : nat) :
  (0 < total)%nat ->
  0 <= Math_min
         (inject_Z (Z.of_nat loaded) / inject_Z (Z.of_nat total) * 100) 100
    <= 100.
Proof.
  intros Ht. split; [|apply Math_min_le_r].
  apply Math_min_glb; [|lra].
  assert (H0 : 0 <= inject_Z (Z.of_nat loaded)).
  { change 0 with (inject_Z 0). rewrite <- Zle_Qle. lia. }
  assert (H1 : 0 < inject_Z (Z.of_nat total)).
  { change 0 with (inject_Z 0). rewrite <- Zlt_Qlt. lia. }
  assert (0 <= inject_Z (Z.of_nat loaded) / inject_Z (Z.of_nat total)).
  { apply Qle_shift_div_l; [exact H1|]. lra. }
  lra.
Qed.

Lemma inRange_100 : inRange (Percent 100).
Proof. cbn. lra. Qed.

Lemma updateProgress_value (m : Manager) :
  (progress (updateProgress m) = NaN
   /\ totalItems m = O /\ loadedItems m = O)
  \/ inRange (progress (updateProgress m)).
Proof.
  unfold updateProgress.
  destruct (totalItems m) as [|t] eqn:Et, (loadedItems m) as [|l] eqn:El;
    load_fields; auto.
  - right. apply inRange_100.
  - right. apply (ratio_in_range 0 (S t)). lia.
  - right. apply (ratio_in_range (S l) (S t)). lia.
Qed.

Lemma updateProgress_fields (m : Manager) :
  let m' := updateProgress m in
  totalItems m' = totalItems m /\ loadedItems m' = loadedItems m
  /\ onLoad m' = onLoad m /\ onProgress m' = onProgress m
  /\ isLoading m' = isLoading m /\ hasError m' = hasError m
  /\ loadingInterval m' = loadingInterval m
  /\ loadTimers m' = loadTimers m /\ reported m' = reported m
  /\ loads m' = loads m /\ loadingText m' = loadingText m.
Proof. unfold updateProgress. load_fields. auto 20. Qed.

Lemma finishLoading_progressOk (m : Manager) :
  Forall (fun value => value = NaN \/ inRange value) (reported m) ->
  progressOk (finishLoading m).
Proof.
  intros H.
  destruct (finishLoading_fields m)
    as (_ & _ & Ep & _ & _ & _ & _ & _ & _ & [Er|Er]);
    unfold progressOk; rewrite Ep, Er; split;
    try apply inRange_100; auto.
  constructor; [right; apply inRange_100|exact H].
Qed.

Lemma report_ok (m : Manager) :
  (progress m = NaN \/ inRange (progress m)) ->
  Forall (fun value => value = NaN \/ inRange value) (reported m) ->
  Forall (fun value => value = NaN \/ inRange value)
    (reported (callOnProgress (progress m) m)).
Proof.
  intros Hp Hr.
  destruct (callOnProgress_fields (progress m) m)
    as (_ & _ & _ & _ & _ & _ & _ & _ & _ & _ & [-> | ->]); auto.
Qed.

Lemma tick_progressOk (m : Manager) : progressOk m -> progressOk (tick m).
Proof.
  intros Hok. unfold tick.
  destruct (negb (loadingInterval m)); [exact Hok|].
  destruct (loadedItems m <? totalItems m)%nat eqn:Elt; [|exact Hok].
  apply Nat.ltb_lt in Elt. cbn zeta.
  set (m1 := set_counts (S (loadedItems m)) (totalItems m) m).
  assert (Hp : inRange (progress (updateProgress m1))).
  { destruct (updateProgress_value m1) as [(_ & Ht & _)|H]; [|exact H].
    unfold m1 in Ht. load_fields. lia. }
  destruct (updateProgress_fields m1)
    as (_ & _ & _ & _ & _ & _ & _ & _ & Er & _).
  destruct (updateLoadingMessage_fields (updateProgress m1))
    as (_ & _ & Ep2 & _ & _ & _ & _ & _ & _ & Er2 & _).
  set (m2 := updateLoadingMessage (updateProgress m1)) in *.
  assert (Hr2 : Forall (fun value => value = NaN \/ inRange value)
                  (reported m2)).
  { rewrite Er2, Er. unfold m1. load_fields. apply Hok. }
  assert (Hr3 := report_ok m2 ltac:(right; rewrite Ep2; exact Hp) Hr2).
  destruct (callOnProgress_fields (progress m2) m2)
    as (_ & _ & Ep3 & _).
  set (m3 := callOnProgress (progress m2) m2) in *.
  destruct (totalItems m3 <=? loadedItems m3)%nat.
  - apply finishLoading_progressOk. load_fields. exact Hr3.
  - split; [rewrite Ep3, Ep2; exact Hp|exact Hr3].
Qed.

Lemma setProgress_progressOk (loaded total : nat) (m : Manager) :
  progressOk m -> progressOk (setProgress loaded total m).
Proof.
  intros Hok. unfold setProgress. cbn zeta.
  set (m0 := set_counts loaded total m).
  destruct (updateProgress_fields m0)
    as (_ & _ & _ & _ & _ & _ & _ & _ & Er & _).
  assert (Hr1 : Forall (fun value => value = NaN \/ inRange value)
                  (reported (updateProgress m0))).
  { rewrite Er. unfold m0. load_fields. apply Hok. }
  destruct (callOnProgress_fields (progress (updateProgress m0))
              (updateProgress m0)) as (_ & _ & Ep & _).
  destruct (updateProgress_value m0) as [(En & Ht & El)|Hin].
  - unfold m0 in Ht, El. load_fields. subst loaded total.
    cbn [Nat.leb]. apply finishLoading_progressOk.
    apply report_ok; [left; exact En|exact Hr1].
  - assert (Hr2 := report_ok (updateProgress m0) (or_intror Hin) Hr1).
    destruct (total <=? loaded)%nat.
    + now apply finishLoading_progressOk.
    + split; [rewrite Ep; exact Hin|exact Hr2].
Qed.

Lemma call_progressOk (c : Call) (m : Manager) :
  progressOk m -> progressOk (call c m).
Proof.
  intros Hok. destruct c; cbn [call].
  - now apply tick_progressOk.
  - unfold fireLoadTimer. destruct (loadTimers m); [exact Hok|].
    cbn zeta. destruct (onLoad _); exact Hok.
  - exact Hok.
  - unfold reportError. cbn zeta. destruct (onError _); exact Hok.
  - now apply setProgress_progressOk.
  - exact Hok.
  - destruct (loadingText m); exact Hok.
Qed.

Lemma callOnProgress_reported (value : Progress) (m : Manager) :
  reported (callOnProgress value m) = reported m
  \/ reported (callOnProgress value m) = value :: reported m.
Proof. apply (callOnProgress_fields value m). Qed.

Lemma finishLoading_reported (m : Manager) :
  In NaN (reported (finishLoading m)) -> In NaN (reported m).
Proof.
  destruct (finishLoading_fields m)
    as (_ & _ & _ & _ & _ & _ & _ & _ & _ & [-> | ->]); [auto|].
  intros [H|H]; [discriminate|exact H].
Qed.

Lemma inRange_not_NaN (value : Progress) : inRange value -> value <> NaN.
Proof. intros H ->. exact H. Qed.

Lemma call_reports_NaN (c : Call) (m : Manager) :
  In NaN (reported (call c m)) ->
  In NaN (reported m) \/ c = SetProgress 0 0.
Proof.
  destruct c; cbn [call].
  - unfold tick. destruct (negb (loadingInterval m)); [auto|].
    destruct (loadedItems m <? totalItems m)%nat eqn:Elt; [|auto].
    apply Nat.ltb_lt in Elt. cbn zeta.
    set (m1 := set_counts (S (loadedItems m)) (totalItems m) m).
    assert (Hp : inRange (progress (updateProgress m1))).
    { destruct (updateProgress_value m1) as [(_ & Ht & _)|H]; [|exact H].
      unfold m1 in Ht. load_fields. lia. }
    destruct (updateProgress_fields m1)
      as (_ & _ & _ & _ & _ & _ & _ & _ & Er & _).
    destruct (updateLoadingMessage_fields (updateProgress m1))
      as (_ & _ & Ep2 & _ & _ & _ & _ & _ & _ & Er2 & _).
    set (m2 := updateLoadingMessage (updateProgress m1)) in *.
    assert (H3 : In NaN (reported (callOnProgress (progress m2) m2)) ->
                 In NaN (reported m)).
    { destruct (callOnProgress_reported (progress m2) m2) as [-> | ->];
        rewrite Er2, Er; unfold m1; load_fields; [auto|].
      intros [H|H]; [|exact H].
      rewrite Ep2 in H. now apply inRange_not_NaN in Hp. }
    destruct (_ <=? _)%nat; intros H; left; apply H3.
    + apply finishLoading_reported in H. exact H.
    + exact H.
  - unfold fireLoadTimer. destruct (loadTimers m); [auto|].
    cbn zeta. destruct (onLoad _); auto.
  - auto.
  - unfold reportError. cbn zeta. destruct (onError _); auto.
  - unfold setProgress. cbn zeta.
    set (m0 := set_counts loaded total m).
    destruct (updateProgress_fields m0)
      as (_ & _ & _ & _ & _ & _ & _ & _ & Er & _).
    assert (H2 : In NaN (reported (callOnProgress
                                    (progress (updateProgress m0))
                                    (updateProgress m0))) ->
                 In NaN (reported m) \/ SetProgress loaded total
                                        = SetProgress 0 0).
    { destruct (callOnProgress_reported (progress (updateProgress m0))
                  (updateProgress m0)) as [-> | ->];
        rewrite Er; unfold m0 at 1; load_fields; [auto|].
      intros [H|H]; [|auto].
      destruct (updateProgress_value m0) as [(_ & Ht & El)|Hin].
      - unfold m0 in Ht, El. load_fields. subst. auto.
      - now apply inRange_not_NaN in Hin. }
    destruct (total <=? loaded)%nat; intros H; apply H2; [|exact H].
    now apply finishLoading_reported.
  - auto.
  - destruct (loadingText m); auto.
Qed.

(** X9: whatever is called in whatever order, the progress the manager
    holds is a number from 0 to 100, and every value it passes to
    [onProgress] is a number from 0 to 100 or [NaN]; [NaN] is passed only
    by a call [setProgress(0, 0)]. *)
Theorem LoadingManager_progress_stays_in_range
    (element : option TextContent) (calls : list Call) :
  let m := run calls (constructor element) in
  inRange (progress m)
  /\ Forall (fun value => value = NaN \/ inRange value) (reported m)
  /\ (In NaN (reported m) -> In (SetProgress 0 0) calls).
Proof.
  cbn zeta. unfold run.
  assert (G : forall m,
             progressOk m ->
             let m' := fold_left (fun m c => call c m) calls m in
             progressOk m'
             /\ (In NaN (reported m') ->
                 In NaN (reported m) \/ In (SetProgress 0 0) calls)).
  { induction calls as [|c rest IH]; intros m Hm; cbn [fold_left]; cbn zeta.
    - auto.
    - destruct (IH (call c m) (call_progressOk c m Hm)) as [Hok Hnan].
      split; [exact Hok|]. intros H.
      destruct (Hnan H) as [H1|H1]; [|right; now right].
      destruct (call_reports_NaN c m H1) as [H2|H2]; [now left|].
      right. left. now symmetry. }
  assert (H0 : progressOk (constructor element)).
  { unfold constructor, progressOk. load_fields.
    split; [cbn; lra|constructor]. }
  destruct (G _ H0) as [[Hp Hr] Hnan]. split; [exact Hp|].
  split; [exact Hr|]. intros H. destruct (Hnan H) as [H1|H1]; [|exact H1].
  unfold constructor in H1. load_fields. destruct H1.
Qed.

(** One firing of the interval while items are left: it counts one item,
    and on the last one it stops the interval and finishes. *)
Lemma tick_counts (m : Manager) :
  loadingInterval m = true -> (loadedItems m < totalItems m)%nat ->
  let m' := tick m in
  totalItems m' = totalItems m /\ loadedItems m' = S (loadedItems m)
  /\ hasError m' = hasError m /\ onLoad m' = onLoad m /\ loads m' = loads m
  /\ (if (totalItems m <=? S (loadedItems m))%nat
      then loadingInterval m' = false /\ isLoading m' = false
           /\ progress m' = Percent 100
           /\ loadTimers m' = S (loadTimers m)
      else loadingInterval m' = true /\ isLoading m' = isLoading m
           /\ loadTimers m' = loadTimers m).
Proof.
  intros Hi Hlt. unfold tick. rewrite Hi. cbn [negb].
  apply Nat.ltb_lt in Hlt. rewrite Hlt. cbn zeta.
  set (m1 := set_counts (S (loadedItems m)) (totalItems m) m).
  destruct (updateProgress_fields m1)
    as (A1 & A2 & A3 & A4 & A5 & A6 & A7 & A8 & A9 & A10 & A11).
  destruct (updateLoadingMessage_fields (updateProgress m1))
    as (B1 & B2 & B3 & B4 & B5 & B6 & B7 & B8 & B9 & B10 & B11).
  set (m2 := updateLoadingMessage (updateProgress m1)) in *.
  destruct (callOnProgress_fields (progress m2) m2)
    as (D1 & D2 & D3 & D4 & D5 & D6 & D7 & D8 & D9 & D10 & D11).
  set (m3 := callOnProgress (progress m2) m2) in *.
  assert (Et : totalItems m3 = totalItems m)
    by (rewrite D1, B1, A1; reflexivity).
  assert (El : loadedItems m3 = S (loadedItems m))
    by (rewrite D2, B2, A2; reflexivity).
  rewrite Et, El.
  destruct (totalItems m <=? S (loadedItems m))%nat.
  - destruct (finishLoading_fields (set_loadingInterval false m3))
      as (F1 & F2 & F3 & F4 & F5 & F6 & F7 & F8 & F9 & F10).
    rewrite F1, F2, F3, F4, F5, F6, F7, F8, F9. load_fields.
    rewrite Et, El, D6, B7, A6, D4, B4, A3, D10, B11, A10, D8, B9, A8.
    unfold m1. load_fields. auto 10.
  - rewrite D6, B7, A6, D4, B4, A3, D10, B11, A10, D8, B9, A8, D7, B8, A7,
      D5, B6, A5.
    unfold m1. load_fields. auto 10.
Qed.

Lemma tick_idle (m : Manager) : loadingInterval m = false -> tick m = m.
Proof. intros H. unfold tick. now rewrite H. Qed.

Lemma iter_tick_idle (m : Manager) (k : nat) :
  loadingInterval m = false -> Nat.iter k tick m = m.
Proof.
  intros H. induction k as [|k IH]; [reflexivity|].
  unfold Nat.iter in *. cbn [nat_rect]. rewrite IH. now apply tick_idle.
Qed.

Lemma iter_tick_counts (m : Manager) (j : nat) :
  loadingInterval m = true ->
  (loadedItems m + j < totalItems m)%nat ->
  let mj := Nat.iter j tick m in
  totalItems mj = totalItems m /\ loadedItems mj = (loadedItems m + j)%nat
  /\ hasError mj = hasError m /\ onLoad mj = onLoad m /\ loads mj = loads m
  /\ loadingInterval mj = true /\ isLoading mj = isLoading m
  /\ loadTimers mj = loadTimers m.
Proof.
  intros Hi. induction j as [|j IH]; intros Hlt; cbn zeta.
  - unfold Nat.iter. cbn [nat_rect]. rewrite Nat.add_0_r. auto 10.
  - destruct (IH ltac:(lia)) as (E1 & E2 & E3 & E4 & E5 & E6 & E7 & E8).
    unfold Nat.iter in *. cbn [nat_rect].
    set (mj := nat_rect _ m (fun _ => tick) j) in *.
    destruct (tick_counts mj E6 ltac:(lia)) as (T1 & T2 & T3 & T4 & T5 & T6).
    assert (Hleb : (totalItems mj <=? S (loadedItems mj))%nat = false)
      by (apply Nat.leb_gt; lia).
    rewrite Hleb in T6. destruct T6 as (T6 & T7 & T8).
    rewrite T1, T2, T3, T4, T5, T6, T7, T8, E1, E2, E3, E4, E5, E7, E8.
    repeat split; auto; lia.
Qed.

Lemma iter_tick_finishes (m : Manager) :
  loadingInterval m = true -> (loadedItems m < totalItems m)%nat ->
  let m' := Nat.iter (totalItems m - loadedItems m) tick m in
  loadingInterval m' = false /\ isLoading m' = false
  /\ progress m' = Percent 100 /\ loadTimers m' = S (loadTimers m)
  /\ hasError m' = hasError m /\ onLoad m' = onLoad m /\ loads m' = loads m.
Proof.
  intros Hi Hlt. cbn zeta.
  destruct (totalItems m - loadedItems m)%nat as [|j] eqn:Ej; [lia|].
  destruct (iter_tick_counts m j Hi ltac:(lia))
    as (E1 & E2 & E3 & E4 & E5 & E6 & E7 & E8).
  unfold Nat.iter in *. cbn [nat_rect].
  set (mj := nat_rect _ m (fun _ => tick) j) in *.
  destruct (tick_counts mj E6 ltac:(lia)) as (T1 & T2 & T3 & T4 & T5 & T6).
  assert (Hleb : (totalItems mj <=? S (loadedItems mj))%nat = true)
    by (apply Nat.leb_le; lia).
  rewrite Hleb in T6. destruct T6 as (T6 & T7 & T8 & T9).
  rewrite T3, T4, T5, T6, T7, T8, T9, E3, E4, E5, E8. auto 10.
Qed.

(** X10: the simulated loading ends exactly when the last item is counted.
    With the interval running and items left, every firing before the last
    one counts one item and leaves the interval running; the firing that
    counts the last item stops the interval, sets the progress to 100,
    clears [isLoading] and starts the one timer that will call [onLoad];
    after that the interval does nothing more. *)
Theorem simulateLoading_finishes_on_the_last_item (m : Manager) :
  loadingInterval m = true -> (loadedItems m < totalItems m)%nat ->
  let remaining := (totalItems m - loadedItems m)%nat in
  (forall j, (j < remaining)%nat ->
     let mj := Nat.iter j tick m in
     loadingInterval mj = true /\ loadedItems mj = (loadedItems m + j)%nat
     /\ loadTimers mj = loadTimers m /\ isLoading mj = isLoading m)
  /\ (let m' := Nat.iter remaining tick m in
      loadingInterval m' = false /\ isLoading m' = false
      /\ progress m' = Percent 100 /\ loadTimers m' = S (loadTimers m)
      /\ forall k, Nat.iter k tick m' = m').
Proof.
  intros Hi Hlt. cbn zeta. split.
  - intros j Hj.
    destruct (iter_tick_counts m j Hi ltac:(lia))
      as (_ & E2 & _ & _ & _ & E6 & E7 & E8). auto.
  - destruct (iter_tick_finishes m Hi Hlt) as (F1 & F2 & F3 & F4 & _).
    repeat split; auto. intros k. now apply iter_tick_idle.
Qed.

(** X11: an error does not stop the loading.  [reportError] leaves the
    interval running, so the remaining items are still counted, and the
    timer started at the last one still calls [onLoad], with [hasError]
    set. *)
Theorem reportError_does_not_stop_the_loading (m : Manager) :
  loadingInterval m = true -> (loadedItems m < totalItems m)%nat ->
  onLoad m = true ->
  let m' :=
    fireLoadTimer
      (Nat.iter (totalItems m - loadedItems m) tick (reportError m)) in
  hasError m' = true /\ isLoading m' = false /\ loads m' = S (loads m).
Proof.
  intros Hi Hlt Hon. cbn zeta.
  assert (R : loadingInterval (reportError m) = true
              /\ totalItems (reportError m) = totalItems m
              /\ loadedItems (reportError m) = loadedItems m
              /\ hasError (reportError m) = true
              /\ onLoad (reportError m) = true
              /\ loads (reportError m) = loads m).
  { unfold reportError. cbn zeta. destruct (onError _); load_fields; auto 10. }
  destruct R as (R1 & R2 & R3 & R4 & R5 & R6).
  destruct (iter_tick_finishes (reportError m) R1 ltac:(lia))
    as (F1 & F2 & F3 & F4 & F5 & F6 & F7).
  rewrite R2, R3 in *.
  set (m1 := Nat.iter _ tick (reportError m)) in *.
  unfold fireLoadTimer. rewrite F4. cbn zeta. load_fields.
  rewrite F6, R5. load_fields. rewrite F5, F2, F7, R4, R6. auto.
Qed.

Lemma Qfloor_ratio (a b c : nat) :
  (0 < b)%nat ->
  Qfloor (inject_Z (Z.of_nat a) / inject_Z (Z.of_nat b)
          * inject_Z (Z.of_nat c))
  = Z.of_nat (a * c / b).
Proof.
  intros Hb.
  destruct (Z.of_nat b) as [|p|p] eqn:Ep; try lia.
  assert (E : inject_Z (Z.of_nat a) / inject_Z (Z.pos p)
              * inject_Z (Z.of_nat c)
              == (Z.of_nat a * Z.of_nat c) # p).
  { rewrite (Qmake_Qdiv (Z.of_nat a * Z.of_nat c) p), inject_Z_mult.
    field. intros H. discriminate H. }
  rewrite E. cbn [Qfloor].
  rewrite <- Ep, <- Nat2Z.inj_mul, <- Nat2Z.inj_div. reflexivity.
Qed.

Lemma clampedIndex_counting (loaded total : nat) :
  (0 < total)%nat ->
  clampedIndex loaded total = Some (Nat.min (loaded * 10 / total) 9).
Proof.
  intros Ht. unfold clampedIndex. destruct total as [|t]; [lia|].
  change (length loadingMessages) with 10%nat.
  rewrite Qfloor_ratio by lia. f_equal.
  change (Z.of_nat 10 - 1)%Z with (Z.of_nat 9).
  rewrite <- Nat2Z.inj_min. apply Nat2Z.id.
Qed.

Lemma TextContent_eqb_eq (a b : TextContent) :
  TextContent_eqb a b = true -> a = b.
Proof.
  destruct a, b; cbn; intros H; try discriminate; [|reflexivity].
  apply String.eqb_eq in H. now subst.
Qed.

Lemma updateLoadingMessage_text (m : Manager) (content : TextContent) :
  loadingText m = Some content ->
  loadingText (updateLoadingMessage m)
  = Some (messageAt (clampedIndex (loadedItems m) (totalItems m))).
Proof.
  intros H. unfold updateLoadingMessage. rewrite H.
  destruct (TextContent_eqb content _) eqn:E; cbn [negb]; load_fields.
  - apply TextContent_eqb_eq in E. now subst.
  - reflexivity.
Qed.

Lemma listed_message (i : nat) :
  (i <= 9)%nat ->
  exists message,
    nth_error loadingMessages i = Some message
    /\ messageAt (Some i) = Text message.
Proof.
  intros Hi. unfold messageAt.
  destruct (nth_error loadingMessages i) as [message|] eqn:E.
  - exists message. auto.
  - apply nth_error_None in E.
    change (length loadingMessages) with 10%nat in E. lia.
Qed.

(** X12: the interval never reads outside the list of messages.  Each
    firing that counts an item shows the message number
    [min (floor (10 * loadedItems / totalItems)) 9] of the ten, the last one
    when the last item is counted. *)
Theorem tick_shows_a_listed_message (m : Manager) (content : TextContent) :
  loadingInterval m = true -> (loadedItems m < totalItems m)%nat ->
  loadingText m = Some content ->
  exists message,
    nth_error loadingMessages
      (Nat.min (S (loadedItems m) * 10 / totalItems m) 9)
    = Some message
    /\ loadingText (tick m) = Some (Text message).
Proof.
  intros Hi Hlt Htext.
  destruct (listed_message (Nat.min (S (loadedItems m) * 10 / totalItems m) 9)
              ltac:(lia)) as (message & Hnth & Hat).
  exists message. split; [exact Hnth|].
  unfold tick. rewrite Hi. cbn [negb].
  apply Nat.ltb_lt in Hlt. rewrite Hlt. apply Nat.ltb_lt in Hlt. cbn zeta.
  set (m1 := set_counts (S (loadedItems m)) (totalItems m) m).
  destruct (updateProgress_fields m1)
    as (A1 & A2 & _ & _ & _ & _ & _ & _ & _ & _ & A11).
  assert (Ht2 : loadingText (updateLoadingMessage (updateProgress m1))
                = Some (Text message)).
  { rewrite (updateLoadingMessage_text _ content)
      by (rewrite A11; unfold m1; load_fields; exact Htext).
    rewrite A1, A2. unfold m1. load_fields.
    rewrite clampedIndex_counting by lia. now rewrite Hat. }
  destruct (updateLoadingMessage_fields (updateProgress m1))
    as (B1 & B2 & _).
  set (m2 := updateLoadingMessage (updateProgress m1)) in *.
  destruct (callOnProgress_fields (progress m2) m2)
    as (D1 & D2 & _ & _ & _ & _ & _ & _ & D9 & _).
  set (m3 := callOnProgress (progress m2) m2) in *.
  assert (Et : totalItems m3 = totalItems m)
    by (rewrite D1, B1, A1; reflexivity).
  assert (El : loadedItems m3 = S (loadedItems m))
    by (rewrite D2, B2, A2; reflexivity).
  rewrite Et, El.
  destruct (totalItems m <=? S (loadedItems m))%nat eqn:Elast.
  - apply Nat.leb_le in Elast.
    assert (E9 : Nat.min (S (loadedItems m) * 10 / totalItems m) 9 = 9%nat).
    { apply Nat.min_r.
      apply Nat.le_trans with (totalItems m * 10 / totalItems m)%nat.
      - rewrite Nat.mul_comm, Nat.div_mul by lia. lia.
      - apply Nat.Div0.div_le_mono. nia. }
    rewrite E9 in Hat.
    unfold finishLoading. cbn zeta.
    match goal with
    | |- context [callOnProgress ?v ?x] =>
        destruct (callOnProgress_fields v x)
          as (_ & _ & _ & _ & _ & _ & _ & _ & G9 & _)
    end.
    load_fields. rewrite G9. load_fields. rewrite D9, Ht2. load_fields.
    change (length loadingMessages - 1)%nat with 9%nat. now rewrite Hat.
  - rewrite D9. exact Ht2.
Qed.

End Loading.

(** ** Camera navigation *)

Section Navigation.

Import NavigationManager.


Lemma toInt32_small (z : Z) : (0 <= z < 2 ^ 31)%Z -> toInt32 z = z.
Proof.
  intros H. unfold toInt32. rewrite Z.mod_small; lia.
Qed.

Lemma land_255 (z : Z) : Z.land z 255 = (z mod 256)%Z.
Proof. apply (Z.land_ones z 8). lia. Qed.

Lemma byte_range (z : Z) :
  0 <= inject_Z (Z.land z 255) / 255 <= 1.
Proof.
  rewrite land_255.
  pose proof (Z.mod_pos_bound z 256 ltac:(lia)) as [H0 H1].
  assert (A : 0 <= inject_Z (z mod 256)).
  { change 0 with (inject_Z 0). rewrite <- Zle_Qle. exact H0. }
  assert (B : inject_Z (z mod 256) <= 255).
  { change 255 with (inject_Z 255). rewrite <- Zle_Qle. lia. }
  split.
  - apply Qle_shift_div_l; lra.
  - apply Qle_shift_div_r; lra.
Qed.

(** X13: the three components [animateLighting] computes from a colour
    are numbers from 0 to 1, and for a colour of 24 bits they are its three
    bytes over 255: red times 65536 plus green times 256 plus blue gives
    back the number the settings hold. *)
Theorem colorOf_splits_the_bytes (color : Z) :
  let c := colorOf color in
  (0 <= r c <= 1 /\ 0 <= g c <= 1 /\ 0 <= b c <= 1)
  /\ ((0 <= color < 2 ^ 24)%Z ->
      255 * r c * 65536 + 255 * g c * 256 + 255 * b c == inject_Z color).
Proof.
  cbn zeta. split.
  - unfold colorOf. cbn [r g b]. repeat split; apply byte_range.
  - intros H. unfold colorOf. cbn [r g b].
    rewrite toInt32_small by lia.
    rewrite !land_255, !Z.shiftr_div_pow2 by lia.
    change (2 ^ 16)%Z with 65536%Z. change (2 ^ 8)%Z with 256%Z.
    set (hi := ((color / 65536) mod 256)%Z).
    set (mid := ((color / 256) mod 256)%Z).
    set (lo := (color mod 256)%Z).
    assert (E : (color = hi * 65536 + mid * 256 + lo)%Z).
    { unfold hi, mid, lo.
      change (2 ^ 24)%Z with 16777216%Z in H.
      pose proof (Z.div_mod color 256 ltac:(lia)).
      pose proof (Z.div_mod (color / 256) 256 ltac:(lia)).
      pose proof (Z.mod_pos_bound color 256 ltac:(lia)).
      pose proof (Z.mod_pos_bound (color / 256) 256 ltac:(lia)).
      assert (Hdd : (color / 65536 = color / 256 / 256)%Z).
      { rewrite Z.div_div by lia. reflexivity. }
      rewrite Hdd.
      assert (Hsmall : (0 <= color / 256 / 256 < 256)%Z).
      { split.
        - apply Z.div_pos; [apply Z.div_pos|]; lia.
        - apply Z.div_lt_upper_bound; [lia|].
          apply Z.div_lt_upper_bound; lia. }
      rewrite (Z.mod_small (color / 256 / 256)) by exact Hsmall.
      pose proof (Z.div_mod (color / 256) 256 ltac:(lia)). lia. }
    rewrite E at 1. rewrite !inject_Z_plus, !inject_Z_mult.
    change (inject_Z 65536) with 65536. change (inject_Z 256) with 256.
    field.
Qed.

Variable inheritedKey : String.string -> bool.





End Navigation.

(** ** Dialogues *)

Section Dialogues.

Import ModalManager.

Ltac page_fields :=
  cbn [activeModal body headStyles frames closeTimers escapeHandlers created
       modal_id opaque modal_type] in *.

Lemma attached_setOpaque (id id' : nat) (v : bool) (l : list Modal) :
  attached id (setOpaque id' v l) = attached id l.
Proof.
  unfold attached, setOpaque. induction l as [|modal l IH]; [reflexivity|].
  cbn [map existsb]. rewrite IH. f_equal.
  destruct (Nat.eqb (modal_id modal) id'); reflexivity.
Qed.

Lemma detach_setOpaque (id id' : nat) (v : bool) (l : list Modal) :
  detach id (setOpaque id' v l) = setOpaque id' v (detach id l).
Proof.
  unfold detach, setOpaque. induction l as [|modal l IH]; [reflexivity|].
  cbn [map filter].
  destruct (Nat.eqb (modal_id modal) id') eqn:E; page_fields;
    destruct (negb (Nat.eqb (modal_id modal) id)); cbn [map];
    rewrite ?E, IH; reflexivity.
Qed.

Lemma detach_fresh (id : nat) (l : list Modal) :
  Forall (fun modal => (modal_id modal < id)%nat) l -> detach id l = l.
Proof.
  unfold detach. induction 1 as [|modal l H _ IH]; [reflexivity|].
  cbn [filter]. assert (E : Nat.eqb (modal_id modal) id = false)
    by (apply Nat.eqb_neq; lia).
  rewrite E. cbn [negb]. now rewrite IH.
Qed.

Lemma setOpaque_fresh (id : nat) (v : bool) (l : list Modal) :
  Forall (fun modal => (modal_id modal < id)%nat) l -> setOpaque id v l = l.
Proof.
  unfold setOpaque. induction 1 as [|modal l H _ IH]; [reflexivity|].
  cbn [map]. assert (E : Nat.eqb (modal_id modal) id = false)
    by (apply Nat.eqb_neq; lia).
  now rewrite E, IH.
Qed.

Lemma attached_detach (id id' : nat) (l : list Modal) :
  id <> id' -> attached id (detach id' l) = attached id l.
Proof.
  intros Hne. unfold attached, detach.
  induction l as [|modal l IH]; [reflexivity|]. cbn [filter existsb].
  destruct (Nat.eqb (modal_id modal) id') eqn:E; cbn [negb existsb].
  - rewrite IH. apply Nat.eqb_eq in E.
    assert (E' : Nat.eqb (modal_id modal) id = false)
      by (apply Nat.eqb_neq; lia).
    now rewrite E'.
  - now rewrite IH.
Qed.

Lemma attached_detach_same (id : nat) (l : list Modal) :
  attached id (detach id l) = false.
Proof.
  unfold attached, detach. induction l as [|modal l IH]; [reflexivity|].
  cbn [filter]. destruct (Nat.eqb (modal_id modal) id) eqn:E;
    cbn [negb existsb]; [exact IH|]. now rewrite E, IH.
Qed.

Lemma attached_app (id : nat) (l l' : list Modal) :
  attached id (l ++ l') = attached id l || attached id l'.
Proof. unfold attached. apply existsb_app. Qed.

Lemma attached_fresh (id : nat) (l : list Modal) :
  Forall (fun modal => (modal_id modal < id)%nat) l -> attached id l = false.
Proof.
  unfold attached. induction 1 as [|modal l H _ IH]; [reflexivity|].
  cbn [existsb]. rewrite IH.
  assert (E : Nat.eqb (modal_id modal) id = false)
    by (apply Nat.eqb_neq; lia).
  now rewrite E.
Qed.

Lemma closeModal_fields (p : Page) :
  let p' := closeModal p in
  activeModal p' = activeModal p /\ created p' = created p
  /\ frames p' = frames p /\ escapeHandlers p' = escapeHandlers p
  /\ (forall id, attached id (body p') = attached id (body p))
  /\ (forall id, detach id (body p')
                 = match activeModal p with
                   | Some active => setOpaque active false (detach id (body p))
                   | None => detach id (body p)
                   end).
Proof.
  cbn zeta. unfold closeModal.
  destruct (activeModal p) as [active|] eqn:E; page_fields.
  - do 4 (split; [reflexivity|]). split; intros id.
    + apply attached_setOpaque.
    + apply detach_setOpaque.
  - split; [exact E|]. do 3 (split; [reflexivity|]). split; reflexivity.
Qed.

(** X15: a dialogue is taken away by a close that came before it.
    [showModal] closes the open dialogue first, but the timer of a close
    removes whatever dialogue is the active one when it fires: with a
    dialogue open, or with the timer of an earlier close still pending,
    the next firing of a timer detaches the new dialogue, leaves no
    dialogue active, and leaves every older overlay attached, also the one
    that was open. *)
Theorem pending_close_removes_the_new_dialogue
    (type : ModalType) (p : Page) :
  activeModal p <> None \/ closeTimers p <> O ->
  Forall (fun modal => (modal_id modal < created p)%nat) (body p) ->
  let p' := closeTimer (showModal type p) in
  activeModal p' = None
  /\ attached (created p) (body p') = false
  /\ forall id, attached id (body p) = true ->
                attached id (body p') = true.
Proof.
  intros Hpending Hfresh. cbn zeta.
  destruct (closeModal_fields p) as (Ea & Ec & _ & _ & Hatt & _).
  assert (Htimers : exists pending,
             closeTimers (showModal type p) = S pending).
  { unfold showModal. cbn zeta. page_fields. unfold closeModal.
    destruct (activeModal p); page_fields; [eauto|].
    destruct (closeTimers p); [|eauto].
    destruct Hpending as [H|H]; now contradiction H. }
  destruct Htimers as (pending & Et).
  unfold closeTimer. rewrite Et. cbn zeta.
  page_fields. unfold showModal. cbn zeta. page_fields. rewrite Ec.
  split; [reflexivity|].
  assert (Hnew : forall id, id <> created p ->
             attached id
               (detach (created p)
                  (body (closeModal p)
                   ++ [mkModal (created p) false type]))
             = attached id (body p)).
  { intros id Hne. rewrite attached_detach by exact Hne.
    rewrite attached_app, Hatt. cbn [attached existsb modal_id].
    assert (E : Nat.eqb (created p) id = false)
      by (apply Nat.eqb_neq; lia).
    rewrite E. now rewrite !orb_false_r. }
  split.
  - apply attached_detach_same.
  - intros id Hid. rewrite Hnew; [exact Hid|].
    intros ->. rewrite (attached_fresh _ _ Hfresh) in Hid. discriminate.
Qed.

Lemma closeModal_orphaned (id : nat) (p : Page) :
  orphaned id p -> orphaned id (closeModal p).
Proof.
  intros (Hatt & Hact & Hid & Hwf).
  destruct (closeModal_fields p) as (Ea & Ec & _ & _ & Hsame & _).
  unfold orphaned. rewrite Ea, Ec, Hsame. auto.
Qed.

Lemma step_orphaned (id : nat) (e : Event) (p : Page) :
  orphaned id p -> orphaned id (step e p).
Proof.
  intros Ho. destruct e as [type|id'|id'| | |k]; cbn [step].
  - apply closeModal_orphaned in Ho. destruct Ho as (Hatt & Hact & Hid & Hwf).
    unfold showModal, orphaned. cbn zeta. page_fields.
    rewrite attached_app, Hatt. repeat split; auto.
    + intros H. injection H as H. lia.
    + intros active H. injection H as <-. lia.
  - destruct (existsb _ _); [now apply closeModal_orphaned|exact Ho].
  - destruct (attached id' _); [now apply closeModal_orphaned|exact Ho].
  - unfold keyEscape. cbn zeta.
    assert (H : orphaned id (Nat.iter (escapeHandlers p) closeModal p)).
    { induction (escapeHandlers p) as [|n IH]; [exact Ho|].
      unfold Nat.iter in *. cbn [nat_rect]. now apply closeModal_orphaned. }
    destruct H as (Hatt & Hact & Hid & Hwf).
    unfold orphaned. page_fields. auto.
  - destruct Ho as (Hatt & Hact & Hid & Hwf). unfold closeTimer.
    destruct (closeTimers p); [unfold orphaned; auto|].
    unfold orphaned. page_fields. repeat split; auto; try discriminate.
    destruct (activeModal p) as [active|]; [|exact Hatt].
    rewrite attached_detach; [exact Hatt|]. intros ->. now contradiction Hact.
  - destruct Ho as (Hatt & Hact & Hid & Hwf). unfold animationFrame.
    destruct (nth_error (frames p) k); [|unfold orphaned; auto].
    unfold orphaned. page_fields. rewrite attached_setOpaque. auto.
Qed.

(** X16: an overlay that is attached without being the active dialogue is
    never detached, whatever happens on the page afterwards: the manager
    only ever removes the dialogue that is active when a timer fires, and
    only a new overlay becomes active. *)
Theorem orphaned_overlay_is_never_removed
    (id : nat) (events : list Event) (p : Page) :
  orphaned id p ->
  attached id (body (run events p)) = true
  /\ activeModal (run events p) <> Some id.
Proof.
  intros Ho.
  assert (H : orphaned id (run events p)).
  { unfold run. revert p Ho.
    induction events as [|e rest IH]; intros p Ho; cbn [fold_left];
      [exact Ho|].
    apply IH. now apply step_orphaned. }
  destruct H as (Hatt & Hact & _). auto.
Qed.

Lemma detach_new (id : nat) (v : bool) (type : ModalType) (l : list Modal) :
  Forall (fun modal => (modal_id modal < id)%nat) l ->
  detach id (l ++ [mkModal id v type]) = l.
Proof.
  intros H. unfold detach. rewrite filter_app. fold (detach id l).
  rewrite (detach_fresh id l H). cbn [filter modal_id].
  rewrite Nat.eqb_refl. cbn [negb]. apply app_nil_r.
Qed.

(** X17: on a page where nothing is open or pending, a dialogue that is
    shown, fades in and is closed (by Escape, by a click on its backdrop,
    or by its close button if it has one) is gone when the timer fires:
    the overlays attached are those from before, and no dialogue is
    active. *)
Theorem dialogue_closes_cleanly (type : ModalType) (e : Event) (p : Page) :
  quiet p -> closes e (created p) type ->
  let p' := run [ShowModal type; AnimationFrame 0; e; CloseTimer] p in
  body p' = body p /\ activeModal p' = None /\ frames p' = [].
Proof.
  intros (Hact & Htimers & Hframes & Hfresh) He. cbn zeta.
  unfold run. cbn [fold_left step].
  assert (Eshow : showModal type p
                  = mkPage (Some (created p))
                      (body p ++ [mkModal (created p) false type])
                      (S (headStyles p)) [created p] 0
                      (S (escapeHandlers p)) (S (created p))).
  { unfold showModal, closeModal. rewrite Hact. cbn zeta.
    now rewrite Hframes, Htimers. }
  rewrite Eshow.
  set (shown := setOpaque (created p) true
                  (body p ++ [mkModal (created p) false type])).
  set (p2 := mkPage (Some (created p)) shown (S (headStyles p)) []
               0 (S (escapeHandlers p)) (S (created p))).
  change (animationFrame 0 _) with p2.
  assert (Hdetach : detach (created p) shown = body p).
  { unfold shown. rewrite detach_setOpaque, detach_new by exact Hfresh.
    now apply setOpaque_fresh. }
  assert (Hclosed : forall q,
             activeModal q = Some (created p) -> frames q = [] ->
             detach (created p) (body q) = body p ->
             activeModal (closeModal q) = Some (created p)
             /\ frames (closeModal q) = []
             /\ detach (created p) (body (closeModal q)) = body p
             /\ closeTimers (closeModal q) = S (closeTimers q)).
  { intros q Q1 Q2 Q3. unfold closeModal. rewrite Q1. page_fields.
    repeat split; auto.
    rewrite detach_setOpaque, Q3. now apply setOpaque_fresh. }
  assert (Hend : forall q,
             activeModal q = Some (created p) -> frames q = [] ->
             detach (created p) (body q) = body p ->
             closeTimers q <> O ->
             body (closeTimer q) = body p
             /\ activeModal (closeTimer q) = None
             /\ frames (closeTimer q) = []).
  { intros q Q1 Q2 Q3 Q4. unfold closeTimer.
    destruct (closeTimers q); [now contradiction Q4|].
    cbn zeta. page_fields. rewrite Q1. auto. }
  destruct (Hclosed p2 eq_refl eq_refl Hdetach) as (C1 & C2 & C3 & C4).
  destruct He as [-> | [-> | [-> Hbutton]]]; cbn [step].
  - unfold keyEscape. cbn zeta.
    assert (Hiter : forall n,
               activeModal (Nat.iter (S n) closeModal p2)
               = Some (created p)
               /\ frames (Nat.iter (S n) closeModal p2) = []
               /\ detach (created p)
                    (body (Nat.iter (S n) closeModal p2))
                  = body p
               /\ closeTimers (Nat.iter (S n) closeModal p2) <> O).
    { induction n as [|n (I1 & I2 & I3 & I4)].
      - unfold Nat.iter. cbn [nat_rect]. rewrite C1, C2, C3, C4. auto.
      - change (Nat.iter (S (S n)) closeModal p2)
          with (closeModal (Nat.iter (S n) closeModal p2)).
        destruct (Hclosed _ I1 I2 I3) as (D1 & D2 & D3 & D4).
        rewrite D1, D2, D3, D4. auto. }
    change (escapeHandlers p2) with (S (escapeHandlers p)).
    destruct (Hiter (escapeHandlers p)) as (H1 & H2 & H3 & H4).
    apply Hend; page_fields; auto.
  - assert (Ha : attached (created p) (body p2) = true).
    { unfold p2, shown. page_fields.
      rewrite attached_setOpaque, attached_app.
      cbn [attached existsb modal_id]. rewrite Nat.eqb_refl.
      apply orb_true_r. }
    rewrite Ha. apply Hend; auto; rewrite C4; discriminate.
  - assert (Hb : existsb
                   (fun modal =>
                      Nat.eqb (modal_id modal) (created p)
                      && hasCloseButton (modal_type modal)) (body p2)
                 = true).
    { unfold p2, shown, setOpaque. page_fields.
      rewrite map_app, existsb_app. cbn [map existsb modal_id].
      rewrite Nat.eqb_refl. cbn [modal_id modal_type].
      rewrite Nat.eqb_refl, Hbutton. cbn. apply orb_true_r. }
    rewrite Hb. apply Hend; auto; rewrite C4; discriminate.
Qed.

End Dialogues.

(** ** The loaded scene as a whole *)

Section Scene.

Variable random : nat -> Q.
Variable js_sqrt : Q -> Q.
Variable js_atan2 : Q -> Q -> Q.

(** X18: the loaded scene never throws.  Whatever clicks, navigation
    requests, key presses, frames, camera moves, tween completions and
    timers follow each other, every handler finds the robot and the saved
    camera pose it reads: the run has an outcome. *)
Theorem loaded_scene_never_throws (events : list (Z * Event)) :
  exists w, run random js_sqrt js_atan2 events (loadedWorld random) = Some w.
Proof.
  assert (G : forall w0, sound w0 ->
                         exists w, run random js_sqrt js_atan2 events w0
                                   = Some w).
  { induction events as [|[now e] rest IH]; intros w0 Hs; cbn [run].
    - eauto.
    - destruct (step_total random js_sqrt js_atan2 now e w0 Hs) as [w1 E].
      rewrite E. apply IH.
      now apply (step_sound random js_sqrt js_atan2 now e w0 w1 E). }
  apply G. apply loadedWorld_sound.
Qed.



Lemma exitPhoneMode_modes (w w' : World) :
  exitPhoneMode w = Some w' ->
  phoneInteractionMode w' = false
  /\ robotInteractionMode w' = robotInteractionMode w
  /\ currentSection w' = currentSection w
  /\ isLoaded w' = isLoaded w.
Proof.
  unfold exitPhoneMode. intros H. branches H; fields; auto.
Qed.

Lemma autoClosePhoneHologram_modes (w w' : World) :
  autoClosePhoneHologram w = Some w' ->
  (phoneInteractionMode w' = true ->
   phoneInteractionMode w = true /\ phoneHologram w <> Some true)
  /\ robotInteractionMode w' = robotInteractionMode w
  /\ currentSection w' = currentSection w
  /\ isLoaded w' = isLoaded w.
Proof.
  unfold autoClosePhoneHologram. intros H.
  destruct (phoneInteractionMode w) eqn:Ep; cbn [andb] in H.
  - destruct (phoneHologram w) as [[|]|] eqn:Eh.
    + destruct (exitPhoneMode_modes w w' H) as (E1 & E2 & E3 & E4).
      rewrite E1. split; [discriminate|auto].
    + injection H as <-. repeat split; auto; congruence.
    + injection H as <-. repeat split; auto; congruence.
  - injection H as <-. repeat split; auto; congruence.
Qed.

Lemma deactivateRobotHelpMode_modes (w w' : World) :
  deactivateRobotHelpMode w = Some w' ->
  robotInteractionMode w' = false
  /\ phoneInteractionMode w' = phoneInteractionMode w
  /\ currentSection w' = currentSection w
  /\ isLoaded w' = isLoaded w.
Proof.
  unfold deactivateRobotHelpMode. intros H.
  destruct (robotInteractionMode w) eqn:Em; cbn [negb] in H.
  - branches H; fields; auto.
  - injection H as <-. auto.
Qed.

(** What [focusOnHologramScreen] and [returnToDefaultView] start with. *)
Lemma closeOthers_modes (w w2 : World) :
  (w1 <- autoClosePhoneHologram w ;;
   if robotInteractionMode w1 then deactivateRobotHelpMode w1
   else Some w1) = Some w2 ->
  robotInteractionMode w2 = false
  /\ (phoneInteractionMode w2 = true ->
      phoneInteractionMode w = true /\ phoneHologram w <> Some true)
  /\ currentSection w2 = currentSection w
  /\ isLoaded w2 = isLoaded w.
Proof.
  intros H.
  destruct (autoClosePhoneHologram w) as [w1|] eqn:E1; [|discriminate].
  destruct (autoClosePhoneHologram_modes w w1 E1) as (A1 & A2 & A3 & A4).
  destruct (robotInteractionMode w1) eqn:Em.
  - destruct (deactivateRobotHelpMode_modes w1 w2 H) as (B1 & B2 & B3 & B4).
    rewrite B1, B2, B3, B4. auto.
  - injection H as <-. auto.
Qed.

(** X20: a hologram focus and the return to the default view leave the
    help mode, and they leave the phone mode when its overlay is shown;
    with the phone mode on and the overlay not yet shown, the phone mode
    stays on beside the focus. *)
Theorem focus_closes_the_other_modes (screenIndex : Z) (w w' : World) :
  focusOnHologramScreen screenIndex w = Some w'
  \/ returnToDefaultView w = Some w' ->
  robotInteractionMode w' = false
  /\ (phoneInteractionMode w' = true <->
      phoneInteractionMode w = true /\ phoneHologram w <> Some true).
Proof.
  intros H.
  assert (G : exists w2,
             (w1 <- autoClosePhoneHologram w ;;
              if robotInteractionMode w1 then deactivateRobotHelpMode w1
              else Some w1) = Some w2
             /\ robotInteractionMode w' = robotInteractionMode w2
             /\ phoneInteractionMode w' = phoneInteractionMode w2).
  { destruct H as [H|H].
    - unfold focusOnHologramScreen in H.
      destruct (autoClosePhoneHologram w) as [w1|]; [|discriminate].
      destruct (if robotInteractionMode w1 then _ else _) as [w2|];
        [|discriminate].
      exists w2. split; [reflexivity|].
      destruct (screenInRange screenIndex _); [|injection H as <-; auto].
      injection H as <-.
      destruct (_ && _); unfold hideHologramContent, setHologramContent;
        try destruct (screenInRange (activeHologramIndex _) _);
        fields; auto.
    - unfold returnToDefaultView in H.
      destruct (autoClosePhoneHologram w) as [w1|]; [|discriminate].
      destruct (if robotInteractionMode w1 then _ else _) as [w2|];
        [|discriminate].
      exists w2. split; [reflexivity|]. injection H as <-.
      unfold deactivateHologram, hideAllHologramContent,
        hideHologramContent, setHologramContent. fields.
      destruct (0 <=? _)%Z; try destruct (screenInRange _ _); fields; auto. }
  destruct G as (w2 & E & -> & ->).
  destruct (closeOthers_modes w w2 E) as (A1 & A2 & _).
  split; [exact A1|]. split; [exact A2|].
  intros [Hp Hh].
  destruct (autoClosePhoneHologram w) as [w1|] eqn:E1; [|discriminate].
  assert (Ew1 : w1 = w).
  { unfold autoClosePhoneHologram in E1. rewrite Hp in E1. cbn [andb] in E1.
    destruct (phoneHologram w) as [[|]|]; try (now injection E1).
    now contradiction Hh. }
  subst w1.
  destruct (robotInteractionMode w) eqn:Em.
  - destruct (deactivateRobotHelpMode_modes w w2 E) as (_ & -> & _).
    exact Hp.
  - now injection E as <-.
Qed.


Lemma SectionName_eqb_eq (a b : SectionName) :
  SectionName_eqb a b = true <-> a = b.
Proof.
  split.
  - destruct a, b; cbn; intros H; try discriminate; try reflexivity.
    apply String.eqb_eq in H. now subst.
  - intros <-. destruct a; cbn; try reflexivity. apply String.eqb_refl.
Qed.

Lemma deactivateHologram_section (w : World) :
  currentSection (deactivateHologram w) = currentSection w
  /\ isLoaded (deactivateHologram w) = isLoaded w.
Proof.
  unfold deactivateHologram, hideHologramContent, setHologramContent.
  destruct (0 <=? _)%Z; try destruct (screenInRange _ _); fields; auto.
Qed.

Lemma passive_step_section (now : Z) (e : Event) (w w' : World) :
  passive e = true ->
  step random js_sqrt js_atan2 now e w = Some w' ->
  currentSection w' = currentSection w /\ isLoaded w' = isLoaded w.
Proof.
  intros Hp H. destruct e; try discriminate Hp; cbn [step] in H.
  - destruct (isHologramActive w); injection H as <-;
      [apply deactivateHologram_section|auto].
  - unfold animate in H.
    assert (E0 : currentSection
                   (updateRobotMovement random js_sqrt js_atan2 now w)
                 = currentSection w
                 /\ isLoaded
                      (updateRobotMovement random js_sqrt js_atan2 now w)
                    = isLoaded w).
    { unfold updateRobotMovement. destruct (objects_robot w); [|auto].
      destruct (robotInteractionMode w); [auto|].
      destruct (updateRobot _ _ _ _ _ _ _). fields. auto. }
    destruct E0 as [E0 E0'].
    set (w1 := updateRobotMovement random js_sqrt js_atan2 now w) in *.
    destruct (autoCloseRobotHelp js_sqrt now w1) as [w2|] eqn:E2;
      [|discriminate].
    injection H as <-.
    assert (E1 : currentSection w2 = currentSection w1
                 /\ isLoaded w2 = isLoaded w1).
    { unfold autoCloseRobotHelp in E2.
      destruct (robotInteractionMode w1); [|injection E2 as <-; auto].
      destruct (shouldAutoCloseRobotHelp _ _ _); [|injection E2 as <-; auto].
      destruct (deactivateRobotHelpMode_modes w1 w2 E2) as (_ & _ & A & B).
      auto. }
    destruct E1 as [E1 E1'].
    unfold trackActiveHologram.
    destruct (_ && _); [|split; congruence].
    destruct (isCameraTargetOnHologram _ _ _); [split; congruence|].
    destruct (deactivateHologram_section w2) as [-> ->]. split; congruence.
  - injection H as <-. unfold moveCamera. fields. auto.
  - injection H as <-. unfold completeTween.
    destruct (nth_error (tweens w) k) as [t|]; [|auto].
    destruct (tw_target t), (tw_onComplete t); cbn [runCallback];
      unfold showHologramContent, setHologramContent;
      try destruct (screenInRange _ _); fields; auto.
  - injection H as <-. unfold fireTimer.
    destruct (nth_error (timers w) k) as [t|]; [|auto].
    destruct (tm_callback t) as [| |[]]; cbn [runTimer]; fields; auto;
      destruct (negb _); try destruct (objects_robot _); fields; auto.
Qed.

Lemma returnToDefaultView_section (w w' : World) :
  returnToDefaultView w = Some w' ->
  currentSection w' = home /\ isLoaded w' = isLoaded w.
Proof.
  intros Hr. unfold returnToDefaultView in Hr.
  destruct (autoClosePhoneHologram w) as [w1|] eqn:E1; [|discriminate].
  destruct (if robotInteractionMode w1 then _ else _) as [w2|] eqn:E2;
    [|discriminate].
  assert (C : (x <- autoClosePhoneHologram w ;;
               if robotInteractionMode x then deactivateRobotHelpMode x
               else Some x) = Some w2) by (rewrite E1; exact E2).
  destruct (closeOthers_modes w w2 C) as (_ & _ & _ & Hl2).
  injection Hr as <-.
  unfold deactivateHologram, hideAllHologramContent,
    hideHologramContent, setHologramContent. fields.
  destruct (0 <=? _)%Z; try destruct (screenInRange _ _); fields;
    split; congruence.
Qed.

Lemma focusOnHologramScreen_section (i : Z) (w w' : World) :
  focusOnHologramScreen i w = Some w' ->
  (currentSection w' = currentSection w
   \/ currentSection w' = nth (Z.to_nat i) screenSections home)
  /\ isLoaded w' = isLoaded w.
Proof.
  intros Hf. unfold focusOnHologramScreen in Hf.
  destruct (autoClosePhoneHologram w) as [w1|] eqn:E1; [|discriminate].
  destruct (if robotInteractionMode w1 then _ else _) as [w2|] eqn:E2;
    [|discriminate].
  assert (C : (x <- autoClosePhoneHologram w ;;
               if robotInteractionMode x then deactivateRobotHelpMode x
               else Some x) = Some w2) by (rewrite E1; exact E2).
  destruct (closeOthers_modes w w2 C) as (_ & _ & Hc2 & Hl2).
  destruct (screenInRange i _);
    [|injection Hf as <-; split; [left|]; congruence].
  injection Hf as <-.
  set (sectionName := nth (Z.to_nat i) screenSections home).
  destruct (_ && _); unfold hideHologramContent, setHologramContent;
    try destruct (screenInRange (activeHologramIndex _) _);
    fields; split; auto.
Qed.

Lemma navigateToSection_section (section : SectionName) (w w' : World) :
  isLoaded w = true ->
  navigateToSection section w = Some w' ->
  currentSection w' = section /\ isLoaded w' = true.
Proof.
  intros Hl H. unfold navigateToSection in H. rewrite Hl in H.
  cbn [negb] in H. rewrite orb_false_r in H.
  destruct (SectionName_eqb (currentSection w) section) eqn:E.
  { injection H as <-. apply SectionName_eqb_eq in E. auto. }
  assert (F : forall i,
             nth (Z.to_nat i) screenSections home = section ->
             focusOnHologramScreen i (set_currentSection section w)
             = Some w' ->
             currentSection w' = section /\ isLoaded w' = true).
  { intros i Hn Hf.
    destruct (focusOnHologramScreen_section i _ w' Hf) as [[A|A] B];
      [|rewrite Hn in A]; fields; split; congruence. }
  destruct section; cbn [sectionToScreen] in H.
  - destruct (returnToDefaultView_section _ w' H) as [A B]. fields.
    split; congruence.
  - apply (F 0%Z eq_refl H).
  - apply (F 1%Z eq_refl H).
  - apply (F 2%Z eq_refl H).
  - apply (F 3%Z eq_refl H).
  - injection H as <-. fields. auto.
Qed.

(** X21: a navigation button does nothing while its section is the
    current one, and only a navigation, a focus or the return to the
    default view changes the current section.  So after a navigation to a
    section, as long as only key presses, frames, camera moves, tween
    completions and timers follow (also Escape, which closes the panel),
    the button of that section leaves the world as it is. *)
Theorem navigation_button_is_dead_after_escape
    (section : SectionName) (now now' : Z) (events : list (Z * Event))
    (w w1 w2 : World) :
  isLoaded w = true ->
  step random js_sqrt js_atan2 now (NavButton section) w = Some w1 ->
  forallb (fun event => passive (snd event)) events = true ->
  run random js_sqrt js_atan2 events w1 = Some w2 ->
  step random js_sqrt js_atan2 now' (NavButton section) w2 = Some w2.
Proof.
  intros Hl Hnav Hpassive Hrun. cbn [step] in *.
  destruct (navigateToSection_section section w w1 Hl Hnav) as [Hc1 Hl1].
  assert (G : currentSection w2 = section).
  { clear Hnav Hl. revert w1 Hc1 Hl1 Hrun.
    induction events as [|[t e] rest IH]; intros w1 Hc1 Hl1 Hrun;
      cbn [run] in Hrun.
    - now injection Hrun as <-.
    - cbn [forallb snd] in Hpassive. apply andb_true_iff in Hpassive.
      destruct Hpassive as [Hp Hrest].
      destruct (step random js_sqrt js_atan2 t e w1) as [w'|] eqn:E;
        [|discriminate].
      destruct (passive_step_section t e w1 w' Hp E) as [A B].
      apply (IH Hrest w'); congruence. }
  unfold navigateToSection.
  assert (E : SectionName_eqb (currentSection w2) section = true)
    by (apply SectionName_eqb_eq; exact G).
  now rewrite E.
Qed.


(** X22: the pose the help mode moves the camera to is within the reach
    of the auto-close policy.  With no other animation in flight, once the
    entry animation has ended the camera is at the robot plus (8, 5, 8) and
    looks at the robot plus (0, 5, 0): a distance of [sqrt 153] and of
    [sqrt 25], below the limits of 25 and 20 for any square root that is
    not far off.  So [shouldAutoCloseRobotHelp] answers no at whatever time
    it is asked, until the camera is moved. *)
Theorem help_mode_entry_is_within_reach (now later : Z) (w : World)
    (r : Robot) :
  (forall q, q == 153 -> js_sqrt q <= 25) ->
  (forall q, q == 25 -> js_sqrt q <= 20) ->
  objects_robot w = Some r ->
  robotInteractionMode w = false ->
  tweens w = [] ->
  shouldAutoCloseRobotHelp js_sqrt later
    (settle (activateRobotHelpMode now w))
  = false.
Proof.
  intros Hcam Htarget Hr Hm Ht.
  assert (E : exists w1 r1,
             activateRobotHelpMode now w = w1
             /\ tweens w1
                = [mkTween CameraPosition
                     (mkVec3 (vx (position r) + 8) (vy (position r) + 5)
                        (vz (position r) + 8)) 2 CbNone;
                   mkTween ControlsTarget
                     (mkVec3 (vx (position r)) (vy (position r) + 5)
                        (vz (position r))) 2 CbNone]
             /\ objects_robot w1 = Some r1
             /\ position r1 = position r
             /\ robotInteractionMode w1 = true).
  { eexists. eexists. split; [reflexivity|].
    unfold activateRobotHelpMode. rewrite Hr, Hm. fields. rewrite Ht.
    cbn [app]. split; [reflexivity|]. split; [reflexivity|].
    fields. auto. }
  destruct E as (w1 & r1 & -> & Et & Er & Ep & Emode).
  destruct (settle_pair _ _ _ _ _ _ w1 Et)
    as (_ & Ecam & Etar & _ & Em2 & _ & _ & Er2).
  unfold shouldAutoCloseRobotHelp.
  rewrite Er2, Er, Em2, Emode. cbn [negb].
  destruct (_ <? gracePeriod)%Z; [reflexivity|].
  rewrite Ecam, Etar, Ep. unfold distanceTo. cbn [vx vy vz].
  assert (A : Qltb maxCameraDistance
                (js_sqrt
                   ((vx (position r) + 8 - vx (position r))
                    * (vx (position r) + 8 - vx (position r))
                    + (vy (position r) + 5 - vy (position r))
                      * (vy (position r) + 5 - vy (position r))
                    + (vz (position r) + 8 - vz (position r))
                      * (vz (position r) + 8 - vz (position r))))
              = false).
  { apply Qltb_ge. apply Hcam. ring. }
  assert (B : Qltb maxTargetDistance
                (js_sqrt
                   ((vx (position r) - vx (position r))
                    * (vx (position r) - vx (position r))
                    + (vy (position r) + 5 - vy (position r))
                      * (vy (position r) + 5 - vy (position r))
                    + (vz (position r) - vz (position r))
                      * (vz (position r) - vz (position r))))
              = false).
  { apply Qltb_ge. apply Htarget. ring. }
  rewrite A, B. reflexivity.
Qed.

End Scene.

(** ** The collision query, again *)

(** X23: more obstacles or a larger robot never free a position: a
    position that [checkCollision] reports blocked for some obstacles and
    some radius is blocked for every longer list of obstacles and every
    larger radius. *)
Theorem checkCollision_is_monotone
    (obs obs' : list Obstacle) (x z robotRadius robotRadius' : Q) :
  incl obs obs' -> robotRadius <= robotRadius' ->
  checkCollision obs x z robotRadius = true ->
  checkCollision obs' x z robotRadius' = true.
Proof.
  intros Hincl Hr H. apply checkCollision_true_iff in H.
  apply checkCollision_true_iff. destruct H as [(o & Hin & Ho)|H];
    [left|right; exact H].
  exists o. split; [now apply Hincl|].
  apply intersectsObstacle_iff in Ho. apply intersectsObstacle_iff. lra.
Qed.

(** ** Picking a hologram panel *)

Lemma isGroupOrBelow_chain (above group : Object3D) :
  isGroupOrBelow above group = true <-> In (uuid group) (chain above).
Proof.
  induction above as [id|id above IH]; cbn [isGroupOrBelow chain uuid].
  - destruct (Nat.eqb id (uuid group)) eqn:E.
    + apply Nat.eqb_eq in E. split; [now left|reflexivity].
    + apply Nat.eqb_neq in E. split; [discriminate|].
      intros [H|[]]. now contradiction E.
  - destruct (Nat.eqb id (uuid group)) eqn:E.
    + apply Nat.eqb_eq in E. split; [now left|reflexivity].
    + apply Nat.eqb_neq in E. rewrite IH. split; [now right|].
      intros [H|H]; [now contradiction E|exact H].
Qed.

Lemma isChildOfGroup_ancestors (object group : Object3D) :
  isChildOfGroup object group = true <-> In (uuid group) (ancestors object).
Proof.
  unfold isChildOfGroup, ancestors.
  destruct object as [id|id above]; cbn [parent chain tl].
  - split; [discriminate|intros []].
  - apply isGroupOrBelow_chain.
Qed.

Lemma findScreenIndexFrom_spec (clickedObject : Object3D)
    (hologramScreens : list Object3D) (i : nat) :
  (findScreenIndexFrom i clickedObject hologramScreens = (-1)%Z
   /\ forall screen, In screen hologramScreens ->
                     isChildOfGroup clickedObject screen = false)
  \/ exists k screen,
       findScreenIndexFrom i clickedObject hologramScreens
       = Z.of_nat (i + k)
       /\ nth_error hologramScreens k = Some screen
       /\ isChildOfGroup clickedObject screen = true
       /\ forall j earlier, (j < k)%nat ->
                            nth_error hologramScreens j = Some earlier ->
                            isChildOfGroup clickedObject earlier = false.
Proof.
  revert i. induction hologramScreens as [|screen rest IH]; intros i;
    cbn [findScreenIndexFrom].
  - left. split; [reflexivity|intros ? []].
  - destruct (isChildOfGroup clickedObject screen) eqn:E.
    + right. exists 0%nat, screen. rewrite Nat.add_0_r.
      repeat split; auto. intros j earlier Hj. lia.
    + destruct (IH (S i)) as [[H1 H2]|(k & s & H1 & H2 & H3 & H4)].
      * left. split; [exact H1|]. intros s [<-|Hs]; auto.
      * right. exists (S k), s.
        split; [rewrite H1; f_equal; lia|].
        split; [exact H2|]. split; [exact H3|].
        intros [|j] earlier Hj Hn; cbn [nth_error] in Hn.
        -- now injection Hn as <-.
        -- apply (H4 j); [lia|exact Hn].
Qed.

(** X24: [findScreenIndex] returns the index of the first panel that is
    above the clicked object in the scene graph, and [-1] when there is
    none; a click on a panel group itself, which has no panel above it,
    gives [-1].  With four panels the result is [-1] or an index that
    [focusOnHologramScreen] accepts. *)
Theorem findScreenIndex_finds_the_first_panel
    (clickedObject : Object3D) (hologramScreens : list Object3D) :
  let index := findScreenIndex clickedObject hologramScreens in
  (index = (-1)%Z
   /\ forall screen, In screen hologramScreens ->
                     ~ In (uuid screen) (ancestors clickedObject))
  \/ (screenInRange index (length hologramScreens) = true
      /\ exists screen,
           nth_error hologramScreens (Z.to_nat index) = Some screen
           /\ In (uuid screen) (ancestors clickedObject)
           /\ forall j earlier, (j < Z.to_nat index)%nat ->
                nth_error hologramScreens j = Some earlier ->
                ~ In (uuid earlier) (ancestors clickedObject)).
Proof.
  cbn zeta. unfold findScreenIndex.
  assert (N : forall screen,
             isChildOfGroup clickedObject screen = false ->
             ~ In (uuid screen) (ancestors clickedObject)).
  { intros screen H Hin. apply isChildOfGroup_ancestors in Hin. congruence. }
  destruct (findScreenIndexFrom_spec clickedObject hologramScreens 0)
    as [[H1 H2]|(k & screen & H1 & H2 & H3 & H4)].
  - left. split; [exact H1|]. intros screen Hs. apply N. now apply H2.
  - right. rewrite H1. cbn [Nat.add]. rewrite Nat2Z.id.
    assert (Hk : (k < length hologramScreens)%nat).
    { apply nth_error_Some. congruence. }
    split.
    + unfold screenInRange. apply andb_true_iff. split.
      * apply Z.leb_le. lia.
      * apply Z.ltb_lt. lia.
    + exists screen. split; [exact H2|]. split.
      * now apply isChildOfGroup_ancestors.
      * intros j earlier Hj Hn. apply N. now apply (H4 j).
Qed.

(** ** Floating particles *)

Lemma risen_range (fround : Q -> Q) (y : Q) :
  (forall q, 0 <= q -> 0 <= fround q) ->
  0 <= y -> 0 <= risen fround y <= 50.
Proof.
  intros Hround H. unfold risen. cbn zeta.
  assert (H' : 0 <= fround (y + 0.01)) by (apply Hround; lra).
  destruct (Qltb 50 (fround (y + 0.01))) eqn:E.
  - lra.
  - apply Qltb_ge in E. lra.
Qed.

Lemma mod3_shift (j : nat) : (S (S (S j)) mod 3 = j mod 3)%nat.
Proof.
  change (S (S (S j))) with (3 + j)%nat.
  rewrite <- (Nat.Div0.add_mod_idemp_l 3 j 3).
  now rewrite Nat.Div0.mod_same.
Qed.

Lemma riseParticles_nth (fround : Q -> Q) (positions : list Q) :
  forall j,
    nth j (riseParticles fround positions) 0
    = if (Nat.eqb (j mod 3) 1 && (j <? length positions))%nat
      then risen fround (nth j positions 0) else nth j positions 0.
Proof.
  assert (G : forall n positions, (length positions <= n)%nat ->
             forall j,
               nth j (riseParticles fround positions) 0
               = if (Nat.eqb (j mod 3) 1 && (j <? length positions))%nat
                 then risen fround (nth j positions 0)
                 else nth j positions 0).
  { clear positions. induction n as [|n IH]; intros positions Hlen j.
    - destruct positions; [|cbn in Hlen; lia]. cbn [riseParticles length].
      replace (j <? 0)%nat with false by (symmetry; apply Nat.ltb_ge; lia).
      now rewrite andb_false_r.
    - destruct positions as [|x [|y [|z rest]]]; cbn [riseParticles].
      + replace (j <? length (@nil Q))%nat with false
          by (symmetry; apply Nat.ltb_ge; cbn; lia).
        now rewrite andb_false_r.
      + destruct j as [|j]; [reflexivity|].
        replace (S j <? length [x])%nat with false
          by (symmetry; apply Nat.ltb_ge; cbn; lia).
        now rewrite andb_false_r.
      + destruct j as [|[|j]]; try reflexivity.
        replace (S (S j) <? length [x; y])%nat with false
          by (symmetry; apply Nat.ltb_ge; cbn; lia).
        now rewrite andb_false_r.
      + destruct j as [|[|[|j]]]; try reflexivity.
        cbn [nth]. rewrite (IH rest ltac:(cbn in Hlen; lia) j).
        rewrite mod3_shift.
        replace (S (S (S j)) <? length (x :: y :: z :: rest))%nat
          with (j <? length rest)%nat; [reflexivity|].
        cbn [length]. destruct (j <? length rest)%nat eqn:E; symmetry.
        * apply Nat.ltb_lt in E. apply Nat.ltb_lt. lia.
        * apply Nat.ltb_ge in E. apply Nat.ltb_ge. lia. }
  apply (G (length positions)). lia.
Qed.

(** X25: the particles drift straight up and stay under the ceiling.  A
    frame changes the heights only (the entries 1, 4, 7, ... of the flat
    array), raising each by 0.01 or sending it back to 0 once it has
    passed 50; so after any number of frames the array has its length and
    every [x] and [z] is what it was, and, with a rounding that keeps
    numbers from 0 on at 0 or above, heights that start at 0 or above are
    between 0 and 50 from the first frame on. *)
Theorem particles_stay_under_the_ceiling
    (fround : Q -> Q) (positions : list Q) (n : nat) :
  let positions' := Nat.iter n (riseParticles fround) positions in
  length positions' = length positions
  /\ (forall j, (j mod 3 <> 1)%nat ->
                nth j positions' 0 = nth j positions 0)
  /\ ((forall q, 0 <= q -> 0 <= fround q) ->
      (forall j, (j mod 3 = 1)%nat -> 0 <= nth j positions 0) ->
      forall j, (j mod 3 = 1)%nat -> (j < length positions)%nat ->
                (0 < n)%nat -> 0 <= nth j positions' 0 <= 50).
Proof.
  cbn zeta.
  assert (L : forall l, length (riseParticles fround l) = length l).
  { assert (G : forall k l, (length l <= k)%nat ->
                            length (riseParticles fround l) = length l).
    { induction k as [|k IH]; intros l Hl.
      - destruct l; [reflexivity|cbn in Hl; lia].
      - destruct l as [|x [|y [|z rest]]]; cbn [riseParticles length];
          try reflexivity.
        rewrite (IH rest); [reflexivity|cbn in Hl; lia]. }
    intros l. apply (G (length l)). lia. }
  induction n as [|n (IHl & IHxz & IHy)].
  - unfold Nat.iter. cbn [nat_rect]. repeat split; auto. intros; lia.
  - unfold Nat.iter in *. cbn [nat_rect].
    set (before := nat_rect _ positions (fun _ => riseParticles fround) n)
      in *.
    split; [rewrite L; exact IHl|]. split.
    + intros j Hj. rewrite riseParticles_nth.
      assert (E : Nat.eqb (j mod 3) 1 = false) by (now apply Nat.eqb_neq).
      rewrite E. cbn [andb]. now apply IHxz.
    + intros Hround Hstart j Hj Hlen _. rewrite riseParticles_nth.
      assert (E : Nat.eqb (j mod 3) 1 = true) by (now apply Nat.eqb_eq).
      assert (E' : (j <? length before)%nat = true)
        by (apply Nat.ltb_lt; rewrite IHl; exact Hlen).
      rewrite E, E'. cbn [andb]. apply risen_range; [exact Hround|].
      destruct n as [|n].
      * unfold before. cbn [nat_rect]. now apply Hstart.
      * apply (IHy Hround Hstart j Hj Hlen). lia.
Qed.

(** ** Hovering and clicking scene objects *)

Section Hovering.

Import InteractiveElements.

Ltac hover_fields :=
  cbn [camera interactiveObjects hoveredObject cursor called] in *.

Ltac unchanged := split; [split; assumption|assumption].

Lemma hoveredAfter_app (log log' : list Called) (hovered : option nat) :
  hoveredAfter (log ++ log') hovered
  = match hoveredAfter log hovered with
    | Some hovered' => hoveredAfter log' hovered'
    | None => None
    end.
Proof.
  revert hovered. induction log as [|[i|i|i] log IH]; intros hovered;
    cbn [app hoveredAfter]; auto.
  - destruct hovered; auto.
  - destruct hovered as [j|]; auto. destruct (Nat.eqb i j); auto.
Qed.

Lemma findFrom_bound (i hit : nat) (items : list Item) (k : nat) :
  findFrom i hit items = Some k -> (i <= k < i + length items)%nat.
Proof.
  revert i. induction items as [|item rest IH]; intros i H;
    cbn [findFrom length] in *; [discriminate|].
  destruct (_ || _).
  - injection H as <-. lia.
  - apply IH in H. lia.
Qed.

Lemma has_effect (callback : Item -> bool) (i : nat) (s : State) :
  Forall (fun item => onHover item = true /\ onLeave item = true)
    (interactiveObjects s) ->
  (i < length (interactiveObjects s))%nat ->
  has onHover i s = true /\ has onLeave i s = true.
Proof.
  intros Hall Hi. unfold has.
  destruct (nth_error (interactiveObjects s) i) as [item|] eqn:E.
  - rewrite Forall_forall in Hall. apply Hall. eapply nth_error_In, E.
  - apply nth_error_None in E. lia.
Qed.

Lemma replaceChildren_effects (i : nat) (children' : list nat)
    (items : list Item) :
  Forall (fun item => onHover item = true /\ onLeave item = true) items ->
  Forall (fun item => onHover item = true /\ onLeave item = true)
    (replaceChildren i children' items)
  /\ length (replaceChildren i children' items) = length items.
Proof.
  revert i. induction items as [|item rest IH]; intros i H.
  - destruct i; cbn [replaceChildren]; auto.
  - inversion H as [|? ? Hitem Hrest]; subst.
    destruct i as [|j]; cbn [replaceChildren length].
    + split; [constructor; auto|reflexivity].
    + destruct (IH j Hrest) as [A B]. split; [constructor; auto|].
      now rewrite B.
Qed.

Lemma call_hover (c : Call) (s : State) :
  withHoverEffect c -> hoverEffects s ->
  hoveredAfter (rev (called s)) None = Some (hoveredObject s) ->
  hoverEffects (call c s)
  /\ hoveredAfter (rev (called (call c s))) None
     = Some (hoveredObject (call c s)).
Proof.
  intros Hc [Hall Hidx] Hlog.
  destruct c as [|item|i children'|intersected|intersected|];
    cbn [call withHoverEffect] in *.
  - split; [split|]; assumption.
  - unfold addInteractiveObject, hoverEffects. hover_fields.
    split; [split|exact Hlog].
    + apply Forall_app. split; [exact Hall|]. constructor; auto.
    + intros i Hi. rewrite length_app. specialize (Hidx i Hi). lia.
  - unfold hoverEffects. hover_fields.
    destruct (replaceChildren_effects i children' _ Hall) as [A B].
    split; [split|exact Hlog]; [exact A|]. rewrite B. exact Hidx.
  - unfold onMouseMove. destruct (negb (camera s)); [unchanged|].
    assert (Hleft : hoveredAfter (rev (leaveHovered s)) None = Some None).
    { unfold leaveHovered. destruct (hoveredObject s) as [previous|] eqn:E;
        [|exact Hlog].
      destruct (has_effect onLeave previous s Hall (Hidx _ eq_refl))
        as [_ ->].
      cbn [rev]. rewrite hoveredAfter_app, Hlog. cbn [hoveredAfter].
      now rewrite Nat.eqb_refl. }
    destruct intersected as [intersectedObject|].
    + destruct (find intersectedObject s) as [i|] eqn:Ef;
        [|unchanged].
      destruct (negb (option_nat_eqb (hoveredObject s) (Some i)));
        [|unchanged].
      apply findFrom_bound in Ef. cbn [Nat.add] in Ef. cbn zeta.
      destruct (has_effect onHover i s Hall ltac:(lia)) as [-> _].
      unfold hoverEffects. hover_fields. split; [split|].
      * exact Hall.
      * intros j Hj. injection Hj as <-. lia.
      * cbn [rev]. rewrite hoveredAfter_app, Hleft. reflexivity.
    + unfold hoverEffects. hover_fields. split; [split|exact Hleft].
      * exact Hall.
      * discriminate.
  - unfold onClickEvent. destruct (negb (camera s)); [unchanged|].
    destruct intersected as [intersectedObject|]; [|unchanged].
    destruct (find intersectedObject s) as [i|]; [|unchanged].
    destruct (has onClick i s); [|unchanged].
    unfold hoverEffects. hover_fields. split; [split; assumption|].
    cbn [rev]. rewrite hoveredAfter_app, Hlog. reflexivity.
  - contradiction.
Qed.

(** X26: hovers and leaves come in pairs.  With every object registered
    with a hover and a leave callback and the instance not destroyed, the
    callbacks are called in turn, each [onLeave] for the item of the
    [onHover] before it, and the item whose [onHover] is still open is the
    one [hoveredObject] holds. *)
Theorem hovers_and_leaves_come_in_pairs (calls : list Call) :
  Forall withHoverEffect calls ->
  hoveredAfter (rev (called (run calls constructor))) None
  = Some (hoveredObject (run calls constructor)).
Proof.
  intros Hcalls. unfold run.
  assert (G : forall s,
             hoverEffects s ->
             hoveredAfter (rev (called s)) None = Some (hoveredObject s) ->
             hoveredAfter
               (rev (called (fold_left (fun s c => call c s) calls s))) None
             = Some (hoveredObject
                       (fold_left (fun s c => call c s) calls s))).
  { induction Hcalls as [|c rest Hc _ IH]; intros s Hs Hlog;
      cbn [fold_left]; [exact Hlog|].
    destruct (call_hover c s Hc Hs Hlog) as [Hs' Hlog']. now apply IH. }
  apply G; [|reflexivity].
  unfold constructor, hoverEffects. hover_fields.
  split; [constructor|discriminate].
Qed.

End Hovering.

(** ** Instances *)

Lemma checkPerformance_respects_cooldown_witness :
  (30 <= length (PerformanceManager.fpsHistory slowManager))%nat
  /\ PerformanceManager.lastAdjustmentTime slowManager + 5000 <= 31000
  /\ PerformanceManager.lastAdjustmentTime
       (PerformanceManager.checkPerformance 31000 2 slowManager)
     = 31000.
Proof.
  apply (checkPerformance_respects_cooldown 31000 2 slowManager).
  vm_compute. discriminate.
Defined.

Lemma increaseQuality_undoes_reduceQuality_witness :
  PerformanceManager.settings
    (PerformanceManager.increaseQuality 2
       (PerformanceManager.reduceQuality slowManager))
  = PerformanceManager.settings slowManager.
Proof.
  apply (increaseQuality_undoes_reduceQuality 2 slowManager).
  - vm_compute. repeat split; reflexivity.
  - reflexivity.
Defined.


(** The settings are back at full quality, and the decorations are still
    hidden. *)
Example quality_comes_back_without_the_decorations :
  PerformanceManager.decorations
    (PerformanceManager.settings
       (PerformanceManager.increaseQuality 2
          (PerformanceManager.reduceQuality slowManager)))
  = true
  /\ cyberpunkOffice (Portfolio3D.replay downAndUp sampleDisplay)
     = Some (mkScenery [true] [Some 1] [false; false]).
Proof. split; reflexivity. Qed.

Lemma simulateLoading_finishes_witness :
  (forall j, (j < 15)%nat ->
     LoadingManager.loadingInterval
       (Nat.iter j LoadingManager.tick startedLoading) = true
     /\ LoadingManager.loadedItems
          (Nat.iter j LoadingManager.tick startedLoading)
        = (0 + j)%nat
     /\ LoadingManager.loadTimers
          (Nat.iter j LoadingManager.tick startedLoading)
        = 0%nat
     /\ LoadingManager.isLoading
          (Nat.iter j LoadingManager.tick startedLoading)
        = true)
  /\ LoadingManager.loadingInterval
       (Nat.iter 15 LoadingManager.tick startedLoading) = false
     /\ LoadingManager.isLoading
          (Nat.iter 15 LoadingManager.tick startedLoading) = false
     /\ LoadingManager.progress
          (Nat.iter 15 LoadingManager.tick startedLoading)
        = LoadingManager.Percent 100
     /\ LoadingManager.loadTimers
          (Nat.iter 15 LoadingManager.tick startedLoading)
        = 1%nat
     /\ forall k,
          Nat.iter k LoadingManager.tick
            (Nat.iter 15 LoadingManager.tick startedLoading)
          = Nat.iter 15 LoadingManager.tick startedLoading.
Proof.
  apply (simulateLoading_finishes_on_the_last_item startedLoading).
  - reflexivity.
  - cbn. lia.
Defined.

Lemma reportError_does_not_stop_the_loading_witness :
  LoadingManager.hasError
    (LoadingManager.fireLoadTimer
       (Nat.iter 15 LoadingManager.tick
          (LoadingManager.reportError startedLoading)))
  = true
  /\ LoadingManager.isLoading
       (LoadingManager.fireLoadTimer
          (Nat.iter 15 LoadingManager.tick
             (LoadingManager.reportError startedLoading)))
     = false
  /\ LoadingManager.loads
       (LoadingManager.fireLoadTimer
          (Nat.iter 15 LoadingManager.tick
             (LoadingManager.reportError startedLoading)))
     = 1%nat.
Proof.
  apply (reportError_does_not_stop_the_loading startedLoading).
  - reflexivity.
  - cbn. lia.
  - reflexivity.
Defined.

Lemma tick_shows_a_listed_message_witness :
  exists message,
    nth_error LoadingManager.loadingMessages 0 = Some message
    /\ LoadingManager.loadingText (LoadingManager.tick startedLoading)
       = Some (LoadingManager.Text message).
Proof.
  apply (tick_shows_a_listed_message startedLoading
           (LoadingManager.Text String.EmptyString)).
  - reflexivity.
  - cbn. lia.
  - reflexivity.
Defined.



Lemma pending_close_removes_the_new_dialogue_witness :
  ModalManager.activeModal afterSecondDialogue = None
  /\ ModalManager.attached 1 (ModalManager.body afterSecondDialogue) = false
  /\ forall id,
       ModalManager.attached id (ModalManager.body oneDialogue) = true ->
       ModalManager.attached id (ModalManager.body afterSecondDialogue)
       = true.
Proof.
  apply (pending_close_removes_the_new_dialogue ModalManager.projects
           oneDialogue).
  - left. discriminate.
  - repeat constructor.
Defined.

Lemma orphaned_overlay_is_never_removed_witness :
  ModalManager.attached 0
    (ModalManager.body
       (ModalManager.run
          [ModalManager.ClickBackdrop 0; ModalManager.KeyEscape;
           ModalManager.CloseTimer]
          afterSecondDialogue))
  = true
  /\ ModalManager.activeModal
       (ModalManager.run
          [ModalManager.ClickBackdrop 0; ModalManager.KeyEscape;
           ModalManager.CloseTimer]
          afterSecondDialogue)
     <> Some 0%nat.
Proof.
  apply (orphaned_overlay_is_never_removed 0
           [ModalManager.ClickBackdrop 0; ModalManager.KeyEscape;
            ModalManager.CloseTimer]
           afterSecondDialogue).
  repeat split; try reflexivity; try discriminate.
  - cbn. lia.
Defined.

Lemma dialogue_closes_cleanly_witness :
  ModalManager.body
    (ModalManager.run
       [ModalManager.ShowModal ModalManager.about;
        ModalManager.AnimationFrame 0; ModalManager.KeyEscape;
        ModalManager.CloseTimer]
       ModalManager.constructor)
  = ModalManager.body ModalManager.constructor
  /\ ModalManager.activeModal
       (ModalManager.run
          [ModalManager.ShowModal ModalManager.about;
           ModalManager.AnimationFrame 0; ModalManager.KeyEscape;
           ModalManager.CloseTimer]
          ModalManager.constructor)
     = None
  /\ ModalManager.frames
       (ModalManager.run
          [ModalManager.ShowModal ModalManager.about;
           ModalManager.AnimationFrame 0; ModalManager.KeyEscape;
           ModalManager.CloseTimer]
          ModalManager.constructor)
     = [].
Proof.
  apply (dialogue_closes_cleanly ModalManager.about ModalManager.KeyEscape
           ModalManager.constructor).
  - repeat split; constructor.
  - left. reflexivity.
Defined.

Lemma detected_settings_are_never_reported_witness :
  length
    (PerformanceManager.fpsHistory
       (PerformanceManager.run slowHalfMinute
          (PerformanceManager.constructor 0 3 phone)))
  = 30%nat
  /\ PerformanceManager.applied
       (PerformanceManager.run slowHalfMinute
          (PerformanceManager.constructor 0 3 phone))
     = []
  /\ PerformanceManager.settings
       (PerformanceManager.run slowHalfMinute
          (PerformanceManager.constructor 0 3 phone))
     = PerformanceManager.mkSettings 1 false false true false true.
Proof.
  split; [reflexivity|].
  apply (detected_settings_are_never_reported 0 3 phone slowHalfMinute).
  - reflexivity.
  - vm_compute. repeat split; discriminate.
Defined.




Lemma focus_closes_the_other_modes_witness :
  robotInteractionMode
    (orElse (focusOnHologramScreen 0 helpWorld) helpWorld) = false
  /\ (phoneInteractionMode
        (orElse (focusOnHologramScreen 0 helpWorld) helpWorld) = true <->
      phoneInteractionMode helpWorld = true
      /\ phoneHologram helpWorld <> Some true).
Proof.
  apply (focus_closes_the_other_modes 0 helpWorld
           (orElse (focusOnHologramScreen 0 helpWorld) helpWorld)).
  left. reflexivity.
Defined.

Lemma aboutWorld_step :
  step cornerRandom sampleSqrt sampleAtan2 1000 (NavButton about)
    (loadedWorld cornerRandom)
  = Some aboutWorld.
Proof. vm_compute. reflexivity. Qed.

Lemma escapedWorld_run :
  run cornerRandom sampleSqrt sampleAtan2
    [(3000%Z, TweenComplete 0); (3000%Z, TweenComplete 0);
     (5000%Z, KeyEscape)]
    aboutWorld
  = Some escapedWorld.
Proof. vm_compute. reflexivity. Qed.

(** The panel is closed, and its button does nothing. *)
Lemma navigation_button_is_dead_after_escape_witness :
  activeHologramIndex escapedWorld = (-1)%Z
  /\ step cornerRandom sampleSqrt sampleAtan2 6000 (NavButton about)
       escapedWorld
     = Some escapedWorld.
Proof.
  split; [reflexivity|].
  apply (navigation_button_is_dead_after_escape cornerRandom sampleSqrt
           sampleAtan2 about 1000 6000
           [(3000%Z, TweenComplete 0); (3000%Z, TweenComplete 0);
            (5000%Z, KeyEscape)]
           (loadedWorld cornerRandom) aboutWorld escapedWorld).
  - reflexivity.
  - exact aboutWorld_step.
  - reflexivity.
  - exact escapedWorld_run.
Defined.

(** [sampleSqrt] does not exceed a bound whose square is large enough. *)
Lemma sampleSqrt_le (q : Q) (square bound : Z) :
  q == inject_Z square -> (0 <= square)%Z -> (0 <= bound)%Z ->
  (square <= bound * bound)%Z ->
  sampleSqrt q <= inject_Z bound.
Proof.
  intros Hq Hs Hb Hle. unfold sampleSqrt.
  unfold Qeq in Hq. cbn [Qnum Qden inject_Z] in Hq.
  unfold Qle. cbn [Qnum Qden inject_Z].
  rewrite Z.mul_1_r in *.
  set (d := Z.pos (Qden q)) in *.
  assert (Hd : (0 < d)%Z) by (unfold d; lia).
  rewrite Hq.
  assert (H : (Z.sqrt (square * d * d) < bound * d + 1)%Z).
  { apply Z.sqrt_lt_square; nia. }
  lia.
Qed.

Lemma help_mode_entry_is_within_reach_witness :
  shouldAutoCloseRobotHelp sampleSqrt 99000
    (settle (activateRobotHelpMode 1000 restWorld))
  = false.
Proof.
  apply (help_mode_entry_is_within_reach sampleSqrt 1000 99000 restWorld
           idleRobot).
  - intros q Hq. apply (sampleSqrt_le q 153 25 Hq); lia.
  - intros q Hq. apply (sampleSqrt_le q 25 20 Hq); lia.
  - reflexivity.
  - reflexivity.
  - reflexivity.
Defined.

Lemma checkCollision_is_monotone_witness :
  checkCollision constructorObstacles 0 6 2 = true.
Proof.
  apply (checkCollision_is_monotone [mkObstacle 0 5 3 3]
           constructorObstacles 0 6 1 2).
  - intros o [<-|[]]. right. left. reflexivity.
  - discriminate.
  - reflexivity.
Defined.

Lemma hovers_and_leaves_come_in_pairs_witness :
  InteractiveElements.called
    (InteractiveElements.run hoverCalls InteractiveElements.constructor)
  = [InteractiveElements.Leave 0; InteractiveElements.Hover 0]
  /\ InteractiveElements.hoveredAfter
       (rev (InteractiveElements.called
               (InteractiveElements.run hoverCalls
                  InteractiveElements.constructor)))
       None
     = Some (InteractiveElements.hoveredObject
               (InteractiveElements.run hoverCalls
                  InteractiveElements.constructor)).
Proof.
  split; [reflexivity|].
  apply (hovers_and_leaves_come_in_pairs hoverCalls).
  unfold hoverCalls. repeat constructor.
Defined.
